(** * Samba Control Center: configuration store and mount-table store

    A shallow embedding of [samba_control_center.py]: the classes
    [SambaConfig] (the INI configuration of the shares) and [MountManager]
    (the entries of /etc/fstab), together with the part of the Python
    library they rest on (text-mode file access, [str] methods,
    [configparser.ConfigParser], [shutil.copy2], [os.path.join]); then
    [SambaUserManager], [SystemManager] and the request handler [index],
    over the answers of the external commands they run.

    Text is a sequence of code points below 256 ([string]); the file system
    is a finite map from paths to file contents, with a second map for the
    permission bits that [os.chmod] and [shutil.copy2] set.  The locale's
    codec is UTF-8, the one that [get_fstab_mounts] and [SambaConfig] name:
    a file is the text it decodes to, or, when its bytes are not valid, what
    strict and lenient decoding make of it.  Directories are not modelled:
    opening a file for writing succeeds, creating a directory succeeds
    unless a regular file has its path or the path of a directory above it,
    reading or copying an absent file raises. *)

From Stdlib Require Import Ascii NArith Lia.
From stdpp Require Import base option list gmap strings.

Local Open Scope string_scope.

(** ** Python [str] operations *)

Module Str.

Definition LF : ascii := "010"%char.
Definition CR : ascii := "013"%char.

(** [str.isspace] on one code point below 256: TAB, LF, VT, FF, CR,
    FS, GS, RS, US, space, NEL and the no-break space. *)
Definition isspace (c : ascii) : bool :=
  let n := N_of_ascii c in
  ((9 <=? n) && (n <=? 13) || (28 <=? n) && (n <=? 32)
   || (n =? 133) || (n =? 160))%N.

(** [str.lower] on one code point below 256: A-Z, and the Latin-1 capitals
    other than the multiplication sign. *)
Definition lower_char (c : ascii) : ascii :=
  let n := N_of_ascii c in
  if ((65 <=? n) && (n <=? 90)
      || (192 <=? n) && (n <=? 222) && negb (n =? 215))%N
  then ascii_of_N (n + 32) else c.

Fixpoint lower (s : string) : string :=
  match s with
  | EmptyString => EmptyString
  | String c r => String (lower_char c) (lower r)
  end.

(** [s.startswith(p)] *)
Fixpoint startswith (p s : string) : bool :=
  match p with
  | EmptyString => true
  | String a p' =>
      match s with
      | EmptyString => false
      | String b s' => Ascii.eqb a b && startswith p' s'
      end
  end.

(** [needle in s]: substring test; the empty needle is in every string. *)
Fixpoint contains (needle s : string) : bool :=
  startswith needle s ||
  match s with
  | EmptyString => false
  | String _ s' => contains needle s'
  end.

Fixpoint lstrip (s : string) : string :=
  match s with
  | EmptyString => EmptyString
  | String c r => if isspace c then lstrip r else s
  end.

Fixpoint rstrip (s : string) : string :=
  match s with
  | EmptyString => EmptyString
  | String c r =>
      match rstrip r with
      | EmptyString => if isspace c then EmptyString else String c EmptyString
      | r' => String c r'
      end
  end.

(** [s.strip()] *)
Definition strip (s : string) : string := rstrip (lstrip s).

(** [s.split()]: the maximal runs of non-space characters. *)
Fixpoint split (s : string) : list string :=
  match s with
  | EmptyString => []
  | String c r =>
      if isspace c then split r
      else match r with
           | EmptyString => [String c EmptyString]
           | String c' _ =>
               if isspace c' then String c EmptyString :: split r
               else match split r with
                    | w :: ws => String c w :: ws
                    | [] => [String c EmptyString]
                    end
           end
  end.

(** [s.split(sep)] for a one-character separator. *)
Fixpoint split_on (sep : ascii) (s : string) : list string :=
  match s with
  | EmptyString => [EmptyString]
  | String c r =>
      if Ascii.eqb c sep then EmptyString :: split_on sep r
      else match split_on sep r with
           | w :: ws => String c w :: ws
           | [] => [String c EmptyString]
           end
  end.

(** [s.split(sep, 1)] for a one-character separator. *)
Fixpoint split_once (sep : ascii) (s : string) : list string :=
  match s with
  | EmptyString => [EmptyString]
  | String c r =>
      if Ascii.eqb c sep then [EmptyString; r]
      else match split_once sep r with
           | w :: ws => String c w :: ws
           | [] => [String c EmptyString]
           end
  end.

(** [s.replace(a, b)] for one-character [a]. *)
Fixpoint replace_char (a : ascii) (b : string) (s : string) : string :=
  match s with
  | EmptyString => EmptyString
  | String c r =>
      if Ascii.eqb c a then b +:+ replace_char a b r
      else String c (replace_char a b r)
  end.

(** [''.join(ls)] *)
Fixpoint join (ls : list string) : string :=
  match ls with
  | [] => EmptyString
  | l :: r => l +:+ join r
  end.

(** [x in (a, b, ...)] for strings. *)
Definition mem (x : string) (xs : list string) : bool :=
  existsb (String.eqb x) xs.

End Str.

(** ** Text-mode files *)

Module TextIO.
Import Str.

(** Reading through [open(path, 'r')]: the default [newline=None] turns
    every CR LF and every lone CR into LF before the program sees the text.
    Writing in text mode on Linux leaves LF as it is. *)
Fixpoint universal_newlines (s : string) : string :=
  match s with
  | EmptyString => EmptyString
  | String c r =>
      if Ascii.eqb c CR then
        match r with
        | String c' r' =>
            if Ascii.eqb c' LF then String LF (universal_newlines r')
            else String LF (universal_newlines r)
        | EmptyString => String LF EmptyString
        end
      else String c (universal_newlines r)
  end.

(** The lines of an already translated text, each with its terminating LF
    (the last one may lack it): what [f.readlines()] and [for line in f]
    deliver. *)
Fixpoint lines_of (s : string) : list string :=
  match s with
  | EmptyString => []
  | String c r =>
      if Ascii.eqb c LF then String c EmptyString :: lines_of r
      else match lines_of r with
           | l :: ls => String c l :: ls
           | [] => [String c EmptyString]
           end
  end.

Definition readlines (content : string) : list string :=
  lines_of (universal_newlines content).

End TextIO.

(** ** The file system and the exceptions of file operations *)

Inductive exn : Type :=
  | FileNotFoundError (path : string)
  | FileExistsError (path : string)
  | NotADirectoryError (path : string)
  | UnicodeDecodeError (msg : string)
  | SameFileError (src dst : string)
  | ValueError (msg : string)
  | AttributeError (msg : string)
  | DuplicateSectionError (section : string)
  | NoSectionError (section : string)
  | ParsingError (msg : string).

(** [str(e)] *)
Definition str_exn (e : exn) : string :=
  match e with
  | FileNotFoundError p => "[Errno 2] No such file or directory: '" +:+ p +:+ "'"
  | FileExistsError p => "[Errno 17] File exists: '" +:+ p +:+ "'"
  | NotADirectoryError p => "[Errno 20] Not a directory: '" +:+ p +:+ "'"
  | UnicodeDecodeError m => m
  | SameFileError s d => "'" +:+ s +:+ "' and '" +:+ d +:+ "' are the same file"
  | ValueError m => m
  | AttributeError m => m
  | DuplicateSectionError s => "Section '" +:+ s +:+ "' already exists"
  | NoSectionError s => "No section: '" +:+ s +:+ "'"
  | ParsingError m => m
  end.

(** What decoding makes of a file whose bytes are not valid UTF-8.  The
    message and the lines delivered before the failure depend on whether
    the faulty sequence is cut off by the end of the file, so they are given
    twice: for the file as it stands, and for the file once text has been
    appended to it. *)
Record undecodable : Type := mkUndecodable {
  replaced : string;           (* the text that [errors='replace'] gives *)
  reason : string;             (* [str(e)] of the UnicodeDecodeError of a
                                  strict read *)
  delivered : list string;     (* the lines that strict iteration hands to
                                  the loop before it raises *)
  reason_extended : string;    (* [reason], once text has been appended *)
  delivered_extended : list string  (* [delivered], likewise *)
}.

(** The content of a regular file: the text that its bytes encode, or what
    is known of bytes that encode none. *)
Inductive content : Type :=
  | Text (text : string)
  | Undecodable (u : undecodable).

Record FS : Type := mkFS {
  files : gmap string content;  (* path -> content of the regular file *)
  modes : gmap string N         (* path -> permission bits, where known *)
}.

(** A computation over a mutable state [S] that may raise: the result is
    the exception or the value, and the state as the computation left it
    (what was written before an exception stays written). *)
Definition M (S A : Type) : Type := S -> (exn + A) * S.

Definition ret {S A} (a : A) : M S A := fun s => (inr a, s).
Definition raise {S A} (e : exn) : M S A := fun s => (inl e, s).
Definition bind {S A B} (m : M S A) (k : A -> M S B) : M S B :=
  fun s => match m s with
           | (inl e, s') => (inl e, s')
           | (inr a, s') => k a s'
           end.
(** [try: body except Exception as e: handler(e)] *)
Definition try_except {S A} (body : M S A) (handler : exn -> M S A) : M S A :=
  fun s => match body s with
           | (inl e, s') => handler e s'
           | (inr a, s') => (inr a, s')
           end.

(** Computations on the file system. *)
Definition IO (A : Type) : Type := M FS A.

Declare Scope io_scope.
Delimit Scope io_scope with io.
Notation "x <- m ;; k" := (bind m (fun x => k))
  (at level 100, m at next level, right associativity) : io_scope.
Notation "m ;;; k" := (bind m (fun _ => k))
  (at level 100, right associativity) : io_scope.
Local Open Scope io_scope.

Module Os.

(** [os.path.isfile] *)
Definition isfile (path : string) : IO bool :=
  fun fs => (inr (bool_decide (is_Some (files fs !! path))), fs).

(** Decoding with [errors='replace']. *)
Definition text_of (c : content) : string :=
  match c with
  | Text s => s
  | Undecodable u => replaced u
  end.

(** The file after [s] has been written at its end. *)
Definition extended (c : content) (s : string) : content :=
  match c with
  | Text t => Text (t +:+ s)
  | Undecodable u =>
      Undecodable
        (mkUndecodable (replaced u +:+ s) (reason_extended u)
           (delivered_extended u) (reason_extended u) (delivered_extended u))
  end.

(** [open(path, 'r')] followed by [read()] or [readlines()], before newline
    translation: decoding is strict. *)
Definition read (path : string) : IO string :=
  fun fs => match files fs !! path with
            | Some (Text s) => (inr s, fs)
            | Some (Undecodable u) => (inl (UnicodeDecodeError (reason u)), fs)
            | None => (inl (FileNotFoundError path), fs)
            end.

(** [open(path, 'r', encoding='utf-8', errors='replace')] followed by
    [read()], before newline translation. *)
Definition read_replace (path : string) : IO string :=
  fun fs => match files fs !! path with
            | Some c => (inr (text_of c), fs)
            | None => (inl (FileNotFoundError path), fs)
            end.

(** [for line in open(path, 'r')]: the lines that the loop body is run on,
    and the exception that ends the loop, if any. *)
Definition iterate (path : string) : IO (list string * option exn) :=
  fun fs => match files fs !! path with
            | Some (Text s) => (inr (TextIO.readlines s, None), fs)
            | Some (Undecodable u) =>
                (inr (delivered u, Some (UnicodeDecodeError (reason u))), fs)
            | None => (inl (FileNotFoundError path), fs)
            end.

(** [open(path, 'w')] followed by the writes that make up [content]. *)
Definition write (path content : string) : IO unit :=
  fun fs => (inr tt, mkFS (<[path := Text content]> (files fs)) (modes fs)).

(** [open(path, 'a')] followed by the writes that make up [content]. *)
Definition append (path content : string) : IO unit :=
  fun fs => (inr tt,
             mkFS (<[path := extended (default (Text "") (files fs !! path))
                               content]> (files fs))
                  (modes fs)).

(** [os.chmod] *)
Definition chmod (path : string) (mode : N) : IO unit :=
  fun fs => match files fs !! path with
            | Some _ => (inr tt, mkFS (files fs) (<[path := mode]> (modes fs)))
            | None => (inl (FileNotFoundError path), fs)
            end.

(** [shutil.copy2]: content and permission bits. *)
Definition copy2 (src dst : string) : IO unit :=
  fun fs => match files fs !! src with
            | None => (inl (FileNotFoundError src), fs)
            | Some c =>
                if decide (src = dst) then (inl (SameFileError src dst), fs)
                else (inr tt,
                      mkFS (<[dst := c]> (files fs))
                           (match modes fs !! src with
                            | Some m => <[dst := m]> (modes fs)
                            | None => delete dst (modes fs)
                            end))
            end.

(** The parts of [PurePosixPath(p)]: the components between slashes other
    than the empty one and the dot. *)
Definition parts (p : string) : list string :=
  List.filter (fun c => negb (String.eqb c "" || String.eqb c "."))
    (Str.split_on "/"%char p).

(** Its root: two slashes at the start, not three, are kept as they are. *)
Definition root (p : string) : string :=
  if Str.startswith "//" p && negb (Str.startswith "///" p) then "//"
  else if Str.startswith "/" p then "/"
  else "".

(** ['/'.join(ls)] *)
Fixpoint join_sep (ls : list string) : string :=
  match ls with
  | [] => ""
  | [l] => l
  | l :: r => l +:+ "/" +:+ join_sep r
  end.

(** [str(Path(p))] *)
Definition path_str (p : string) : string :=
  let s := root p +:+ join_sep (parts p) in
  if String.eqb s "" then "." else s.

(** The paths of the directories above [Path(p)], below its root. *)
Definition ancestors (p : string) : list string :=
  map (fun k => root p +:+ join_sep (take k (parts p)))
    (seq 1 (length (parts p) - 1)).

Definition is_file (fs : FS) (path : string) : bool :=
  bool_decide (is_Some (files fs !! path)).

(** [Path(p).mkdir(parents=True, exist_ok=True)]: directories are not part
    of the state; the call raises when [p] is a regular file, and when a
    directory above it is one. *)
Definition mkdir (path : string) : IO unit :=
  fun fs =>
    if is_file fs (path_str path)
    then (inl (FileExistsError (path_str path)), fs)
    else if existsb (is_file fs) (ancestors path)
    then (inl (NotADirectoryError (path_str path)), fs)
    else (inr tt, fs).

Definition endswith_sep (s : string) : bool :=
  Str.startswith "/" (String.rev s).

(** [os.path.join(a, b)] *)
Definition path_join (a b : string) : string :=
  if Str.startswith "/" b then b
  else if String.eqb a "" || endswith_sep a then a +:+ b
  else a +:+ "/" +:+ b.

End Os.

(** ** [datetime] *)

Record datetime : Type := mkDatetime {
  year : N; month : N; day : N;
  hour : N; minute : N; second : N; microsecond : N
}.

Module Datetime.

Definition digit (n : N) : ascii := ascii_of_N (48 + n mod 10).
Definition d2 (n : N) : string :=
  String (digit (n / 10)) (String (digit n) "").
Definition d4 (n : N) : string := d2 (n / 100) +:+ d2 n.
Definition d6 (n : N) : string := d2 (n / 10000) +:+ d4 n.

(** [now.strftime("%Y%m%d_%H%M%S")] *)
Definition strftime_stamp (t : datetime) : string :=
  d4 (year t) +:+ d2 (month t) +:+ d2 (day t) +:+ "_" +:+
  d2 (hour t) +:+ d2 (minute t) +:+ d2 (second t).

(** [str(now)]: ISO date, a space, the time, and the microseconds unless
    they are zero. *)
Definition str (t : datetime) : string :=
  d4 (year t) +:+ "-" +:+ d2 (month t) +:+ "-" +:+ d2 (day t) +:+ " " +:+
  d2 (hour t) +:+ ":" +:+ d2 (minute t) +:+ ":" +:+ d2 (second t) +:+
  (if (microsecond t =? 0)%N then "" else "." +:+ d6 (microsecond t)).

End Datetime.

(** ** Constants and data models *)

Definition SMB_CONF : string := "/etc/samba/smb.conf".
Definition BACKUP_DIR : string := "/etc/samba/backups".
Definition FSTAB : string := "/etc/fstab".
Definition PROC_MOUNTS : string := "/proc/mounts".

(** The fields annotated [str] that [get_shares] fills from the parser hold
    what [ConfigParser.get] returns, which is [None] for a key without
    value. *)
Record SambaShare : Type := mkSambaShare {
  name : string;
  path : option string;
  comment : option string;
  writable : bool;
  browseable : bool;
  guest_ok : bool;
  valid_users : option string;
  create_mask : option string;
  directory_mask : option string
}.

Record CifsMount : Type := mkCifsMount {
  remote : string;
  mountpoint : string;
  fstype : string;
  options : string;
  credentials_file : option string;
  is_mounted : bool
}.

(** ** MountManager *)

Module MountManager.
Import Str TextIO.

(** The tuple of type tags tested in [get_active_mounts] and
    [get_fstab_mounts]. *)
Definition NET_FS : list string := ["cifs"; "smb"; "smb3"; "smb2"; "smbfs"].

Definition PROVENANCE : string := "# Added by Samba Control Center".

(** The loop of [get_active_mounts] over the lines of /proc/mounts. *)
Fixpoint active_of_lines (lines : list string) (active : gset string)
  : gset string :=
  match lines with
  | [] => active
  | line :: rest =>
      let parts := split line in
      if (3 <=? length parts)%nat && mem (lower (parts !!! 2%nat)) NET_FS
      then active_of_lines rest ({[ parts !!! 1%nat ]} ∪ active)
      else active_of_lines rest active
  end.

(** [get_active_mounts]: an exception that ends the loop leaves [active]
    as the lines before it made it. *)
Definition get_active_mounts : IO (gset string) :=
  try_except
    (r <- Os.iterate PROC_MOUNTS ;; ret (active_of_lines (fst r) ∅))
    (fun _ => ret ∅).

(** The inner loop over [parts[3].split(',')], up to its [break]. *)
Fixpoint find_credentials (opts : list string) : option string :=
  match opts with
  | [] => None
  | opt :: rest =>
      if startswith "credentials=" opt
      then Some (split_once "=" opt !!! 1%nat)
      else find_credentials rest
  end.

(** One iteration of the loop of [get_fstab_mounts]: the mount appended for
    this line, if any. *)
Definition parse_fstab_line (active : gset string) (line : string)
  : option CifsMount :=
  let line := strip line in
  if String.eqb line "" || startswith "#" line then None
  else
    let parts := split line in
    if (4 <=? length parts)%nat && mem (lower (parts !!! 2%nat)) NET_FS
    then
      let creds_file :=
        if contains "credentials=" (parts !!! 3%nat)
        then find_credentials (split_on "," (parts !!! 3%nat))
        else None in
      Some (mkCifsMount (parts !!! 0%nat) (parts !!! 1%nat) (parts !!! 2%nat)
              (parts !!! 3%nat) creds_file
              (bool_decide (parts !!! 1%nat ∈ active)))
    else None.

Definition mounts_of_lines (active : gset string) (lines : list string)
  : list CifsMount :=
  omap (parse_fstab_line active) lines.

Definition get_fstab_mounts : IO (list CifsMount) :=
  active <- get_active_mounts ;;
  try_except
    (c <- Os.read_replace FSTAB ;;
     ret (mounts_of_lines active (readlines c)))
    (fun _ => ret []).

Section WithGlobals.

(** The module global CREDENTIALS_DIR, which [ensure_directories] may
    rebind at start-up. *)
Variable CREDENTIALS_DIR : string.

Definition creds_path (mountpoint : string) : string :=
  Os.path_join CREDENTIALS_DIR
    ("creds_" +:+ replace_char "/" "_" mountpoint +:+ ".txt").

(** The option string after the credentials step of [add_mount]. *)
Definition with_credentials (mountpoint username password options : string)
  : string :=
  if negb (String.eqb username "") && negb (String.eqb password "") then
    if negb (String.eqb options "")
    then options +:+ ",credentials=" +:+ creds_path mountpoint
    else "credentials=" +:+ creds_path mountpoint
  else options.

(** The option string after the defaults step of [add_mount]. *)
Definition with_defaults (options : string) : string :=
  if String.eqb options "" then "_netdev,nofail"
  else if negb (contains "_netdev" options)
       then options +:+ ",_netdev,nofail"
       else options.

(** The mode [0o600]: read and write for the owner, nothing else. *)
Definition MODE_0600 : N := 384.

Definition TAB : string := String "009"%char "".
Definition NL : string := String LF "".

Definition provenance_line (now : datetime) : string :=
  PROVENANCE +:+ " - " +:+ Datetime.str now.

Definition fstab_line (remote mountpoint fstype options : string) : string :=
  remote +:+ TAB +:+ mountpoint +:+ TAB +:+ fstype +:+ TAB +:+ options
  +:+ TAB +:+ "0 0".

(** [add_mount]; [now] is the clock reading of [datetime.now()]. *)
Definition add_mount (now : datetime)
    (remote mountpoint fstype username password options : string)
  : IO (bool * string) :=
  try_except
    (Os.mkdir mountpoint ;;;
     (if negb (String.eqb username "") && negb (String.eqb password "") then
        Os.write (creds_path mountpoint)
          ("username=" +:+ username +:+ NL +:+ "password=" +:+ password +:+ NL) ;;;
        Os.chmod (creds_path mountpoint) MODE_0600
      else ret tt) ;;;
     let options :=
       with_defaults (with_credentials mountpoint username password options) in
     Os.copy2 FSTAB (FSTAB +:+ ".bak") ;;;
     Os.append FSTAB
       (NL +:+ provenance_line now +:+ NL +:+
        fstab_line remote mountpoint fstype options +:+ NL) ;;;
     ret (true, "Mount added successfully"))
    (fun e => ret (false, "Error adding mount: " +:+ str_exn e)).

End WithGlobals.

(** The body of the [for line in lines] loop of [delete_mount]: the lines
    handed to [f.write], in order. *)
Fixpoint delete_loop (mountpoint : string) (skip_next_comment : bool)
    (lines : list string) : list string :=
  match lines with
  | [] => []
  | line :: rest =>
      if contains mountpoint line && negb (startswith "#" (strip line))
      then delete_loop mountpoint true rest
      else if skip_next_comment && startswith PROVENANCE (strip line)
      then delete_loop mountpoint false rest
      else line :: delete_loop mountpoint skip_next_comment rest
  end.

Definition delete_mount (mountpoint : string) : IO (bool * string) :=
  try_except
    (Os.copy2 FSTAB (FSTAB +:+ ".bak") ;;;
     c <- Os.read FSTAB ;;
     let lines := readlines c in
     Os.write FSTAB (join (delete_loop mountpoint false lines)) ;;;
     ret (true, "Mount removed from fstab"))
    (fun e => ret (false, "Error removing mount: " +:+ str_exn e)).

End MountManager.

(** ** [configparser.ConfigParser] as [SambaConfig.load] builds it:
    [allow_no_value=True], [strict=False], [interpolation=None] *)

Module ConfigParser.
Import Str.

(** A Python [dict] with string keys, in insertion order. *)
Section Dict.
Context {V : Type}.

Fixpoint dict_get (k : string) (d : list (string * V)) : option V :=
  match d with
  | [] => None
  | (k', v) :: r => if String.eqb k k' then Some v else dict_get k r
  end.

(** [d[k] = v]: an existing key keeps its place. *)
Fixpoint dict_set (k : string) (v : V) (d : list (string * V))
  : list (string * V) :=
  match d with
  | [] => [(k, v)]
  | (k', v') :: r =>
      if String.eqb k k' then (k', v) :: r else (k', v') :: dict_set k v r
  end.

Fixpoint dict_del (k : string) (d : list (string * V)) : list (string * V) :=
  match d with
  | [] => []
  | (k', v') :: r => if String.eqb k k' then r else (k', v') :: dict_del k r
  end.

End Dict.

(** An option value is a string, or [None] for a key written without a
    delimiter. *)
Definition optdict : Type := list (string * option string).

Record t : Type := mk {
  defaults : optdict;                 (* the DEFAULT section *)
  sects : list (string * optdict)     (* [_sections] *)
}.

Definition DEFAULTSECT : string := "DEFAULT".

Definition empty : t := mk [] [].

Definition sections (p : t) : list string := map fst (sects p).

Definition has_section (section : string) (p : t) : bool :=
  mem section (sections p).

Definition add_section (section : string) (p : t) : exn + t :=
  if String.eqb section DEFAULTSECT
  then inl (ValueError ("Invalid section name: '" +:+ section +:+ "'"))
  else if has_section section p then inl (DuplicateSectionError section)
  else inr (mk (defaults p) (sects p ++ [(section, [])])).

(** [optionxform] *)
Definition optionxform (key : string) : string := lower key.

Definition set (section key : string) (value : option string) (p : t)
  : exn + t :=
  if String.eqb section "" || String.eqb section DEFAULTSECT
  then inr (mk (dict_set (optionxform key) value (defaults p)) (sects p))
  else match dict_get section (sects p) with
       | None => inl (NoSectionError section)
       | Some d =>
           inr (mk (defaults p)
                  (dict_set section (dict_set (optionxform key) value d)
                     (sects p)))
       end.

(** [get(section, key, fallback=fb)]: the section's own keys first, then
    those of DEFAULT; the result is Python's [None] for a key without
    value. *)
Definition get (section key fallback : string) (p : t) : option string :=
  let lookup (d : optdict) :=
    match dict_get (optionxform key) d with
    | Some v => v
    | None =>
        match dict_get (optionxform key) (defaults p) with
        | Some v => v
        | None => Some fallback
        end
    end in
  match dict_get section (sects p) with
  | Some d => lookup d
  | None => if String.eqb section DEFAULTSECT then lookup [] else Some fallback
  end.

Definition remove_section (section : string) (p : t) : bool * t :=
  (has_section section p, mk (defaults p) (dict_del section (sects p))).

Definition write_section (section_name : string) (items : optdict) : string :=
  "[" +:+ section_name +:+ "]" +:+ String LF "" +:+
  join (map (fun kv : string * option string =>
               fst kv +:+
               match snd kv with
               | Some v =>
                   " = " +:+ replace_char LF (String LF (String "009"%char "")) v
               | None => ""
               end +:+ String LF "")
          items) +:+
  String LF "".

(** [write(f, space_around_delimiters=True)] *)
Definition write (p : t) : string :=
  (match defaults p with
   | [] => ""
   | _ => write_section DEFAULTSECT (defaults p)
   end) +:+
  join (map (fun s : string * optdict => write_section (fst s) (snd s))
          (sects p)).

End ConfigParser.

(** ** SambaConfig *)

Module SambaConfig.
Import Str.

Record t : Type := mk {
  config_path : string;
  parser : option ConfigParser.t;
  error : option string
}.

(** [__init__] *)
Definition init (config_path : string) : t := mk config_path None None.

(** What a method call can change: the object and the file system. *)
Record world : Type := mkWorld { self : t; fs : FS }.

Definition io {A} (m : IO A) : M world A :=
  fun w => let '(r, fs') := m (fs w) in (r, mkWorld (self w) fs').

Definition get_self : M world t := fun w => (inr (self w), w).

Definition set_parser (p : ConfigParser.t) : M world unit :=
  fun w => (inr tt,
            mkWorld (mk (config_path (self w)) (Some p) (error (self w))) (fs w)).

Definition set_error (msg : string) : M world unit :=
  fun w => (inr tt,
            mkWorld (mk (config_path (self w)) (parser (self w)) (Some msg)) (fs w)).

Definition NONE_HAS_NO (attr : string) : exn :=
  AttributeError ("'NoneType' object has no attribute '" +:+ attr +:+ "'").

(** [self.parser.f(...)] for a method that reads the parser. *)
Definition query {A} (attr : string) (f : ConfigParser.t -> A) : M world A :=
  fun w => match parser (self w) with
           | None => (inl (NONE_HAS_NO attr), w)
           | Some p => (inr (f p), w)
           end.

(** [self.parser.f(...)] for a method that changes the parser in place, or
    raises and leaves it as it was. *)
Definition mutate (attr : string) (f : ConfigParser.t -> exn + ConfigParser.t)
  : M world unit :=
  fun w => match parser (self w) with
           | None => (inl (NONE_HAS_NO attr), w)
           | Some p =>
               match f p with
               | inl e => (inl e, w)
               | inr p' => set_parser p' w
               end
           end.

Definition backup_path (now : datetime) : string :=
  Os.path_join BACKUP_DIR ("smb.conf." +:+ Datetime.strftime_stamp now +:+ ".bak").

(** [create_backup]; [now] is the clock reading of [datetime.now()]. *)
Definition create_backup (now : datetime) : M world (option string) :=
  s <- get_self ;;
  b <- io (Os.isfile (config_path s)) ;;
  if negb b then ret None
  else
    io (Os.copy2 (config_path s) (backup_path now)) ;;;
    ret (Some (backup_path now)).

Definition save (now : datetime) : M world bool :=
  try_except
    (create_backup now ;;;
     s <- get_self ;;
     content <- query "write" ConfigParser.write ;;
     io (Os.write (config_path s) content) ;;;
     ret true)
    (fun e => set_error ("Failed to save config: " +:+ str_exn e) ;;; ret false).

(** [v.lower() == 'yes'] on what [get] returned. *)
Definition is_yes (v : option string) : exn + bool :=
  match v with
  | Some s => inr (String.eqb (lower s) "yes")
  | None => inl (NONE_HAS_NO "lower")
  end.

(** The [SambaShare(...)] built for one section in [get_shares]. *)
Definition share_of_section (p : ConfigParser.t) (section : string)
  : exn + SambaShare :=
  match is_yes (ConfigParser.get section "writable" "yes" p) with
  | inl e => inl e
  | inr w =>
  match is_yes (ConfigParser.get section "browseable" "yes" p) with
  | inl e => inl e
  | inr b =>
  match is_yes (ConfigParser.get section "guest ok" "no" p) with
  | inl e => inl e
  | inr g =>
      inr (mkSambaShare section
             (ConfigParser.get section "path" "" p)
             (ConfigParser.get section "comment" "" p)
             w b g
             (ConfigParser.get section "valid users" "" p)
             (ConfigParser.get section "create mask" "0664" p)
             (ConfigParser.get section "directory mask" "0775" p))
  end end end.

(** The loop of [get_shares] over [self.parser.sections()]. *)
Fixpoint shares_of_sections (p : ConfigParser.t) (sections : list string)
  : exn + list SambaShare :=
  match sections with
  | [] => inr []
  | section :: rest =>
      if negb (String.eqb (lower section) "global") then
        match share_of_section p section with
        | inl e => inl e
        | inr share =>
            match shares_of_sections p rest with
            | inl e => inl e
            | inr shares => inr (share :: shares)
            end
        end
      else shares_of_sections p rest
  end.

(** Python's truth value of an [str] that may be [None]. *)
Definition truthy (v : option string) : bool :=
  match v with
  | Some s => negb (String.eqb s "")
  | None => false
  end.

Definition yes_no (b : bool) : option string :=
  Some (if b then "yes" else "no").

Section WithParser.

(** [ConfigParser.read_file] on the content of the file: the exception it
    raised, if any, and the parser as the call left it. *)
Variable read_file : string -> option exn * ConfigParser.t.

Definition load : M world bool :=
  try_except
    (set_parser ConfigParser.empty ;;;
     s <- get_self ;;
     b <- io (Os.isfile (config_path s)) ;;
     if b then
       c <- io (Os.read_replace (config_path s)) ;;
       set_parser (snd (read_file c)) ;;;
       match fst (read_file c) with
       | Some e => raise e
       | None => ret true
       end
     else
       set_error ("Config file not found: " +:+ config_path s) ;;;
       ret false)
    (fun e => set_error ("Failed to load config: " +:+ str_exn e) ;;; ret false).

(** [if not self.parser: self.load()]; a [ConfigParser] is never false. *)
Definition ensure_loaded : M world unit :=
  s <- get_self ;;
  match parser s with
  | None => load ;;; ret tt
  | Some _ => ret tt
  end.

Definition get_shares : M world (list SambaShare) :=
  ensure_loaded ;;;
  r <- query "sections"
         (fun p => shares_of_sections p (ConfigParser.sections p)) ;;
  match r with
  | inl e => raise e
  | inr shares => ret shares
  end.

Definition add_share (now : datetime) (share : SambaShare) : M world bool :=
  ensure_loaded ;;;
  try_except
    (exists_ <- query "has_section" (ConfigParser.has_section (name share)) ;;
     if exists_ : bool then
       set_error ("Share '" +:+ name share +:+ "' already exists") ;;;
       ret false
     else
       mutate "add_section" (ConfigParser.add_section (name share)) ;;;
       mutate "set" (ConfigParser.set (name share) "path" (path share)) ;;;
       mutate "set" (ConfigParser.set (name share) "writable"
                       (yes_no (writable share))) ;;;
       mutate "set" (ConfigParser.set (name share) "browseable"
                       (yes_no (browseable share))) ;;;
       mutate "set" (ConfigParser.set (name share) "guest ok"
                       (yes_no (guest_ok share))) ;;;
       (if truthy (comment share)
        then mutate "set" (ConfigParser.set (name share) "comment" (comment share))
        else ret tt) ;;;
       (if truthy (valid_users share)
        then mutate "set" (ConfigParser.set (name share) "valid users"
                             (valid_users share))
        else ret tt) ;;;
       mutate "set" (ConfigParser.set (name share) "create mask"
                       (create_mask share)) ;;;
       mutate "set" (ConfigParser.set (name share) "directory mask"
                       (directory_mask share)) ;;;
       save now)
    (fun e => set_error ("Failed to add share: " +:+ str_exn e) ;;; ret false).

Definition delete_share (now : datetime) (share_name : string) : M world bool :=
  ensure_loaded ;;;
  try_except
    (exists_ <- query "has_section" (ConfigParser.has_section share_name) ;;
     if negb exists_ then
       set_error ("Share '" +:+ share_name +:+ "' not found") ;;;
       ret false
     else
       mutate "remove_section"
         (fun p => inr (snd (ConfigParser.remove_section share_name p))) ;;;
       save now)
    (fun e => set_error ("Failed to delete share: " +:+ str_exn e) ;;; ret false).

End WithParser.

End SambaConfig.


(** ** External commands *)

(** [subprocess.CompletedProcess]: exit status and, as text, the two
    streams. *)
Record CompletedProcess : Type := mkCompletedProcess {
  returncode : Z;
  stdout : string;
  stderr : string
}.

Module Subprocess.

(** A command line, as the argument list given to [subprocess.run]. *)
Definition cmd : Type := list string.

(** What a command does is not part of the program: [run history c] is the
    outcome of [subprocess.run(c, ...)] after the commands of [history],
    an exception when the program cannot be started. *)
Definition oracle : Type := list cmd → cmd → exn + CompletedProcess.

(** [subprocess.run(c, capture_output=True, check=False)]: the state is the
    list of the commands run so far. *)
Definition run (o : oracle) (c : cmd) : M (list cmd) CompletedProcess :=
  fun history => (o history c, (history ++ [c])%list).

End Subprocess.

Record SambaUser : Type := mkSambaUser {
  username : string;
  is_enabled : bool;
  unix_user_exists : bool
}.

(** ** SambaUserManager *)

Module SambaUserManager.
Import Str Subprocess.

(** The loop of [get_users] over the lines of [pdbedit -L -v];
    [current_user] is the user whose flags are awaited. *)
Fixpoint users_of_verbose (current_user : option SambaUser)
    (lines : list string) : list SambaUser :=
  match lines with
  | [] => []
  | line :: rest =>
      if startswith "Unix username:" line then
        users_of_verbose
          (Some (mkSambaUser (strip (split_once ":" line !!! 1%nat)) true false))
          rest
      else
        match current_user with
        | Some user =>
            if startswith "Account Flags:" line then
              let flags := strip (split_once ":" line !!! 1%nat) in
              mkSambaUser (username user) (negb (contains "D" flags))
                (unix_user_exists user)
              :: users_of_verbose None rest
            else users_of_verbose current_user rest
        | None => users_of_verbose current_user rest
        end
  end.

(** The loop of [get_users] over the lines of [pdbedit -L]. *)
Fixpoint users_of_list (lines : list string) : list SambaUser :=
  match lines with
  | [] => []
  | line :: rest =>
      if contains ":" line then
        let username := strip (split_on ":" line !!! 0%nat) in
        if negb (String.eqb username "")
        then mkSambaUser username true false :: users_of_list rest
        else users_of_list rest
      else users_of_list rest
  end.

Section WithOracle.

Variable o : oracle.

Definition get_users : M (list cmd) (list SambaUser) :=
  try_except
    (result <- run o ["pdbedit"; "-L"; "-v"] ;;
     if (returncode result =? 0)%Z && negb (String.eqb (stdout result) "")
     then ret (users_of_verbose None (split_on LF (stdout result)))
     else
       result2 <- run o ["pdbedit"; "-L"] ;;
       if (returncode result2 =? 0)%Z && negb (String.eqb (stdout result2) "")
       then ret (users_of_list (split_on LF (strip (stdout result2))))
       else ret [])
    (fun _ => ret []).

Definition DQUOTE : string := String (ascii_of_N 34) "".

(** The shell command line that [add_user] hands to [bash -c]; the two
    characters backslash and n stand between the two copies of the
    password. *)
Definition smbpasswd_line (username password : string) : string :=
  "echo -e " +:+ DQUOTE +:+ password +:+ "\n" +:+ password +:+ DQUOTE
  +:+ " | smbpasswd -a -s " +:+ username.

(** The last part of [add_user], under its comment "Add to Samba". *)
Definition add_to_samba (username password : string)
  : M (list cmd) (bool * string) :=
  result <- run o ["bash"; "-c"; smbpasswd_line username password] ;;
  if (returncode result =? 0)%Z
  then ret (true, "User '" +:+ username +:+ "' added successfully")
  else ret (false, "Failed to add Samba user: " +:+ stderr result).

Definition add_user (username password : string)
  : M (list cmd) (bool * string) :=
  try_except
    (result <- run o ["id"; username] ;;
     if negb (returncode result =? 0)%Z then
       result <- run o ["useradd"; "-M"; "-s"; "/usr/sbin/nologin"; username] ;;
       if negb (returncode result =? 0)%Z
       then ret (false, "Failed to create Unix user: " +:+ stderr result)
       else add_to_samba username password
     else add_to_samba username password)
    (fun e => ret (false, "Error adding user: " +:+ str_exn e)).

Definition delete_user (username : string) : M (list cmd) (bool * string) :=
  try_except
    (result <- run o ["smbpasswd"; "-x"; username] ;;
     if (returncode result =? 0)%Z
     then ret (true, "User '" +:+ username +:+ "' deleted successfully")
     else ret (false, "Failed to delete user: " +:+ stderr result))
    (fun e => ret (false, "Error deleting user: " +:+ str_exn e)).

End WithOracle.

End SambaUserManager.


(** ** Commands that also look at the file system *)

(** The machine as a request sees it: the files and the commands run so
    far. *)
Record Host : Type := mkHost { host_fs : FS; host_history : list Subprocess.cmd }.

Definition on_fs {A} (m : IO A) : M Host A :=
  fun h => let '(r, fs') := m (host_fs h) in (r, mkHost fs' (host_history h)).

Definition on_commands {A} (m : M (list Subprocess.cmd) A) : M Host A :=
  fun h => let '(r, hist') := m (host_history h) in (r, mkHost (host_fs h) hist').

Module MountCommands.
Import Str Subprocess.

Section WithOracle.

Variable o : oracle.

(** [MountManager.mount] *)
Definition mount (mountpoint : string) : M Host (bool * string) :=
  try_except
    (on_fs (Os.mkdir mountpoint) ;;;
     result <- on_commands (run o ["mount"; mountpoint]) ;;
     if (returncode result =? 0)%Z
     then ret (true, "Successfully mounted " +:+ mountpoint)
     else ret (false, "Mount failed: " +:+ stderr result))
    (fun e => ret (false, "Error mounting: " +:+ str_exn e)).

(** [MountManager.umount] *)
Definition umount (mountpoint : string) : M Host (bool * string) :=
  try_except
    (result <- on_commands (run o ["umount"; mountpoint]) ;;
     if (returncode result =? 0)%Z
     then ret (true, "Successfully unmounted " +:+ mountpoint)
     else ret (false, "Unmount failed: " +:+ stderr result))
    (fun e => ret (false, "Error unmounting: " +:+ str_exn e)).

End WithOracle.

End MountCommands.

(** ** SystemManager *)

Record SystemInfo : Type := mkSystemInfo {
  hostname : string;
  current_time : string;
  smbd_running : bool
}.

Module SystemManager.
Import Str Subprocess.

(** [now.strftime('%Y-%m-%d %H:%M:%S')] *)
Definition strftime_seconds (t : datetime) : string :=
  Datetime.d4 (year t) +:+ "-" +:+ Datetime.d2 (month t) +:+ "-" +:+
  Datetime.d2 (day t) +:+ " " +:+ Datetime.d2 (hour t) +:+ ":" +:+
  Datetime.d2 (minute t) +:+ ":" +:+ Datetime.d2 (second t).

Section WithOracle.

Variable o : oracle.

(** [get_system_info]; an exception keeps what the dictionary holds by
    then. *)
Definition get_system_info (now : datetime) : M (list cmd) SystemInfo :=
  let t := strftime_seconds now in
  try_except
    (result <- run o ["hostname"] ;;
     let h := if (returncode result =? 0)%Z then strip (stdout result)
              else "localhost" in
     try_except
       (result <- run o ["systemctl"; "is-active"; "smbd"] ;;
        ret (mkSystemInfo h t (returncode result =? 0)%Z))
       (fun _ => ret (mkSystemInfo h t false)))
    (fun _ => ret (mkSystemInfo "localhost" t false)).

Definition restart_smbd : M (list cmd) (bool * string) :=
  try_except
    (result <- run o ["systemctl"; "restart"; "smbd"] ;;
     if (returncode result =? 0)%Z
     then ret (true, "Samba service restarted successfully")
     else ret (false, "Failed to restart: " +:+ stderr result))
    (fun e => ret (false, "Error restarting service: " +:+ str_exn e)).

Definition test_config : M (list cmd) (bool * string) :=
  try_except
    (result <- run o ["testparm"; "-s"] ;;
     if (returncode result =? 0)%Z
     then ret (true, "Configuration is valid")
     else ret (false, "Configuration errors:" +:+ String Str.LF "" +:+ stderr result))
    (fun e => ret (false, "Error testing config: " +:+ str_exn e)).

End WithOracle.

End SystemManager.


(** ** The request handler [index] *)

(** What the template is rendered from. *)
Record PageContext : Type := mkPageContext {
  page_shares : list SambaShare;
  page_users : list SambaUser;
  page_mounts : list CifsMount;
  page_system_info : SystemInfo;
  stat_shares : nat;
  stat_users : nat;
  stat_fstab_mounts : nat;
  stat_active_mounts : nat;
  page_config_content : string
}.

Inductive Response : Type :=
  | Redirect                      (* [redirect(url_for('index'))] *)
  | Page (context : PageContext). (* [render_template_string(...)] *)

Module App.
Import Str TextIO Subprocess.

(** The state of a request: the [SambaConfig] object it makes, the
    machine, and the messages flashed, each with its category. *)
Record t : Type := mk {
  cfg : SambaConfig.t;
  host : Host;
  flashes : list (string * string)
}.

Definition on_config {A} (m : M SambaConfig.world A) : M t A :=
  fun a =>
    let '(r, w') := m (SambaConfig.mkWorld (cfg a) (host_fs (host a))) in
    (r, mk (SambaConfig.self w')
          (mkHost (SambaConfig.fs w') (host_history (host a)))
          (flashes a)).

Definition on_host {A} (m : M Host A) : M t A :=
  fun a => let '(r, h') := m (host a) in (r, mk (cfg a) h' (flashes a)).

(** [flash(message, category)] *)
Definition flash (message category : string) : M t unit :=
  fun a => (inr tt, mk (cfg a) (host a) (flashes a ++ [(message, category)])%list).

(** [flash(message, 'success' if success else 'danger')] *)
Definition flash_result (r : bool * string) : M t unit :=
  flash (snd r) (if fst r then "success" else "danger").

(** [request.form.get(key, default)] *)
Definition form_get (form : gmap string string) (key dflt : string) : string :=
  default dflt (form !! key).

(** [samba_config.get_config_content] *)
Definition get_config_content : M SambaConfig.world string :=
  s <- SambaConfig.get_self ;;
  try_except
    (c <- SambaConfig.io (Os.read_replace (SambaConfig.config_path s)) ;;
     ret (universal_newlines c))
    (fun e => ret ("Error reading config: " +:+ str_exn e)).

(** [samba_config.error or fallback] *)
Definition error_or (fallback : string) : M t string :=
  fun a => (inr (match SambaConfig.error (cfg a) with
                 | Some e => if String.eqb e "" then fallback else e
                 | None => fallback
                 end), a).

Section WithEnvironment.

Variable CREDENTIALS_DIR : string.
Variable read_file : string → option exn * ConfigParser.t.
Variable o : oracle.

(** The branch of [index] for one action; [now] is the clock reading of the
    one call of [datetime.now()] that the action may make. *)
Definition apply_action (now : datetime) (form : gmap string string)
  : M t unit :=
  let action := form_get form "action" "" in
  if String.eqb action "add_share" then
    let share :=
      mkSambaShare (strip (form_get form "share_name" ""))
        (Some (strip (form_get form "path" "")))
        (Some (strip (form_get form "comment" "")))
        (String.eqb (form_get form "writable" "yes") "yes")
        true
        (String.eqb (form_get form "guest_ok" "no") "yes")
        (Some (strip (form_get form "valid_users" "")))
        (Some "0664") (Some "0775") in
    if String.eqb (name share) "" || String.eqb (strip (form_get form "path" "")) ""
    then flash "Share name and path are required" "danger"
    else
      failed <- try_except
                  (on_host (on_fs (Os.mkdir (strip (form_get form "path" "")))) ;;;
                   ret None)
                  (fun e => ret (Some e)) ;;
      match failed with
      | Some e => flash ("Failed to create directory: " +:+ str_exn e) "danger"
      | None =>
          ok <- on_config (SambaConfig.add_share read_file now share) ;;
          if ok : bool
          then flash ("Share [" +:+ name share +:+ "] added successfully")
                 "success"
          else msg <- error_or "Failed to add share" ;; flash msg "danger"
      end
  else if String.eqb action "delete_share" then
    let share_name := strip (form_get form "share_name" "") in
    ok <- on_config (SambaConfig.delete_share read_file now share_name) ;;
    if ok : bool
    then flash ("Share [" +:+ share_name +:+ "] deleted successfully") "success"
    else msg <- error_or "Failed to delete share" ;; flash msg "danger"
  else if String.eqb action "add_user" then
    let username := strip (form_get form "username" "") in
    let password := strip (form_get form "password" "") in
    let password2 := strip (form_get form "password2" "") in
    if String.eqb username "" || String.eqb password ""
    then flash "Username and password are required" "danger"
    else if negb (String.eqb password password2)
    then flash "Passwords do not match" "danger"
    else
      r <- on_host (on_commands (SambaUserManager.add_user o username password)) ;;
      flash_result r
  else if String.eqb action "delete_user" then
    r <- on_host (on_commands
           (SambaUserManager.delete_user o (strip (form_get form "username" "")))) ;;
    flash_result r
  else if String.eqb action "add_mount" then
    let remote := strip (form_get form "remote" "") in
    let mountpoint := strip (form_get form "mountpoint" "") in
    let fstype := strip (form_get form "fstype" "cifs") in
    let username := strip (form_get form "mount_username" "") in
    let password := strip (form_get form "mount_password" "") in
    let options := strip (form_get form "options" "") in
    if String.eqb remote "" || String.eqb mountpoint ""
    then flash "Remote path and mount point are required" "danger"
    else
      r <- on_host (on_fs (MountManager.add_mount CREDENTIALS_DIR now
                             remote mountpoint fstype username password options)) ;;
      flash_result r
  else if String.eqb action "delete_mount" then
    r <- on_host (on_fs (MountManager.delete_mount
                           (strip (form_get form "mountpoint" "")))) ;;
    flash_result r
  else if String.eqb action "mount" then
    r <- on_host (MountCommands.mount o (strip (form_get form "mountpoint" ""))) ;;
    flash_result r
  else if String.eqb action "umount" then
    r <- on_host (MountCommands.umount o (strip (form_get form "mountpoint" ""))) ;;
    flash_result r
  else if String.eqb action "apply_mounts" then
    try_except
      (result <- on_host (on_commands (run o ["mount"; "-a"])) ;;
       if (returncode result =? 0)%Z
       then flash "All mounts from /etc/fstab applied successfully! (mount -a)"
              "success"
       else flash ("Some mounts failed:" +:+ String LF "" +:+ stderr result)
              "danger")
      (fun e => flash ("Error applying mounts: " +:+ str_exn e) "danger")
  else if String.eqb action "restart_smbd" then
    r <- on_host (on_commands (SystemManager.restart_smbd o)) ;;
    flash_result r
  else if String.eqb action "backup_config" then
    backup_path <- on_config (SambaConfig.create_backup now) ;;
    match backup_path with
    | Some path => flash ("Configuration backed up to " +:+ path) "success"
    | None => flash "Failed to create backup" "danger"
    end
  else if String.eqb action "test_config" then
    r <- on_host (on_commands (SystemManager.test_config o)) ;;
    flash_result r
  else ret tt.

(** [index]: what every request does first, then the action of a POST or
    the page of a GET.  [now_info] is the clock reading of
    [get_system_info], [now] that of the action. *)
Definition index (now_info now : datetime) (method : string)
    (form : gmap string string) : M t Response :=
  on_config (SambaConfig.load read_file) ;;;
  shares <- on_config (SambaConfig.get_shares read_file) ;;
  users <- on_host (on_commands (SambaUserManager.get_users o)) ;;
  mounts <- on_host (on_fs MountManager.get_fstab_mounts) ;;
  system_info <- on_host (on_commands (SystemManager.get_system_info o now_info)) ;;
  if String.eqb method "POST" then
    apply_action now form ;;;
    ret Redirect
  else
    content <- on_config get_config_content ;;
    ret (Page (mkPageContext shares users mounts system_info
                 (length shares) (length users) (length mounts)
                 (length (List.filter is_mounted mounts))
                 content)).

(** A request starts with a fresh [SambaConfig()]. *)
Definition request (h : Host) (flashes : list (string * string)) : t :=
  mk (SambaConfig.init SMB_CONF) h flashes.

End WithEnvironment.

End App.

(** ** Vocabulary of the properties *)

Module MountSpec.
Import Str TextIO MountManager.

(** The lines that the live mount-status source holds, none when it does
    not exist. *)
Definition live_lines (fs : FS) : list string :=
  match files fs !! PROC_MOUNTS with
  | Some c => readlines (Os.text_of c)
  | None => []
  end.

(** The lines of it that [get_active_mounts] gets to see: all of them when
    the source is valid text, those before the failure when it is not. *)
Definition seen_lines (fs : FS) : list string :=
  match files fs !! PROC_MOUNTS with
  | Some (Text s) => readlines s
  | Some (Undecodable u) => delivered u
  | None => []
  end.

(** The file does not exist or holds valid text. *)
Definition decodable (path : string) (fs : FS) : Prop :=
  ∀ u, files fs !! path ≠ Some (Undecodable u).

(** Field two of [line] is [mp] and field three is a network file system
    tag, compared as the code compares it (lower-cased). *)
Definition shows_mounted (mp line : string) : Prop :=
  ∃ tag : string,
    split line !! 1%nat = Some mp ∧ split line !! 2%nat = Some tag ∧
    mem (lower tag) NET_FS = true.

(** The two lines of a credentials file. *)
Definition creds_text (username password : string) : string :=
  "username=" +:+ username +:+ NL +:+ "password=" +:+ password +:+ NL.

(** What [add_mount] appends to the mount table: a line break, the
    provenance comment and the entry. *)
Definition entry_text (now : datetime) (remote mountpoint fstype options : string)
  : string :=
  NL +:+ provenance_line now +:+ NL +:+
  fstab_line remote mountpoint fstype options +:+ NL.

(** The same text spelled out, character by character where the program
    has a name: a line feed, the comment with the clock reading, a line
    feed, the four fields and the two zeros separated by tabs, with a space
    between the zeros, a line feed. *)
Definition comment_line (now : datetime) : string :=
  "# Added by Samba Control Center - " +:+ Datetime.str now +:+ String LF "".

Definition entry_line (remote mountpoint fstype options : string) : string :=
  remote +:+ String "009"%char "" +:+ mountpoint +:+ String "009"%char ""
  +:+ fstype +:+ String "009"%char "" +:+ options
  +:+ String "009"%char "0 0" +:+ String LF "".

Definition appended_text (now : datetime)
    (remote mountpoint fstype options : string) : string :=
  String LF "" +:+ comment_line now
  +:+ entry_line remote mountpoint fstype options.

(** The path of the credentials file of a mountpoint: slashes become
    underscores, between the prefix and the suffix, in the credentials
    directory. *)
Definition credentials_path (D mountpoint : string) : string :=
  Os.path_join D ("creds_" +:+ replace_char "/"%char "_" mountpoint +:+ ".txt").

(** The option string once the reference to the credentials file has been
    added: after the options given, with a comma, or alone when there are
    none; the options given when there are no credentials. *)
Definition options_with_reference (D mountpoint username password
    options : string) : string :=
  if negb (String.eqb username "") && negb (String.eqb password "")
  then if String.eqb options ""
       then "credentials=" +:+ credentials_path D mountpoint
       else options +:+ ",credentials=" +:+ credentials_path D mountpoint
  else options.

(** Permission bits that let the owner read and write and nobody else do
    anything: of the bits, exactly those of 0400 and 0200 are set. *)
Definition owner_read_write_only (mode : N) : Prop :=
  ∀ i : N, N.testbit mode i = true ↔ i = 8%N ∨ i = 7%N.

(** The mount point can be made: neither its path nor that of a directory
    above it is a regular file. *)
Definition creatable (mountpoint : string) (fs : FS) : Prop :=
  files fs !! Os.path_str mountpoint = None ∧
  ∀ a, a ∈ Os.ancestors mountpoint → files fs !! a = None.

(** [username and password] *)
Definition has_credentials (username password : string) : bool :=
  negb (String.eqb username "") && negb (String.eqb password "").

Definition FSTAB_BAK : string := FSTAB +:+ ".bak".

(** The files after the credentials step of [add_mount]. *)
Definition files_with_creds (D mountpoint username password : string) (fs : FS)
  : gmap string content :=
  if has_credentials username password
  then <[creds_path D mountpoint := Text (creds_text username password)]>
         (files fs)
  else files fs.

(** The last character of a string. *)
Fixpoint last_char (s : string) : option ascii :=
  match s with
  | EmptyString => None
  | String c EmptyString => Some c
  | String _ r => last_char r
  end.

(** Every character of [s] passes the test [P]. *)
Fixpoint all_chars (P : ascii -> bool) (s : string) : bool :=
  match s with
  | EmptyString => true
  | String c r => P c && all_chars P r
  end.

Definition not_lf (c : ascii) : bool := negb (Ascii.eqb c LF).
Definition not_cr (c : ascii) : bool := negb (Ascii.eqb c CR).
Definition not_linebreak (c : ascii) : bool := not_lf c && not_cr c.

(** The text is empty or its last character is a line feed. *)
Definition ends_with_lf (s : string) : Prop :=
  s = "" ∨ last_char s = Some LF.

(** A comment line, as [delete_mount] and [get_fstab_mounts] test it. *)
Definition is_comment (line : string) : bool := startswith "#" (strip line).

(** A non-comment line that contains the mountpoint. *)
Definition matches (mp line : string) : bool :=
  contains mp line && negb (is_comment line).

(** A provenance comment line, as [delete_mount] tests it. *)
Definition is_provenance (line : string) : bool :=
  startswith PROVENANCE (strip line).

(** The rewrite that the specification words describe: a matching line is
    omitted, and so is a provenance comment that comes immediately after an
    omitted matching line; every other line is kept. *)
Fixpoint delete_by_words (mp : string) (after_omitted : bool)
    (lines : list string) : list string :=
  match lines with
  | [] => []
  | line :: rest =>
      if matches mp line then delete_by_words mp true rest
      else if after_omitted && is_provenance line
      then delete_by_words mp false rest
      else line :: delete_by_words mp false rest
  end.

(** The lines of [lines] whose mask bit is set, in order. *)
Fixpoint select (mask : list bool) (lines : list string) : list string :=
  match mask, lines with
  | b :: mask', l :: lines' =>
      if b then l :: select mask' lines' else select mask' lines'
  | _, _ => []
  end.

(** Line [i] is omitted by position: it is a matching line, or it is a
    provenance comment and some matching line before it has no provenance
    comment between the two. *)
Definition omitted (mp : string) (lines : list string) (i : nat) : Prop :=
  ∃ l, lines !! i = Some l ∧
    (matches mp l = true ∨
     (is_provenance l = true ∧
      ∃ j lj, (j < i)%nat ∧ lines !! j = Some lj ∧ matches mp lj = true ∧
        ∀ k lk, (j < k < i)%nat → lines !! k = Some lk → is_provenance lk = false)).

(** The same for a loop entered with the flag [skip]: a provenance comment
    is also omitted when the flag was set on entry and no provenance comment
    comes before it. *)
Definition omitted_from (mp : string) (skip : bool) (lines : list string)
    (i : nat) : Prop :=
  ∃ l, lines !! i = Some l ∧
    (matches mp l = true ∨
     (is_provenance l = true ∧
      ((skip = true ∧
        ∀ k lk, (k < i)%nat → lines !! k = Some lk → is_provenance lk = false) ∨
       ∃ j lj, (j < i)%nat ∧ lines !! j = Some lj ∧ matches mp lj = true ∧
         ∀ k lk, (j < k < i)%nat → lines !! k = Some lk →
                 is_provenance lk = false))).

(** Some line that matches has no provenance comment after it: a
    provenance comment that followed would be omitted. *)
Definition pending (mp : string) (lines : list string) : Prop :=
  ∃ j lj, lines !! j = Some lj ∧ matches mp lj = true ∧
    ∀ k lk, (j < k)%nat → lines !! k = Some lk → is_provenance lk = false.

(** The value of [skip_next_comment] after the loop of [delete_mount] has
    run over [lines]. *)
Fixpoint skip_after (mp : string) (skip : bool) (lines : list string) : bool :=
  match lines with
  | [] => skip
  | line :: rest =>
      if matches mp line then skip_after mp true rest
      else if skip && is_provenance line then skip_after mp false rest
      else skip_after mp skip rest
  end.

(** A line as text mode delivers it from a file that ends its last line:
    a body without line break, then the line feed. *)
Definition proper_line (l : string) : Prop :=
  ∃ body, l = body +:+ NL ∧ all_chars not_linebreak body = true.

Definition non_comment (line : string) : bool := negb (is_comment line).
Definition lacks (mp line : string) : bool := negb (contains mp line).

(** A table with a hand-written entry, another file system, and an entry
    that carries a provenance comment. *)
Definition mixed_table : string :=
  "//srv/a /mnt/x cifs ro 0 0" +:+ NL +:+
  "/dev/sda1 / ext4 defaults 0 1" +:+ NL +:+
  "# Added by Samba Control Center - 2026-01-31 12:00:05" +:+ NL +:+
  "//srv/b /mnt/y cifs ro 0 0" +:+ NL.

(** A table whose line ends with carriage return and line feed. *)
Definition crlf_table : string :=
  "/dev/sda1 / ext4 defaults 0 1" +:+ String CR NL.

(** A table with one local file system. *)
Definition root_table : string := "/dev/sda1 / ext4 defaults 0 1" +:+ NL.

Definition later_now : datetime := mkDatetime 2026 1 31 12 0 9 0.

(** A mount table with one network entry and a live status that shows it
    mounted. *)
Definition mounted_fs : FS :=
  mkFS {[ FSTAB := Text ("//srv/a /mnt/x cifs ro 0 0" +:+ NL);
          PROC_MOUNTS := Text ("//srv/a /mnt/x cifs rw,relatime 0 0" +:+ NL) ]}
    ∅.

(** A live status whose second line holds a byte that is no UTF-8: the
    file is shorter than the block that is decoded at once, so strict
    iteration raises before it delivers a line.  The question mark stands
    for the replacement character. *)
Definition garbled_status : undecodable :=
  mkUndecodable
    ("//srv/a /mnt/x cifs rw,relatime 0 0" +:+ NL +:+
     "//srv/b /mnt/? cifs rw,relatime 0 0" +:+ NL)
    "'utf-8' codec can't decode byte 0xff in position 49: invalid start byte"
    []
    "'utf-8' codec can't decode byte 0xff in position 49: invalid start byte"
    [].

(** The table of [mounted_fs] under that live status. *)
Definition garbled_fs : FS :=
  mkFS {[ FSTAB := Text ("//srv/a /mnt/x cifs ro 0 0" +:+ NL);
          PROC_MOUNTS := Undecodable garbled_status ]} ∅.

Definition example_now : datetime := mkDatetime 2026 1 31 12 0 5 123.
Definition example_fs : FS := mkFS {[ FSTAB := Text "" ]} ∅.

End MountSpec.

Module ConfigSpec.
Import Str ConfigParser SambaConfig MountSpec.

(** [SambaShare(name=..., path=...)] with the defaults of the dataclass. *)
Definition default_share (name path : string) : SambaShare :=
  mkSambaShare name (Some path) (Some "") true true false (Some "")
    (Some "0664") (Some "0775").

(** The section names of the loaded configuration are pairwise distinct. *)
Definition sections_unique (w : world) : Prop :=
  ∀ p, parser (self w) = Some p → NoDup (sections p).

(** The loaded configuration has the sections [names], in this order. *)
Definition has_sections (names : list string) (w : world) : Prop :=
  ∃ p, parser (self w) = Some p ∧ sections p = names.

(** A reading of the clock as [datetime.now()] gives it, with a year of four
    digits. *)
Definition clock_reading (t : datetime) : Prop :=
  (1000 ≤ year t ≤ 9999 ∧ 1 ≤ month t ≤ 12 ∧ 1 ≤ day t ≤ 31 ∧
   hour t < 24 ∧ minute t < 60 ∧ second t < 60)%N.

(** Two readings of the clock agree to the second. *)
Definition same_second (a b : datetime) : Prop :=
  year a = year b ∧ month a = month b ∧ day a = day b ∧
  hour a = hour b ∧ minute a = minute b ∧ second a = second b.

(** The computation keeps the property [I] of the state, whatever it
    returns or raises. *)
Definition preserves {A} (I : world → Prop) (m : M world A) : Prop :=
  ∀ w r w', I w → m w = (r, w') → I w'.

(** A property of the state that depends on the parser only. *)
Definition parser_property (I : world → Prop) : Prop :=
  ∀ w w', parser (self w') = parser (self w) → I w → I w'.

(** A name that [get_shares] treats as the global section. *)
Definition is_global_name (section : string) : bool :=
  String.eqb (lower section) "global".

(** The key is neither in the section nor in the DEFAULT section. *)
Definition missing (key : string) (d : optdict) (p : ConfigParser.t) : Prop :=
  dict_get key d = None ∧ dict_get key (defaults p) = None.

(** The value that the section, or else the DEFAULT section, gives the
    key. *)
Definition given (key : string) (d : optdict) (p : ConfigParser.t)
  : option (option string) :=
  match dict_get key d with
  | Some v => Some v
  | None => dict_get key (defaults p)
  end.

(** None of the three yes/no keys of the section is written without a
    value. *)
Definition flags_valued (section : string) (p : ConfigParser.t) : Prop :=
  ∀ d key, dict_get section (sects p) = Some d →
    key ∈ ["writable"; "browseable"; "guest ok"] → given key d p ≠ Some None.

(** The files after the backup step of [save]. *)
Definition with_backup (now : datetime) (config_path : string)
    (fls : gmap string content) : gmap string content :=
  match fls !! config_path with
  | Some c => <[backup_path now := c]> fls
  | None => fls
  end.

(** The state differs from [w0] in the parser and the error text at most. *)
Definition same_files (w0 w : world) : Prop :=
  fs w = fs w0 ∧ config_path (self w) = config_path (self w0).

(** A text field: the value given, or else the documented default. *)
Definition text_field (key dflt : string) (d : optdict) (p : ConfigParser.t)
  : option string :=
  match given key d p with
  | Some v => v
  | None => Some dflt
  end.

(** A yes/no field: whether the value given is [yes] in any letter case, or
    else the documented default. *)
Definition flag_field (key : string) (dflt : bool) (d : optdict)
    (p : ConfigParser.t) : bool :=
  match given key d p with
  | Some (Some v) => String.eqb (lower v) "yes"
  | _ => dflt
  end.

(** The share definition that the specification describes for a section. *)
Definition documented_share (p : ConfigParser.t) (section : string)
  : SambaShare :=
  let d := default [] (dict_get section (sects p)) in
  mkSambaShare section
    (text_field "path" "" d p) (text_field "comment" "" d p)
    (flag_field "writable" true d p) (flag_field "browseable" true d p)
    (flag_field "guest ok" false d p)
    (text_field "valid users" "" d p)
    (text_field "create mask" "0664" d p)
    (text_field "directory mask" "0775" d p).

Definition non_global (section : string) : bool := negb (is_global_name section).

(** A parser that read nothing but a global section. *)
Definition only_global (opts : optdict) : ConfigParser.t :=
  ConfigParser.mk [] [("global", opts)].

(** A parser function for the examples: whatever the file holds, it reads
    a global section with one key. *)
Definition example_read_file (c : string) : option exn * ConfigParser.t :=
  (None, only_global [("workgroup", Some "WORKGROUP")]).

Definition example_world : world :=
  mkWorld (init SMB_CONF)
    (mkFS {[ SMB_CONF := Text ("[global]" +:+ String LF "workgroup = WORKGROUP"
                               +:+ String LF "") ]} ∅).

(** A configuration whose DEFAULT section sets [writable], and a share
    section that does not. *)
Definition inherited_parser : ConfigParser.t :=
  ConfigParser.mk [("writable", Some "no")]
    [("global", []); ("docs", [("path", Some "/srv/docs")])].

End ConfigSpec.


(** ** Vocabulary of the further properties of the mount table *)

Module MountSpec2.
Import Str TextIO MountManager MountSpec.

Definition nonspace (c : ascii) : bool := negb (isspace c).

(** A field: not empty and free of white space. *)
Definition field (s : string) : Prop :=
  s ≠ "" ∧ all_chars nonspace s = true.

(** The lines that text mode delivers from any file: each a body without
    line break followed by a line feed, except that the last may be a
    non-empty body without the line feed. *)
Inductive file_lines : list string → Prop :=
  | file_lines_nil : file_lines []
  | file_lines_last (body : string) :
      body ≠ "" → all_chars not_linebreak body = true → file_lines [body]
  | file_lines_cons (l : string) (ls : list string) :
      proper_line l → file_lines ls → file_lines (l :: ls).

(** The mount table of a file system, as [get_fstab_mounts] reads it, and
    [delete_mount] too when it can read it. *)
Definition table_lines (fs : FS) : list string :=
  match files fs !! FSTAB with
  | Some c => readlines (Os.text_of c)
  | None => []
  end.

(** The set that [get_active_mounts] returns. *)
Definition active_set (fs : FS) : gset string :=
  active_of_lines (seen_lines fs) ∅.

(** The list that [get_fstab_mounts] returns. *)
Definition listed (fs : FS) : list CifsMount :=
  mounts_of_lines (active_set fs) (table_lines fs).

End MountSpec2.


(** ** Vocabulary of the further properties of the configuration *)

Module ConfigSpec2.
Import Str ConfigParser SambaConfig ConfigSpec.

(** The keys that [add_share] sets, in its order, on top of the keys
    [d0]. *)
Definition share_options_onto (d0 : optdict) (share : SambaShare) : optdict :=
  let d := dict_set (optionxform "path") (path share) d0 in
  let d := dict_set (optionxform "writable") (yes_no (writable share)) d in
  let d := dict_set (optionxform "browseable") (yes_no (browseable share)) d in
  let d := dict_set (optionxform "guest ok") (yes_no (guest_ok share)) d in
  let d := if truthy (comment share)
           then dict_set (optionxform "comment") (comment share) d else d in
  let d := if truthy (valid_users share)
           then dict_set (optionxform "valid users") (valid_users share) d
           else d in
  let d := dict_set (optionxform "create mask") (create_mask share) d in
  dict_set (optionxform "directory mask") (directory_mask share) d.

(** The keys of the section that [add_share] makes. *)
Definition share_options (share : SambaShare) : optdict :=
  share_options_onto [] share.

(** The share is not the one named [n]. *)
Definition other_than (n : string) (share : SambaShare) : bool :=
  negb (String.eqb (name share) n).

End ConfigSpec2.


(** ** Vocabulary of the properties of the user listing *)

Module UserSpec.
Import Str Subprocess SambaUserManager MountSpec.

(** A block of the verbose listing: the text after "Unix username:", the
    lines between, the text after "Account Flags:", and the lines that
    follow up to the next block. *)
Definition block : Type := string * list string * string * list string.

Definition block_lines (b : block) : list string :=
  let '(u, between, f, after) := b in
  (("Unix username:" +:+ u) :: between ++ ("Account Flags:" +:+ f) :: after)%list.

(** A line that starts neither a user nor the flags. *)
Definition plain (line : string) : bool :=
  negb (startswith "Unix username:" line) &&
  negb (startswith "Account Flags:" line).

(** A line of the listing that is not looked at: without line feed, and
    plain. *)
Definition other_line (line : string) : Prop :=
  all_chars not_lf line = true ∧ plain line = true.

Definition user_of_block (b : block) : SambaUser :=
  let '(u, _, f, _) := b in
  mkSambaUser (strip u) (negb (contains "D" (strip f))) false.

(** The lines of a block hold no line feed and all but the two that are
    looked at are plain. *)
Definition well_formed (b : block) : Prop :=
  let '(u, between, f, after) := b in
  all_chars not_lf u = true ∧ all_chars not_lf f = true ∧
  Forall other_line between ∧ Forall other_line after.

(** The text that prints the lines, each with its line feed. *)
Definition print_lines (lines : list string) : string :=
  join (map (fun l => l +:+ String LF "") lines).

Definition PDBEDIT_VERBOSE : cmd := ["pdbedit"; "-L"; "-v"].
Definition PDBEDIT_LIST : cmd := ["pdbedit"; "-L"].

Definition ID (username : string) : cmd := ["id"; username].
Definition USERADD (username : string) : cmd :=
  ["useradd"; "-M"; "-s"; "/usr/sbin/nologin"; username].
Definition SMBPASSWD (username password : string) : cmd :=
  ["bash"; "-c"; smbpasswd_line username password].

(** The command exited with status 0 when run after [history]. *)
Definition succeeds (o : oracle) (history : list cmd) (c : cmd) : Prop :=
  ∃ r, o history c = inr r ∧ returncode r = 0%Z.

(** The command was run after [history] and did not exit with status 0. *)
Definition fails (o : oracle) (history : list cmd) (c : cmd) : Prop :=
  ∃ r, o history c = inr r ∧ returncode r ≠ 0%Z.

(** A listing of two users, the second disabled, in the layout of
    [pdbedit -L -v]. *)
Definition example_head : list string := ["---------------"].

Definition example_blocks : list block :=
  [("        alice", ["NT username:          "], "        [U          ]",
    ["User SID:             S-1-5-21-1-2-3-1000"; "---------------"]);
   ("        bob", [], "        [DU         ]", [])].

(** Every command exits 0 and prints that listing. *)
Definition example_oracle : oracle :=
  fun _ _ =>
    inr (mkCompletedProcess 0
           (print_lines (example_head ++ concat (map block_lines example_blocks)))
           "").

End UserSpec.

(** ** Vocabulary of the properties of a request *)

Module AppSpec.
Import Str Subprocess UserSpec MountSpec ConfigSpec.

(** The computation keeps the property [J] of its state, whatever it
    returns or raises. *)
Definition keeps {S A} (J : S → Prop) (m : M S A) : Prop :=
  ∀ s r s', J s → m s = (r, s') → J s'.

(** The actions of [index] that write files. *)
Definition FILE_ACTIONS : list string :=
  ["add_share"; "delete_share"; "add_mount"; "delete_mount"; "backup_config"].

(** The commands that every request runs to fill the page. *)
Definition READ_COMMANDS : list cmd :=
  [PDBEDIT_VERBOSE; PDBEDIT_LIST; ["hostname"];
   ["systemctl"; "is-active"; "smbd"]].

(** The commands run since [h0] are all among [READ_COMMANDS]. *)
Definition reads_since (h0 history : list cmd) : Prop :=
  ∃ new, history = (h0 ++ new)%list ∧ Forall (fun c => c ∈ READ_COMMANDS) new.

(** The machine has the files of [h0] and has run only [READ_COMMANDS]
    since. *)
Definition host_read_only (h0 h : Host) : Prop :=
  host_fs h = host_fs h0 ∧ reads_since (host_history h0) (host_history h).

(** The request has so far changed no file, flashed nothing and run only
    [READ_COMMANDS]. *)
Definition read_only (a0 a : App.t) : Prop :=
  host_read_only (App.host a0) (App.host a) ∧ App.flashes a = App.flashes a0.

(** The files are those of [a0]. *)
Definition files_kept (a0 a : App.t) : Prop :=
  host_fs (App.host a) = host_fs (App.host a0).

(** A property of the request that does not look at its [SambaConfig]
    object. *)
Definition ignores_config (J : App.t → Prop) : Prop :=
  ∀ a c, J a → J (App.mk c (App.host a) (App.flashes a)).

(** The field of the form is missing or blank. *)
Definition blank (form : gmap string string) (key : string) : Prop :=
  strip (App.form_get form key "") = "".

(** The forms that [index] turns down before it calls anything, each with
    the message it flashes. *)
Inductive rejected (form : gmap string string) : string → Prop :=
  | rejected_share :
      App.form_get form "action" "" = "add_share" →
      blank form "share_name" ∨ blank form "path" →
      rejected form "Share name and path are required"
  | rejected_user :
      App.form_get form "action" "" = "add_user" →
      blank form "username" ∨ blank form "password" →
      rejected form "Username and password are required"
  | rejected_passwords :
      App.form_get form "action" "" = "add_user" →
      ¬ blank form "username" → ¬ blank form "password" →
      strip (App.form_get form "password" "")
      ≠ strip (App.form_get form "password2" "") →
      rejected form "Passwords do not match"
  | rejected_mount :
      App.form_get form "action" "" = "add_mount" →
      blank form "remote" ∨ blank form "mountpoint" →
      rejected form "Remote path and mount point are required".

(** A machine with a configuration and a mount table. *)
Definition example_host : Host :=
  mkHost (mkFS {[ SMB_CONF := Text ("[global]" +:+ String LF
                                     "workgroup = WORKGROUP" +:+ String LF "");
                  FSTAB := Text mixed_table ]} ∅) [].

(** A parser function for the examples: a share section whose [writable]
    key has no value. *)
Definition valueless_read_file (c : string) : option exn * ConfigParser.t :=
  (None,
   ConfigParser.mk []
     [("global", []);
      ("docs", [("path", Some "/srv/docs"); ("writable", None)])]).

End AppSpec.

(** * Properties *)

(** ** Facts about strings *)

Module StrFacts.
Import Str MountSpec.

#[local] Arguments String.append !s1 s2 : simpl nomatch.

Lemma app_nil_r (s : string) : s +:+ "" = s.
Proof. induction s as [|c s IH]; simpl; [reflexivity | now f_equal]. Qed.

Lemma app_assoc (a b c : string) : (a +:+ b) +:+ c = a +:+ (b +:+ c).
Proof. induction a as [|x a IH]; simpl; [reflexivity | now f_equal]. Qed.

Lemma eqb_false_iff (a b : string) : String.eqb a b = false ↔ a ≠ b.
Proof. apply String.eqb_neq. Qed.

Lemma ascii_eqb_refl (c : ascii) : Ascii.eqb c c = true.
Proof. apply Ascii.eqb_refl. Qed.

Lemma startswith_app (p s : string) : startswith p (p +:+ s) = true.
Proof.
  induction p as [|c p IH]; simpl; [reflexivity|].
  now rewrite ascii_eqb_refl, IH.
Qed.

Lemma startswith_refl (p : string) : startswith p p = true.
Proof.
  induction p as [|c p IH]; simpl; [reflexivity|].
  now rewrite ascii_eqb_refl, IH.
Qed.

Lemma contains_here (needle s : string) :
  startswith needle s = true → contains needle s = true.
Proof. intros H. destruct s; simpl in *; rewrite H; reflexivity. Qed.

Lemma contains_app_l (needle a s : string) :
  contains needle s = true → contains needle (a +:+ s) = true.
Proof.
  intros H. induction a as [|c a IH]; simpl; [exact H|].
  rewrite IH. apply orb_true_r.
Qed.

Lemma contains_middle (needle a b : string) :
  contains needle (a +:+ needle +:+ b) = true.
Proof. apply contains_app_l, contains_here, startswith_app. Qed.

Lemma startswith_app_r (p s t : string) :
  startswith p s = true → startswith p (s +:+ t) = true.
Proof.
  revert s. induction p as [|c p IH]; intros s H; [reflexivity|].
  destruct s as [|d s]; simpl in *; [discriminate|].
  apply andb_true_iff in H as [-> H]. simpl. now apply IH.
Qed.

Lemma contains_app_r (needle s t : string) :
  contains needle s = true → contains needle (s +:+ t) = true.
Proof.
  induction s as [|c s IH]; simpl.
  - rewrite orb_false_r. intros H.
    destruct needle; [|discriminate].
    destruct t; reflexivity.
  - intros H. apply orb_true_iff in H as [H | H].
    + change (String c (s +:+ t)) with (String c s +:+ t).
      rewrite (startswith_app_r _ _ _ H). reflexivity.
    + rewrite (IH H). apply orb_true_r.
Qed.

Lemma last_char_app (a b : string) :
  b ≠ "" → last_char (a +:+ b) = last_char b.
Proof.
  intros Hb. induction a as [|c a IH]; simpl; [reflexivity|].
  rewrite <- IH. destruct (a +:+ b) eqn:E; [|reflexivity].
  destruct a; simpl in E; [contradiction | discriminate].
Qed.

End StrFacts.



(** ** The live mount status and [is_mounted] *)

Module MountStatus.
Import Str TextIO MountManager MountSpec.

Lemma parts_guard (parts : list string) (mp : string) :
  (3 <=? length parts)%nat && mem (lower (parts !!! 2%nat)) NET_FS = true ∧
  parts !!! 1%nat = mp ↔
  ∃ tag, parts !! 1%nat = Some mp ∧ parts !! 2%nat = Some tag ∧
         mem (lower tag) NET_FS = true.
Proof.
  split.
  - intros [Hg <-]. apply andb_true_iff in Hg as [Hlen Htag].
    apply Nat.leb_le in Hlen.
    exists (parts !!! 2%nat). repeat split; [| |exact Htag].
    + apply list_lookup_lookup_total_lt. lia.
    + apply list_lookup_lookup_total_lt. lia.
  - intros (tag & H1 & H2 & Htag).
    pose proof (lookup_lt_Some _ _ _ H2) as Hlen.
    apply list_lookup_total_correct in H1, H2. subst.
    split; [|reflexivity].
    apply andb_true_iff. split; [apply Nat.leb_le; lia | exact Htag].
Qed.

Lemma active_of_lines_elem (lines : list string) (active : gset string)
    (mp : string) :
  mp ∈ active_of_lines lines active ↔
  mp ∈ active ∨ ∃ line, line ∈ lines ∧ shows_mounted mp line.
Proof.
  revert active.
  induction lines as [|line rest IH]; intros active;
    cbn [active_of_lines]; cbv zeta.
  - split; [auto | intros [H | (l & Hl & _)]; [exact H | inversion Hl]].
  - destruct ((3 <=? length (split line))%nat
              && mem (lower (split line !!! 2%nat)) NET_FS) eqn:Hg.
    + rewrite IH, elem_of_union, elem_of_singleton. split.
      * intros [[-> | H] | (l & Hl & Hs)].
        -- right. exists line. split; [left|].
           apply parts_guard. split; [exact Hg | reflexivity].
        -- left; exact H.
        -- right. exists l. split; [right; exact Hl | exact Hs].
      * intros [H | (l & Hl & Hs)]; [left; right; exact H|].
        apply elem_of_cons in Hl as [-> | Hl].
        -- left; left. apply parts_guard in Hs as [_ Hs]. congruence.
        -- right. exists l. split; assumption.
    + rewrite IH. split.
      * intros [H | (l & Hl & Hs)]; [left; exact H|].
        right. exists l. split; [right; exact Hl | exact Hs].
      * intros [H | (l & Hl & Hs)]; [left; exact H|].
        apply elem_of_cons in Hl as [-> | Hl].
        -- apply parts_guard in Hs as [Hs _]. congruence.
        -- right. exists l. split; assumption.
Qed.

Lemma get_active_mounts_spec (fs : FS) :
  ∃ active : gset string,
    get_active_mounts fs = (inr active, fs) ∧
    ∀ mp, mp ∈ active ↔ ∃ line, line ∈ seen_lines fs ∧ shows_mounted mp line.
Proof.
  unfold get_active_mounts, try_except, bind, Os.iterate, seen_lines, ret.
  destruct (files fs !! PROC_MOUNTS) as [[c|u]|];
    [eexists; split; [reflexivity|]; intros mp; cbn [fst];
     rewrite active_of_lines_elem; split;
     [intros [H | H]; [set_solver | exact H] | intros H; right; exact H]..|].
  exists ∅. split; [reflexivity|]. intros mp. split.
  - set_solver.
  - intros (l & Hl & _). inversion Hl.
Qed.

Lemma seen_lines_decodable (fs : FS) :
  decodable PROC_MOUNTS fs → seen_lines fs = live_lines fs.
Proof.
  unfold decodable, seen_lines, live_lines.
  destruct (files fs !! PROC_MOUNTS) as [[c|u]|]; intros H;
    [reflexivity | now destruct (H u) | reflexivity].
Qed.

Lemma parse_fstab_line_is_mounted (active : gset string) (line : string)
    (m : CifsMount) :
  parse_fstab_line active line = Some m →
  is_mounted m = true ↔ mountpoint m ∈ active.
Proof.
  unfold parse_fstab_line.
  destruct (_ || _); [discriminate|].
  destruct (_ && _); [|discriminate].
  intros [= <-]. simpl. apply bool_decide_eq_true.
Qed.

(** C8, as the code has it.  [get_fstab_mounts] (listEntries) always
    returns a list, and for every entry of it [is_mounted] is true if and
    only if the entry's mountpoint is the second whitespace-separated field
    of some line that [get_active_mounts] got to see of the live
    mount-status source, whose third field is, lower-cased, a recognized
    network-filesystem tag.  When the source holds valid text, or does not
    exist, the lines seen are all its lines. *)
Theorem is_mounted_iff_live_status (fs : FS) :
  ∃ mounts : list CifsMount,
    get_fstab_mounts fs = (inr mounts, fs) ∧
    (∀ m, m ∈ mounts →
       (is_mounted m = true ↔
        ∃ line, line ∈ seen_lines fs ∧ shows_mounted (mountpoint m) line)) ∧
    (decodable PROC_MOUNTS fs →
     ∀ m, m ∈ mounts →
       (is_mounted m = true ↔
        ∃ line, line ∈ live_lines fs ∧ shows_mounted (mountpoint m) line)).
Proof.
  destruct (get_active_mounts_spec fs) as (active & Hact & Hspec).
  unfold get_fstab_mounts, bind. rewrite Hact.
  unfold try_except, bind, Os.read_replace, ret.
  destruct (files fs !! FSTAB) as [c|].
  - eexists. split; [reflexivity|].
    assert (Hseen : ∀ m, m ∈ mounts_of_lines active (readlines (Os.text_of c)) →
              (is_mounted m = true ↔
               ∃ line, line ∈ seen_lines fs ∧ shows_mounted (mountpoint m) line)).
    { intros m Hm. apply list_elem_of_omap in Hm as (line & _ & Hp).
      rewrite (parse_fstab_line_is_mounted _ _ _ Hp). apply Hspec. }
    split; [exact Hseen|].
    intros Hd m Hm. rewrite <- (seen_lines_decodable fs Hd). now apply Hseen.
  - exists []. split; [reflexivity|].
    split; [|intros _]; intros m Hm; inversion Hm.
Qed.

Lemma is_mounted_iff_live_status_witness :
  ∃ mounts : list CifsMount,
    get_fstab_mounts mounted_fs = (inr mounts, mounted_fs) ∧
    (∀ m, m ∈ mounts →
       (is_mounted m = true ↔
        ∃ line, line ∈ seen_lines mounted_fs ∧
                shows_mounted (mountpoint m) line)) ∧
    (decodable PROC_MOUNTS mounted_fs →
     ∀ m, m ∈ mounts →
       (is_mounted m = true ↔
        ∃ line, line ∈ live_lines mounted_fs ∧
                shows_mounted (mountpoint m) line)).
Proof. exact (is_mounted_iff_live_status mounted_fs). Defined.

(** C8 as stated fails: when the live status holds a byte that is no UTF-8,
    the strict read raises and the exception is swallowed; the entry whose
    mountpoint is field two of a line of the source, with the type cifs, is
    listed as not mounted. *)
Lemma undecodable_status_hides_mount :
  (∃ line, line ∈ live_lines garbled_fs ∧ shows_mounted "/mnt/x" line) ∧
  fst (get_fstab_mounts garbled_fs)
  = inr [mkCifsMount "//srv/a" "/mnt/x" "cifs" "ro" None false].
Proof.
  split; [|vm_compute; reflexivity].
  exists ("//srv/a /mnt/x cifs rw,relatime 0 0" +:+ NL).
  split; [left | exists "cifs"; repeat split].
Qed.

End MountStatus.

(** ** What a successful [add_mount] does to the file system *)

Module AddMount.
Import Str TextIO MountManager MountSpec StrFacts.

#[local] Arguments String.append !s1 s2 : simpl nomatch.

Lemma creds_path_last (D mp : string) :
  last_char (creds_path D mp) = Some "t"%char.
Proof.
  unfold creds_path, Os.path_join. simpl.
  assert (Hl : ∀ a, last_char (a +:+ "creds_" +:+ replace_char "/" "_" mp +:+ ".txt")
                    = Some "t"%char).
  { intros a. rewrite !last_char_app; try reflexivity; try discriminate.
    - destruct (replace_char _ _ _); discriminate.
  }
  destruct (_ || _).
  - apply (Hl D).
  - rewrite <- (Hl (D +:+ "/")). now rewrite app_assoc.
Qed.

Lemma creds_path_not_fstab (D mp : string) : creds_path D mp ≠ FSTAB.
Proof.
  intros H. apply (f_equal last_char) in H.
  rewrite creds_path_last in H. discriminate.
Qed.

Lemma creds_path_not_bak (D mp : string) : creds_path D mp ≠ FSTAB_BAK.
Proof.
  intros H. apply (f_equal last_char) in H.
  rewrite creds_path_last in H. discriminate.
Qed.

Lemma fstab_not_bak : FSTAB ≠ FSTAB_BAK.
Proof. discriminate. Qed.

Lemma is_file_false (fs : FS) (path : string) :
  Os.is_file fs path = false ↔ files fs !! path = None.
Proof.
  unfold Os.is_file. rewrite bool_decide_eq_false.
  destruct (files fs !! path); split; try reflexivity; try discriminate.
  - intros H. destruct H. eauto.
  - intros _ [x Hx]. discriminate.
Qed.

Lemma creatable_mkdir (mp : string) (fs : FS) :
  creatable mp fs ↔ Os.mkdir mp fs = (inr tt, fs).
Proof.
  unfold creatable, Os.mkdir. split.
  - intros [Hp Ha]. apply is_file_false in Hp. rewrite Hp.
    destruct (existsb (Os.is_file fs) (Os.ancestors mp)) eqn:E; [|reflexivity].
    apply existsb_exists in E as (a & Hin & Hf).
    apply list_elem_of_In in Hin. apply Ha, is_file_false in Hin. congruence.
  - destruct (Os.is_file fs (Os.path_str mp)) eqn:Hp; [discriminate|].
    destruct (existsb (Os.is_file fs) (Os.ancestors mp)) eqn:E; [discriminate|].
    intros _. split; [now apply is_file_false|].
    intros a Ha. apply is_file_false.
    destruct (Os.is_file fs a) eqn:Hf; [|reflexivity].
    rewrite <- E. symmetry. apply existsb_exists. exists a.
    split; [now apply list_elem_of_In | exact Hf].
Qed.

(** [mkdir] changes no file, and when it raises, it is with one of the two
    errors of a path that is taken. *)
Lemma mkdir_cases (mp : string) (fs : FS) :
  Os.mkdir mp fs = (inr tt, fs) ∨
  Os.mkdir mp fs = (inl (FileExistsError (Os.path_str mp)), fs) ∨
  Os.mkdir mp fs = (inl (NotADirectoryError (Os.path_str mp)), fs).
Proof.
  unfold Os.mkdir. destruct (Os.is_file fs _); [auto|].
  destruct (existsb _ _); auto.
Qed.

Lemma entry_text_spelled (now : datetime) (r mp t o : string) :
  entry_text now r mp t o = appended_text now r mp t o.
Proof.
  unfold entry_text, appended_text, comment_line, entry_line,
    provenance_line, fstab_line, PROVENANCE, TAB, NL.
  rewrite !app_assoc. reflexivity.
Qed.

Lemma creds_path_spelled (D mp : string) :
  creds_path D mp = credentials_path D mp.
Proof. reflexivity. Qed.

Lemma mode_0600_owner_only : owner_read_write_only 384.
Proof.
  intros i. split.
  - intros H. destruct (N.lt_ge_cases 8 i) as [Hlt | Hge].
    + rewrite N.bits_above_log2 in H by exact Hlt. discriminate.
    + assert (Hc : (i = 0 ∨ i = 1 ∨ i = 2 ∨ i = 3 ∨ i = 4 ∨ i = 5 ∨ i = 6
                    ∨ i = 7 ∨ i = 8)%N) by lia.
      destruct Hc as [-> | [-> | [-> | [-> | [-> | [-> | [-> | [-> | ->]]]]]]]];
        (discriminate H || auto).
  - intros [-> | ->]; reflexivity.
Qed.

Lemma add_mount_success_inv (D : string) (now : datetime)
    (r mp t u p o msg : string) (fs fs' : FS) :
  add_mount D now r mp t u p o fs = (inr (true, msg), fs') →
  ∃ c, creatable mp fs ∧ files fs !! FSTAB = Some c ∧
       files fs' =
         <[FSTAB := Os.extended c
                      (entry_text now r mp t
                         (with_defaults (with_credentials D mp u p o)))]>
           (<[FSTAB_BAK := c]> (files_with_creds D mp u p fs)) ∧
       (has_credentials u p = true →
        modes fs' !! creds_path D mp = Some MODE_0600).
Proof.
  unfold add_mount, try_except, bind, files_with_creds.
  destruct (mkdir_cases mp fs) as [Hmk | [Hmk | Hmk]]; rewrite Hmk;
    [|discriminate..].
  apply creatable_mkdir in Hmk.
  fold (has_credentials u p).
  destruct (has_credentials u p) eqn:Hc.
  - unfold Os.write, Os.chmod, Os.copy2, Os.append, ret, bind. simpl.
    rewrite lookup_insert_eq. simpl.
    rewrite (lookup_insert_ne _ _ _ _ (creds_path_not_fstab D mp)).
    destruct (files fs !! FSTAB) as [c|] eqn:Hf; [|discriminate].
    destruct (decide (FSTAB = FSTAB +:+ ".bak")) as [E|_]; [discriminate E|].
    simpl. intros [= _ <-]. exists c. simpl.
    split; [exact Hmk|]. repeat split; try reflexivity.
    + rewrite (lookup_insert_ne _ _ _ _ (not_eq_sym fstab_not_bak)).
      rewrite (lookup_insert_ne _ _ _ _ (creds_path_not_fstab D mp)).
      rewrite Hf. reflexivity.
    + intros _.
      rewrite (lookup_insert_ne _ _ _ _ (creds_path_not_fstab D mp)).
      destruct (modes fs !! FSTAB).
      * rewrite (lookup_insert_ne _ _ _ _ (not_eq_sym (creds_path_not_bak D mp))).
        apply lookup_insert_eq.
      * rewrite (lookup_delete_ne _ _ _ (not_eq_sym (creds_path_not_bak D mp))).
        apply lookup_insert_eq.
  - unfold Os.copy2, Os.append, ret, bind. simpl.
    destruct (files fs !! FSTAB) as [c|] eqn:Hf; [|discriminate].
    destruct (decide (FSTAB = FSTAB +:+ ".bak")) as [E|_]; [discriminate E|].
    simpl. intros [= _ <-]. exists c. simpl.
    split; [exact Hmk|]. repeat split; try reflexivity; [|discriminate].
    rewrite (lookup_insert_ne _ _ _ _ (not_eq_sym fstab_not_bak)).
    rewrite Hf. reflexivity.
Qed.

Lemma add_mount_succeeds (D : string) (now : datetime)
    (r mp t u p o : string) (c : content) (fs : FS) :
  creatable mp fs → files fs !! FSTAB = Some c →
  ∃ fs', add_mount D now r mp t u p o fs
         = (inr (true, "Mount added successfully"), fs').
Proof.
  intros Hmp Hf. apply creatable_mkdir in Hmp.
  unfold add_mount, try_except, bind. rewrite Hmp.
  fold (has_credentials u p).
  destruct (has_credentials u p).
  - unfold Os.write, Os.chmod, Os.copy2, Os.append, ret, bind. simpl.
    rewrite lookup_insert_eq. simpl.
    rewrite (lookup_insert_ne _ _ _ _ (creds_path_not_fstab D mp)), Hf.
    destruct (decide (FSTAB = FSTAB +:+ ".bak")) as [E|_]; [discriminate E|].
    eexists. reflexivity.
  - unfold Os.copy2, Os.append, ret, bind. simpl. rewrite Hf.
    destruct (decide (FSTAB = FSTAB +:+ ".bak")) as [E|_]; [discriminate E|].
    eexists. reflexivity.
Qed.


Lemma text_of_extended (c : content) (s : string) :
  Os.text_of (Os.extended c s) = Os.text_of c +:+ s.
Proof. destruct c; reflexivity. Qed.

Lemma with_defaults_keeps (needle x : string) :
  x ≠ "" → contains needle x = true → contains needle (with_defaults x) = true.
Proof.
  intros Hx Hn. unfold with_defaults.
  apply String.eqb_neq in Hx. rewrite Hx.
  destruct (negb _); [|exact Hn]. now apply contains_app_r.
Qed.

Lemma with_credentials_has (D mp u p o : string) :
  has_credentials u p = true →
  with_credentials D mp u p o ≠ "" ∧
  contains ("credentials=" +:+ creds_path D mp) (with_credentials D mp u p o)
  = true.
Proof.
  intros Hc. unfold with_credentials. fold (has_credentials u p). rewrite Hc.
  destruct (negb (String.eqb o "")) eqn:Ho.
  - split.
    + destruct o; [discriminate Ho | discriminate].
    + apply contains_app_l, (contains_app_l _ ","), contains_here,
        startswith_refl.
  - split; [discriminate|]. apply contains_here, startswith_refl.
Qed.

Lemma has_credentials_true (u p : string) :
  u ≠ "" → p ≠ "" → has_credentials u p = true.
Proof.
  intros Hu Hp. unfold has_credentials.
  apply String.eqb_neq in Hu, Hp. now rewrite Hu, Hp.
Qed.

(** C6, as the code has it.  For every successful [add_mount] (addEntry)
    call in which both username and password are non-empty: a credentials
    file is written at the path that [credentials_path] derives from the
    mountpoint; it holds exactly the two lines [username=<u>] and
    [password=<p>]; its permission bits are 0600, which let the owner read
    and write and nobody else do anything; and the text appended to the
    mount table is the line feed, the provenance comment and the entry,
    whose option field contains [credentials=<that path>]. *)
Theorem credentials_file_written (D : string) (now : datetime)
    (remote mp fstype u p opts msg : string) (fs fs' : FS) :
  u ≠ "" → p ≠ "" →
  add_mount D now remote mp fstype u p opts fs = (inr (true, msg), fs') →
  files fs' !! credentials_path D mp
    = Some (Text ("username=" +:+ u +:+ String LF ""
                  +:+ "password=" +:+ p +:+ String LF "")) ∧
  (∃ mode, modes fs' !! credentials_path D mp = Some mode ∧
           mode = 384%N ∧ owner_read_write_only mode) ∧
  ∃ (before after : content) (options' : string),
    files fs !! FSTAB = Some before ∧
    files fs' !! FSTAB = Some after ∧
    Os.text_of after
    = Os.text_of before +:+ appended_text now remote mp fstype options' ∧
    contains ("credentials=" +:+ credentials_path D mp) options' = true.
Proof.
  intros Hu Hp Hrun.
  pose proof (has_credentials_true u p Hu Hp) as Hc.
  apply add_mount_success_inv in Hrun as (c & _ & Hf & Hfiles & Hmode).
  unfold files_with_creds in Hfiles. rewrite Hc in Hfiles.
  rewrite <- creds_path_spelled.
  split; [|split].
  - rewrite Hfiles.
    rewrite (lookup_insert_ne _ _ _ _ (not_eq_sym (creds_path_not_fstab D mp))).
    rewrite (lookup_insert_ne _ _ _ _ (not_eq_sym (creds_path_not_bak D mp))).
    apply lookup_insert_eq.
  - exists 384%N. split; [apply Hmode, Hc|].
    split; [reflexivity | apply mode_0600_owner_only].
  - eexists c, _, (with_defaults (with_credentials D mp u p opts)).
    split; [exact Hf|]. split; [rewrite Hfiles; apply lookup_insert_eq|].
    split; [now rewrite text_of_extended, entry_text_spelled|].
    destruct (with_credentials_has D mp u p opts Hc) as [Hne Hin].
    now apply with_defaults_keeps.
Qed.

Lemma credentials_file_written_witness :
  files (snd (add_mount "/etc/samba/credentials" example_now
                "//srv/share" "/mnt/x" "cifs" "u" "p" "" mounted_fs))
    !! credentials_path "/etc/samba/credentials" "/mnt/x"
    = Some (Text ("username=" +:+ "u" +:+ String LF ""
                  +:+ "password=" +:+ "p" +:+ String LF "")) ∧
  (∃ mode,
     modes (snd (add_mount "/etc/samba/credentials" example_now
                   "//srv/share" "/mnt/x" "cifs" "u" "p" "" mounted_fs))
       !! credentials_path "/etc/samba/credentials" "/mnt/x" = Some mode ∧
     mode = 384%N ∧ owner_read_write_only mode) ∧
  ∃ (before after : content) (options' : string),
    files mounted_fs !! FSTAB = Some before ∧
    files (snd (add_mount "/etc/samba/credentials" example_now
                  "//srv/share" "/mnt/x" "cifs" "u" "p" "" mounted_fs))
      !! FSTAB = Some after ∧
    Os.text_of after
    = Os.text_of before
      +:+ appended_text example_now "//srv/share" "/mnt/x" "cifs" options' ∧
    contains ("credentials="
              +:+ credentials_path "/etc/samba/credentials" "/mnt/x")
      options' = true.
Proof.
  apply (credentials_file_written "/etc/samba/credentials" example_now
           "//srv/share" "/mnt/x" "cifs" "u" "p" "" "Mount added successfully"
           mounted_fs).
  - discriminate.
  - discriminate.
  - vm_compute; reflexivity.
Defined.

(** C6 as stated fails for a call that does not succeed: when the mount
    point is a regular file, [add_mount] with a username and a password
    returns False and has written no credentials file. *)
Lemma failed_add_mount_writes_no_credentials :
  let run := add_mount "/etc/samba/credentials" example_now
               "//srv/share" "/etc/fstab" "cifs" "u" "p" "" mounted_fs in
  fst run
  = inr (false, "Error adding mount: [Errno 17] File exists: '/etc/fstab'") ∧
  files (snd run) !! credentials_path "/etc/samba/credentials" "/etc/fstab"
  = None ∧
  snd run = mounted_fs.
Proof. repeat split; vm_compute; reflexivity. Qed.

End AddMount.

(** ** Text-mode reading *)

Module TextFacts.
Import Str TextIO MountManager MountSpec StrFacts.

#[local] Arguments String.append !s1 s2 : simpl nomatch.

Lemma all_chars_app (P : ascii -> bool) (a b : string) :
  all_chars P (a +:+ b) = all_chars P a && all_chars P b.
Proof.
  induction a as [|c a IH]; simpl; [reflexivity|].
  now rewrite IH, andb_assoc.
Qed.

Lemma all_chars_weaken (P Q : ascii -> bool) (s : string) :
  (∀ c, P c = true → Q c = true) → all_chars P s = true → all_chars Q s = true.
Proof.
  intros HPQ. induction s as [|c s IH]; simpl; [reflexivity|].
  intros H. apply andb_true_iff in H as [Hc Hs].
  now rewrite (HPQ _ Hc), IH.
Qed.

Lemma universal_newlines_id (s : string) :
  all_chars not_cr s = true → universal_newlines s = s.
Proof.
  induction s as [|c s IH]; simpl; [reflexivity|].
  intros H. apply andb_true_iff in H as [Hc Hs].
  unfold not_cr in Hc. apply negb_true_iff in Hc. rewrite Hc. now rewrite IH.
Qed.

Lemma join_lines_of (s : string) : join (lines_of s) = s.
Proof.
  induction s as [|c s IH]; simpl; [reflexivity|].
  destruct (Ascii.eqb c LF); simpl; [now rewrite IH|].
  destruct (lines_of s) as [|l ls]; simpl in *; now rewrite <- IH.
Qed.

(** Writing back the lines that were read gives the text as it was read. *)
Lemma join_readlines (c : string) : join (readlines c) = universal_newlines c.
Proof. apply join_lines_of. Qed.

Lemma lines_of_nonempty (c : ascii) (s : string) : lines_of (String c s) ≠ [].
Proof.
  simpl. destruct (Ascii.eqb c LF); [discriminate|].
  destruct (lines_of s); discriminate.
Qed.

Lemma ends_with_lf_tail (c : ascii) (s : string) :
  ends_with_lf (String c s) → s ≠ "" → ends_with_lf s.
Proof.
  intros [H | H] Hs; [discriminate|]. right.
  destruct s; [contradiction | exact H].
Qed.

Lemma lines_of_app (a b : string) :
  ends_with_lf a → lines_of (a +:+ b) = (lines_of a ++ lines_of b)%list.
Proof.
  induction a as [|c a IH]; intros Ha; [reflexivity|].
  simpl. destruct (Ascii.eqb c LF) eqn:Hc.
  - destruct a as [|d a]; [reflexivity|].
    rewrite IH; [reflexivity|]. apply (ends_with_lf_tail c); [exact Ha | discriminate].
  - destruct a as [|d a].
    + destruct Ha as [Ha | Ha]; [discriminate|].
      simpl in Ha. injection Ha as ->. discriminate Hc.
    + rewrite IH by (apply (ends_with_lf_tail c); [exact Ha | discriminate]).
      pose proof (lines_of_nonempty d a) as Hne.
      destruct (lines_of (String d a)); [contradiction | reflexivity].
Qed.

(** A text without line feed, followed by one, is a line of its own. *)
Lemma lines_of_line (body rest : string) :
  all_chars not_lf body = true →
  lines_of (body +:+ NL +:+ rest) = (body +:+ NL) :: lines_of rest.
Proof.
  unfold NL. change (String LF "" +:+ rest) with (String LF rest).
  induction body as [|c body IH]; simpl.
  - reflexivity.
  - intros H. apply andb_true_iff in H as [Hc Hb].
    unfold not_lf in Hc. apply negb_true_iff in Hc. rewrite Hc.
    now rewrite (IH Hb).
Qed.

Lemma universal_newlines_app_aux (a : string) :
  (∀ b, last_char a ≠ Some CR →
        universal_newlines (a +:+ b)
        = universal_newlines a +:+ universal_newlines b) ∧
  (∀ c b, last_char (String c a) ≠ Some CR →
          universal_newlines (String c a +:+ b)
          = universal_newlines (String c a) +:+ universal_newlines b).
Proof.
  induction a as [|d a [IH1 IH2]].
  - split; [reflexivity|]. intros c b Hc. simpl in *.
    destruct (Ascii.eqb c CR) eqn:E; [|reflexivity].
    apply Ascii.eqb_eq in E. congruence.
  - split; [exact (IH2 d)|]. intros c b Hc.
    assert (Hd : last_char (String d a) ≠ Some CR) by exact Hc.
    assert (Ha : last_char a ≠ Some CR).
    { destruct a; [discriminate | exact Hd]. }
    specialize (IH1 b Ha). specialize (IH2 d b Hd).
    cbn [universal_newlines String.append] in *.
    destruct (Ascii.eqb c CR).
    + destruct (Ascii.eqb d LF); simpl; f_equal; assumption.
    + simpl; f_equal; assumption.
Qed.

Lemma universal_newlines_app (a b : string) :
  last_char a ≠ Some CR →
  universal_newlines (a +:+ b) = universal_newlines a +:+ universal_newlines b.
Proof. apply universal_newlines_app_aux. Qed.

Lemma last_char_cons (c : ascii) (x : string) :
  x ≠ "" → last_char (String c x) = last_char x.
Proof. destruct x; [contradiction | reflexivity]. Qed.

Lemma universal_newlines_nonempty (c : ascii) (a : string) :
  universal_newlines (String c a) ≠ "".
Proof.
  simpl. destruct (Ascii.eqb c CR); [|discriminate].
  destruct a as [|d a]; [discriminate|].
  destruct (Ascii.eqb d LF); discriminate.
Qed.

Lemma universal_newlines_last_lf_aux (a : string) :
  (last_char a = Some LF → last_char (universal_newlines a) = Some LF) ∧
  (∀ c, last_char (String c a) = Some LF →
        last_char (universal_newlines (String c a)) = Some LF).
Proof.
  induction a as [|d a [IH1 IH2]].
  - split; [discriminate|]. intros c [= ->]. reflexivity.
  - split; [exact (IH2 d)|]. intros c Hc.
    assert (Hd : last_char (String d a) = Some LF) by exact Hc.
    specialize (IH2 d Hd).
    pose proof (universal_newlines_nonempty d a) as Hne.
    cbn [universal_newlines] in *.
    destruct (Ascii.eqb c CR).
    + destruct (Ascii.eqb d LF).
      * destruct a as [|e a]; [reflexivity|].
        rewrite last_char_cons by apply universal_newlines_nonempty.
        apply IH1, Hd.
      * rewrite last_char_cons by exact Hne. exact IH2.
    + rewrite last_char_cons by exact Hne. exact IH2.
Qed.

Lemma universal_newlines_ends_with_lf (a : string) :
  ends_with_lf a → ends_with_lf (universal_newlines a).
Proof.
  intros [-> | Ha]; [left; reflexivity | right].
  now apply universal_newlines_last_lf_aux.
Qed.

Lemma ends_with_lf_not_cr (a : string) : ends_with_lf a → last_char a ≠ Some CR.
Proof. intros [-> | ->]; discriminate. Qed.

(** Reading a text that ends a line, extended by a text without carriage
    return. *)
Lemma readlines_app (a b : string) :
  ends_with_lf a → all_chars not_cr b = true →
  readlines (a +:+ b) = (readlines a ++ lines_of b)%list.
Proof.
  intros Ha Hb. unfold readlines.
  rewrite universal_newlines_app by now apply ends_with_lf_not_cr.
  rewrite lines_of_app by now apply universal_newlines_ends_with_lf.
  now rewrite (universal_newlines_id b).
Qed.

End TextFacts.

(** ** The rewrite of [delete_mount] *)

Module DeleteMount.
Import Str TextIO MountManager MountSpec StrFacts TextFacts.

#[local] Arguments String.append !s1 s2 : simpl nomatch.

Lemma delete_mount_run (mp c : string) (fs : FS) :
  files fs !! FSTAB = Some (Text c) →
  ∃ fs', delete_mount mp fs = (inr (true, "Mount removed from fstab"), fs') ∧
         files fs'
         = <[FSTAB := Text (join (delete_loop mp false (readlines c)))]>
             (<[FSTAB_BAK := Text c]> (files fs)).
Proof.
  intros Hf. unfold delete_mount, try_except, bind, Os.copy2. rewrite Hf.
  destruct (decide (FSTAB = FSTAB +:+ ".bak")) as [E|_]; [discriminate E|].
  unfold Os.read, Os.write, ret. simpl.
  rewrite (lookup_insert_ne _ _ _ _ (not_eq_sym AddMount.fstab_not_bak)), Hf.
  eexists. split; reflexivity.
Qed.

(** A table that is no valid text: the backup is made, the strict read
    raises, and the table is left as it is. *)
Lemma delete_mount_undecodable (mp : string) (u : undecodable) (fs : FS) :
  files fs !! FSTAB = Some (Undecodable u) →
  ∃ fs', delete_mount mp fs
         = (inr (false, "Error removing mount: " +:+ reason u), fs') ∧
         files fs' = <[FSTAB_BAK := Undecodable u]> (files fs).
Proof.
  intros Hf. unfold delete_mount, try_except, bind, Os.copy2. rewrite Hf.
  destruct (decide (FSTAB = FSTAB +:+ ".bak")) as [E|_]; [discriminate E|].
  unfold Os.read, Os.write, ret. simpl.
  rewrite (lookup_insert_ne _ _ _ _ (not_eq_sym AddMount.fstab_not_bak)), Hf.
  eexists. split; reflexivity.
Qed.

Lemma delete_mount_success_inv (mp msg : string) (fs fs' : FS) :
  delete_mount mp fs = (inr (true, msg), fs') →
  ∃ c, files fs !! FSTAB = Some (Text c) ∧
       files fs'
       = <[FSTAB := Text (join (delete_loop mp false (readlines c)))]>
           (<[FSTAB_BAK := Text c]> (files fs)).
Proof.
  intros Hrun. destruct (files fs !! FSTAB) as [[c|u]|] eqn:Hf.
  - destruct (delete_mount_run mp c fs Hf) as (fs2 & Hrun2 & Hfiles).
    rewrite Hrun in Hrun2. injection Hrun2 as _ ->. now exists c.
  - destruct (delete_mount_undecodable mp u fs Hf) as (fs2 & Hrun2 & _).
    rewrite Hrun in Hrun2. discriminate.
  - unfold delete_mount, try_except, bind, Os.copy2 in Hrun.
    rewrite Hf in Hrun. discriminate.
Qed.

Lemma is_provenance_is_comment (line : string) :
  is_provenance line = true → is_comment line = true.
Proof.
  unfold is_provenance, is_comment, PROVENANCE.
  destruct (strip line) as [|c s]; [discriminate|]. simpl.
  intros H. apply andb_true_iff in H as [H _]. now rewrite H.
Qed.

Lemma matches_not_provenance (mp line : string) :
  matches mp line = true → is_provenance line = false.
Proof.
  unfold matches. intros H. apply andb_true_iff in H as [_ H].
  apply negb_true_iff in H.
  destruct (is_provenance line) eqn:E; [|reflexivity].
  apply is_provenance_is_comment in E. congruence.
Qed.

Lemma delete_loop_unmatched (mp : string) (lines : list string) :
  (∀ line, line ∈ lines → contains mp line = false) →
  delete_loop mp false lines = lines.
Proof.
  induction lines as [|l rest IH]; intros H; [reflexivity|].
  cbn [delete_loop]. rewrite (H l) by left. simpl.
  rewrite IH; [reflexivity|]. intros line Hl. apply H. now right.
Qed.

(** The loop keeps every non-comment line that does not contain the
    mountpoint and no other non-comment line, whatever the flag. *)
Lemma delete_loop_non_comments (mp : string) (skip : bool) (lines : list string) :
  List.filter (fun l => negb (is_comment l)) (delete_loop mp skip lines)
  = List.filter (fun l => negb (contains mp l))
      (List.filter (fun l => negb (is_comment l)) lines).
Proof.
  revert skip. induction lines as [|l rest IH]; intros skip; [reflexivity|].
  cbn [delete_loop]. fold (is_comment l). fold (is_provenance l).
  destruct (is_comment l) eqn:Hc.
  - rewrite andb_false_r. cbn [List.filter negb]. rewrite Hc. cbn [negb].
    destruct (skip && is_provenance l); [apply IH|].
    cbn [List.filter]. rewrite Hc. apply IH.
  - assert (Hp : is_provenance l = false).
    { destruct (is_provenance l) eqn:E; [|reflexivity].
      apply is_provenance_is_comment in E. congruence. }
    rewrite Hp, andb_false_r, andb_true_r.
    cbn [List.filter negb]. rewrite Hc. cbn [negb List.filter].
    destruct (contains mp l); cbn [negb]; [apply IH|].
    cbn [List.filter]. rewrite Hc. cbn [negb]. now rewrite IH.
Qed.

End DeleteMount.

(** ** Which lines [delete_mount] omits *)

Module DeleteSpec.
Import Str TextIO MountManager MountSpec StrFacts TextFacts DeleteMount.

Lemma omitted_from_false (mp : string) (lines : list string) (i : nat) :
  omitted_from mp false lines i ↔ omitted mp lines i.
Proof.
  unfold omitted_from, omitted. split.
  - intros (l & Hl & [H | [Hp [[Hf _] | H]]]); [| discriminate Hf |];
      exists l; split; auto.
  - intros (l & Hl & [H | [Hp H]]); exists l; split; auto.
Qed.

(** Entering the rest of the list after a matching line: the flag is set. *)
Lemma omitted_after_match (mp : string) (skip : bool) (l : string)
    (rest : list string) (i : nat) :
  matches mp l = true →
  omitted_from mp true rest i ↔ omitted_from mp skip (l :: rest) (S i).
Proof.
  intros Hm. unfold omitted_from. split.
  - intros (l' & Hl' & [H | [Hp H]]); exists l'; (split; [exact Hl'|]);
      [left; exact H | right; split; [exact Hp|]].
    right. destruct H as [[_ Hno] | (j & lj & Hj & Hlj & Hmj & Hno)].
    + exists 0%nat, l. repeat split; [lia | exact Hm|].
      intros [|k] lk Hk Hlk; [lia|]. apply (Hno k); [lia | exact Hlk].
    + exists (S j), lj. repeat split; [lia | exact Hlj | exact Hmj|].
      intros [|k] lk Hk Hlk; [lia|]. apply (Hno k); [lia | exact Hlk].
  - intros (l' & Hl' & [H | [Hp H]]); exists l'; (split; [exact Hl'|]);
      [left; exact H | right; split; [exact Hp|]].
    destruct H as [[_ Hno] | ([|j] & lj & Hj & Hlj & Hmj & Hno)].
    + left. split; [reflexivity|]. intros k lk Hk Hlk.
      apply (Hno (S k)); [lia | exact Hlk].
    + left. split; [reflexivity|]. intros k lk Hk Hlk.
      apply (Hno (S k)); [lia | exact Hlk].
    + right. exists j, lj. repeat split; [lia | exact Hlj | exact Hmj|].
      intros k lk Hk Hlk. apply (Hno (S k)); [lia | exact Hlk].
Qed.

(** Entering the rest after a provenance comment: the flag is clear. *)
Lemma omitted_after_provenance (mp : string) (skip : bool) (l : string)
    (rest : list string) (i : nat) :
  matches mp l = false → is_provenance l = true →
  omitted_from mp false rest i ↔ omitted_from mp skip (l :: rest) (S i).
Proof.
  intros Hm Hpl. unfold omitted_from. split.
  - intros (l' & Hl' & [H | [Hp H]]); exists l'; (split; [exact Hl'|]);
      [left; exact H | right; split; [exact Hp|]].
    destruct H as [[Hf _] | (j & lj & Hj & Hlj & Hmj & Hno)]; [discriminate|].
    right. exists (S j), lj. repeat split; [lia | exact Hlj | exact Hmj|].
    intros [|k] lk Hk Hlk; [lia|]. apply (Hno k); [lia | exact Hlk].
  - intros (l' & Hl' & [H | [Hp H]]); exists l'; (split; [exact Hl'|]);
      [left; exact H | right; split; [exact Hp|]].
    destruct H as [[_ Hno] | ([|j] & lj & Hj & Hlj & Hmj & Hno)].
    + specialize (Hno 0%nat l ltac:(lia) eq_refl). congruence.
    + simpl in Hlj. injection Hlj as <-. congruence.
    + right. exists j, lj. repeat split; [lia | exact Hlj | exact Hmj|].
      intros k lk Hk Hlk. apply (Hno (S k)); [lia | exact Hlk].
Qed.

(** Entering the rest after a line that is kept: the flag is as before. *)
Lemma omitted_after_kept (mp : string) (skip : bool) (l : string)
    (rest : list string) (i : nat) :
  matches mp l = false → skip && is_provenance l = false →
  omitted_from mp skip rest i ↔ omitted_from mp skip (l :: rest) (S i).
Proof.
  intros Hm Hsp. unfold omitted_from. split.
  - intros (l' & Hl' & [H | [Hp H]]); exists l'; (split; [exact Hl'|]);
      [left; exact H | right; split; [exact Hp|]].
    destruct H as [[Hs Hno] | (j & lj & Hj & Hlj & Hmj & Hno)].
    + left. split; [exact Hs|]. intros [|k] lk Hk Hlk.
      * simpl in Hlk. injection Hlk as <-. subst skip. exact Hsp.
      * apply (Hno k); [lia | exact Hlk].
    + right. exists (S j), lj. repeat split; [lia | exact Hlj | exact Hmj|].
      intros [|k] lk Hk Hlk; [lia|]. apply (Hno k); [lia | exact Hlk].
  - intros (l' & Hl' & [H | [Hp H]]); exists l'; (split; [exact Hl'|]);
      [left; exact H | right; split; [exact Hp|]].
    destruct H as [[Hs Hno] | ([|j] & lj & Hj & Hlj & Hmj & Hno)].
    + left. split; [exact Hs|]. intros k lk Hk Hlk.
      apply (Hno (S k)); [lia | exact Hlk].
    + simpl in Hlj. injection Hlj as <-. congruence.
    + right. exists j, lj. repeat split; [lia | exact Hlj | exact Hmj|].
      intros k lk Hk Hlk. apply (Hno (S k)); [lia | exact Hlk].
Qed.

Lemma delete_loop_mask (mp : string) (lines : list string) :
  ∀ skip, ∃ mask : list bool,
    length mask = length lines ∧
    delete_loop mp skip lines = select mask lines ∧
    ∀ i, mask !! i = Some false ↔ omitted_from mp skip lines i.
Proof.
  induction lines as [|l rest IH]; intros skip.
  - exists []. repeat split; try reflexivity; [discriminate|].
    intros (l & Hl & _). discriminate.
  - cbn [delete_loop]. fold (is_comment l). fold (matches mp l).
    fold (is_provenance l).
    destruct (matches mp l) eqn:Hm.
    + destruct (IH true) as (mask & Hlen & Hloop & Hmask).
      exists (false :: mask). repeat split.
      * simpl. now rewrite Hlen.
      * exact Hloop.
      * destruct i as [|i].
        -- intros _. exists l. split; [reflexivity | left; exact Hm].
        -- intros H. apply omitted_after_match, Hmask; assumption.
      * destruct i as [|i]; [reflexivity|].
        intros H. apply Hmask. eapply omitted_after_match; eassumption.
    + destruct (skip && is_provenance l) eqn:Hsp.
      * apply andb_true_iff in Hsp as [-> Hp].
        destruct (IH false) as (mask & Hlen & Hloop & Hmask).
        exists (false :: mask). repeat split.
        -- simpl. now rewrite Hlen.
        -- exact Hloop.
        -- destruct i as [|i].
           ++ intros _. exists l. split; [reflexivity|]. right.
              split; [exact Hp|]. left. split; [reflexivity|]. intros; lia.
           ++ intros H. apply omitted_after_provenance, Hmask; assumption.
        -- destruct i as [|i]; [reflexivity|].
           intros H. apply Hmask. eapply omitted_after_provenance; eassumption.
      * destruct (IH skip) as (mask & Hlen & Hloop & Hmask).
        exists (true :: mask). repeat split.
        -- simpl. now rewrite Hlen.
        -- simpl. now rewrite Hloop.
        -- destruct i as [|i]; [discriminate|].
           intros H. apply omitted_after_kept, Hmask; assumption.
        -- destruct i as [|i].
           ++ intros (l' & [= <-] & [H | [Hp [[Hs _] | (j & _ & Hj & _)]]]).
              ** congruence.
              ** subst skip. simpl in Hsp. congruence.
              ** lia.
           ++ intros H. apply Hmask. eapply omitted_after_kept; eassumption.
Qed.

End DeleteSpec.

(** ** Lines written and read back *)

Module LineFacts.
Import Str TextIO MountManager MountSpec StrFacts TextFacts DeleteMount.

#[local] Arguments String.append !s1 s2 : simpl nomatch.

Lemma universal_newlines_no_cr_aux (a : string) :
  all_chars not_cr (universal_newlines a) = true ∧
  ∀ c, all_chars not_cr (universal_newlines (String c a)) = true.
Proof.
  induction a as [|d a [IH1 IH2]].
  - split; [reflexivity|]. intros c. simpl.
    destruct (Ascii.eqb c CR) eqn:E; [reflexivity|].
    simpl. unfold not_cr. now rewrite E.
  - split; [exact (IH2 d)|]. intros c. specialize (IH2 d).
    cbn [universal_newlines] in *.
    destruct (Ascii.eqb c CR) eqn:E.
    + destruct (Ascii.eqb d LF); simpl; assumption.
    + simpl. unfold not_cr at 1. rewrite E. exact IH2.
Qed.

Lemma universal_newlines_no_cr (a : string) :
  all_chars not_cr (universal_newlines a) = true.
Proof. apply universal_newlines_no_cr_aux. Qed.

Lemma proper_lines_of (s : string) :
  ends_with_lf s → all_chars not_cr s = true →
  Forall proper_line (lines_of s).
Proof.
  induction s as [|c s IH]; intros He Hc; [constructor|].
  simpl in Hc. apply andb_true_iff in Hc as [Hc Hs].
  simpl. destruct (Ascii.eqb c LF) eqn:Hlf.
  - constructor.
    + exists "". apply Ascii.eqb_eq in Hlf. subst c. split; reflexivity.
    + destruct s as [|d s]; [constructor|].
      apply IH; [|exact Hs]. apply (ends_with_lf_tail c); [exact He | discriminate].
  - destruct s as [|d s].
    + destruct He as [He | He]; [discriminate|].
      simpl in He. injection He as ->. discriminate Hlf.
    + assert (IH' : Forall proper_line (lines_of (String d s))).
      { apply IH; [|exact Hs].
        apply (ends_with_lf_tail c); [exact He | discriminate]. }
      pose proof (lines_of_nonempty d s) as Hne.
      destruct (lines_of (String d s)) as [|l ls]; [contradiction|].
      inversion IH' as [|? ? (body & -> & Hb) Hls]; subst.
      constructor; [|exact Hls].
      exists (String c body). split; [reflexivity|].
      simpl. rewrite Hb. unfold not_linebreak, not_lf. now rewrite Hlf, Hc.
Qed.

Lemma proper_line_no_cr (l : string) :
  proper_line l → all_chars not_cr l = true.
Proof.
  intros (body & -> & Hb). rewrite all_chars_app.
  apply andb_true_iff. split; [|reflexivity].
  apply (all_chars_weaken not_linebreak); [|exact Hb].
  intros c H. unfold not_linebreak in H. now apply andb_true_iff in H as [_ H].
Qed.

Lemma join_no_cr (ls : list string) :
  Forall proper_line ls → all_chars not_cr (join ls) = true.
Proof.
  induction 1 as [|l ls Hl _ IH]; [reflexivity|].
  simpl. rewrite all_chars_app, IH, (proper_line_no_cr l Hl). reflexivity.
Qed.

(** Reading back a file written from proper lines gives those lines. *)
Lemma readlines_join (ls : list string) :
  Forall proper_line ls → readlines (join ls) = ls.
Proof.
  intros H. unfold readlines.
  rewrite universal_newlines_id by now apply join_no_cr.
  induction H as [|l ls (body & -> & Hb) _ IH]; [reflexivity|].
  simpl. rewrite app_assoc, lines_of_line, IH; [reflexivity|].
  apply (all_chars_weaken not_linebreak); [|exact Hb].
  intros c H. unfold not_linebreak in H. now apply andb_true_iff in H as [H _].
Qed.

Lemma delete_loop_Forall (P : string → Prop) (mp : string) (skip : bool)
    (lines : list string) :
  Forall P lines → Forall P (delete_loop mp skip lines).
Proof.
  intros H. revert skip. induction H as [|l ls Hl _ IH]; intros skip.
  - constructor.
  - cbn [delete_loop]. destruct (_ && _); [apply IH|].
    destruct (_ && _); [apply IH|]. constructor; [exact Hl | apply IH].
Qed.

Lemma rstrip_cons (c : ascii) (x : string) :
  isspace c = false → ∃ r, rstrip (String c x) = String c r.
Proof.
  intros Hc. simpl. destruct (rstrip x).
  - rewrite Hc. now eexists.
  - now eexists.
Qed.

(** A line whose first character is the hash sign is a comment. *)
Lemma is_comment_hash (x : string) : is_comment (String "#" x) = true.
Proof.
  unfold is_comment, strip. cbn [lstrip].
  change (isspace "#") with false. cbv iota.
  destruct (rstrip_cons "#" x eq_refl) as (r & ->). reflexivity.
Qed.

Lemma digit_not_linebreak (n : N) : not_linebreak (Datetime.digit n) = true.
Proof.
  unfold Datetime.digit.
  assert (H : (n mod 10 < 10)%N) by (apply N.mod_lt; lia).
  destruct (n mod 10)%N as [|q]; [reflexivity|].
  repeat (destruct q as [q|q|]; try reflexivity; try lia).
Qed.

Lemma d2_not_linebreak (n : N) : all_chars not_linebreak (Datetime.d2 n) = true.
Proof.
  unfold Datetime.d2. simpl. now rewrite !digit_not_linebreak.
Qed.

Lemma str_not_linebreak (now : datetime) :
  all_chars not_linebreak (Datetime.str now) = true.
Proof.
  unfold Datetime.str, Datetime.d6, Datetime.d4.
  destruct (microsecond now =? 0)%N;
    rewrite ?all_chars_app, ?d2_not_linebreak; reflexivity.
Qed.

Lemma provenance_line_not_linebreak (now : datetime) :
  all_chars not_linebreak (provenance_line now) = true.
Proof.
  unfold provenance_line. rewrite !all_chars_app, str_not_linebreak. reflexivity.
Qed.

End LineFacts.

(** ** Appending an entry and deleting it again *)

Module AddDelete.
Import Str TextIO MountManager MountSpec StrFacts TextFacts DeleteMount
  DeleteSpec LineFacts AddMount.

#[local] Arguments String.append !s1 s2 : simpl nomatch.

Lemma not_linebreak_not_lf (s : string) :
  all_chars not_linebreak s = true → all_chars not_lf s = true.
Proof.
  apply all_chars_weaken. intros c H. unfold not_linebreak in H.
  now apply andb_true_iff in H as [H _].
Qed.

Lemma not_linebreak_not_cr (s : string) :
  all_chars not_linebreak s = true → all_chars not_cr s = true.
Proof.
  apply all_chars_weaken. intros c H. unfold not_linebreak in H.
  now apply andb_true_iff in H as [_ H].
Qed.

Lemma entry_text_lines (now : datetime) (r mp t o : string) :
  all_chars not_linebreak (fstab_line r mp t o) = true →
  lines_of (entry_text now r mp t o)
  = [NL; provenance_line now +:+ NL; fstab_line r mp t o +:+ NL].
Proof.
  intros Hl. unfold entry_text.
  etransitivity; [exact (lines_of_line "" _ eq_refl)|].
  apply (f_equal (cons NL)).
  rewrite lines_of_line
    by apply not_linebreak_not_lf, provenance_line_not_linebreak.
  apply (f_equal (cons _)).
  exact (lines_of_line _ "" (not_linebreak_not_lf _ Hl)).
Qed.

Lemma entry_text_no_cr (now : datetime) (r mp t o : string) :
  all_chars not_linebreak (fstab_line r mp t o) = true →
  all_chars not_cr (entry_text now r mp t o) = true.
Proof.
  intros Hl. unfold entry_text. rewrite !all_chars_app.
  rewrite (not_linebreak_not_cr _ Hl).
  rewrite (not_linebreak_not_cr _ (provenance_line_not_linebreak now)).
  reflexivity.
Qed.

Lemma entry_text_last (now : datetime) (r mp t o : string) :
  last_char (entry_text now r mp t o) = Some LF.
Proof.
  unfold entry_text.
  replace (NL +:+ provenance_line now +:+ NL +:+ fstab_line r mp t o +:+ NL)
    with ((NL +:+ provenance_line now +:+ NL +:+ fstab_line r mp t o) +:+ NL)
    by now rewrite !app_assoc.
  now rewrite last_char_app by discriminate.
Qed.

Lemma fstab_line_contains (r mp t o : string) :
  contains mp (fstab_line r mp t o +:+ NL) = true.
Proof.
  apply contains_app_r. unfold fstab_line.
  apply contains_app_l, (contains_app_l _ TAB), contains_here, startswith_app.
Qed.

Lemma provenance_is_comment (now : datetime) :
  is_comment (provenance_line now +:+ NL) = true.
Proof. apply is_comment_hash. Qed.

Lemma all_chars_replace_char (P : ascii → bool) (a : ascii) (b s : string) :
  all_chars P b = true → all_chars P s = true →
  all_chars P (replace_char a b s) = true.
Proof.
  intros Hb. induction s as [|c s IH]; [reflexivity|].
  cbn [all_chars replace_char]. intros H.
  apply andb_true_iff in H as [Hc Hs].
  destruct (Ascii.eqb c a).
  - rewrite all_chars_app, Hb. now apply IH.
  - cbn [all_chars]. rewrite Hc. now apply IH.
Qed.

Lemma creds_path_not_linebreak (D mp : string) :
  all_chars not_linebreak D = true → all_chars not_linebreak mp = true →
  all_chars not_linebreak (creds_path D mp) = true.
Proof.
  intros HD Hmp. unfold creds_path, Os.path_join.
  assert (Hb : all_chars not_linebreak
                 ("creds_" +:+ replace_char "/" "_" mp +:+ ".txt") = true).
  { rewrite !all_chars_app.
    rewrite (all_chars_replace_char not_linebreak "/" "_" mp eq_refl Hmp).
    reflexivity. }
  set (b := "creds_" +:+ replace_char "/" "_" mp +:+ ".txt") in *.
  destruct (startswith "/" b); [exact Hb|].
  destruct (_ || _); rewrite !all_chars_app, HD, Hb; reflexivity.
Qed.

Lemma final_options_not_linebreak (D mp u p o : string) :
  all_chars not_linebreak D = true → all_chars not_linebreak mp = true →
  all_chars not_linebreak o = true →
  all_chars not_linebreak (with_defaults (with_credentials D mp u p o)) = true.
Proof.
  intros HD Hmp Ho.
  pose proof (creds_path_not_linebreak D mp HD Hmp) as Hc.
  assert (Hw : all_chars not_linebreak (with_credentials D mp u p o) = true).
  { unfold with_credentials. set (c := creds_path D mp) in *.
    destruct (_ && _); [|exact Ho].
    destruct (negb _); rewrite !all_chars_app, ?Ho, Hc; reflexivity. }
  unfold with_defaults. set (w := with_credentials D mp u p o) in *.
  destruct (String.eqb _ ""); [reflexivity|].
  destruct (negb _); [|exact Hw]. rewrite !all_chars_app, Hw. reflexivity.
Qed.

Lemma fstab_line_not_linebreak (r mp t o : string) :
  all_chars not_linebreak r = true → all_chars not_linebreak mp = true →
  all_chars not_linebreak t = true → all_chars not_linebreak o = true →
  all_chars not_linebreak (fstab_line r mp t o) = true.
Proof.
  intros Hr Hmp Ht Ho. unfold fstab_line.
  rewrite !all_chars_app, Hr, Hmp, Ht, Ho. reflexivity.
Qed.

Lemma join_app (a b : list string) : join (a ++ b) = join a +:+ join b.
Proof.
  induction a as [|x a IH]; [reflexivity|].
  cbn [app join]. now rewrite IH, app_assoc.
Qed.

Lemma rstrip_prefix (p x : string) (c : ascii) :
  last_char p = Some c → isspace c = false →
  ∃ r, rstrip (p +:+ x) = p +:+ r.
Proof.
  intros Hl Hc. induction p as [|a p IH]; [discriminate|].
  destruct p as [|b p].
  - injection Hl as ->. exact (rstrip_cons c x Hc).
  - destruct (IH Hl) as (r & Hr). exists r.
    change (String a (String b p) +:+ x) with (String a (String b p +:+ x)).
    cbn [rstrip]. cbn [rstrip] in Hr. rewrite Hr. reflexivity.
Qed.

Lemma provenance_is_provenance (now : datetime) :
  is_provenance (provenance_line now +:+ NL) = true.
Proof.
  unfold is_provenance, provenance_line, strip.
  change (lstrip ((PROVENANCE +:+ " - " +:+ Datetime.str now) +:+ NL))
    with ((PROVENANCE +:+ " - " +:+ Datetime.str now) +:+ NL).
  rewrite !StrFacts.app_assoc.
  destruct (rstrip_prefix PROVENANCE (" - " +:+ Datetime.str now +:+ NL) "r"
              eq_refl eq_refl) as (r & ->).
  apply startswith_app.
Qed.

(** The lines of the table once [add_mount] has appended to it: those of
    the table with its last line ended, the comment, the entry. *)
Lemma readlines_appended (now : datetime) (r mp t o table : string) :
  all_chars not_linebreak (fstab_line r mp t o) = true →
  readlines (table +:+ entry_text now r mp t o)
  = (readlines (table +:+ NL)
     ++ [provenance_line now +:+ NL; fstab_line r mp t o +:+ NL])%list.
Proof.
  intros Hl. unfold entry_text.
  replace (table +:+ NL +:+ provenance_line now +:+ NL
           +:+ fstab_line r mp t o +:+ NL)
    with ((table +:+ NL)
          +:+ ((provenance_line now +:+ NL) +:+ (fstab_line r mp t o +:+ NL)))
    by now rewrite !app_assoc.
  rewrite readlines_app.
  - f_equal.
    rewrite app_assoc, lines_of_line
      by apply not_linebreak_not_lf, provenance_line_not_linebreak.
    f_equal. exact (lines_of_line _ "" (not_linebreak_not_lf _ Hl)).
  - right. now rewrite last_char_app by discriminate.
  - rewrite !all_chars_app.
    rewrite (not_linebreak_not_cr _ Hl).
    rewrite (not_linebreak_not_cr _ (provenance_line_not_linebreak now)).
    reflexivity.
Qed.

Lemma delete_loop_app (mp : string) (skip : bool) (a b : list string) :
  delete_loop mp skip (a ++ b)
  = (delete_loop mp skip a ++ delete_loop mp (skip_after mp skip a) b)%list.
Proof.
  revert skip. induction a as [|l a IH]; intros skip; [reflexivity|].
  cbn [app delete_loop skip_after].
  fold (is_comment l). fold (matches mp l). fold (is_provenance l).
  destruct (matches mp l); [apply IH|].
  destruct (skip && is_provenance l); [apply IH|].
  cbn [app]. now rewrite IH.
Qed.

Lemma pending_cons_unmatched (mp l : string) (rest : list string) :
  matches mp l = false → pending mp (l :: rest) ↔ pending mp rest.
Proof.
  intros Hm. unfold pending. split.
  - intros ([|j] & lj & Hj & Hmj & Hno).
    + injection Hj as <-. congruence.
    + exists j, lj. repeat split; [exact Hj | exact Hmj|].
      intros k lk Hk Hlk. apply (Hno (S k)); [lia | exact Hlk].
  - intros (j & lj & Hj & Hmj & Hno). exists (S j), lj.
    repeat split; [exact Hj | exact Hmj|].
    intros [|k] lk Hk Hlk; [lia|]. apply (Hno k); [lia | exact Hlk].
Qed.

Lemma skip_after_spec (mp : string) (lines : list string) :
  ∀ skip,
    skip_after mp skip lines = true ↔
    pending mp lines ∨
    (skip = true ∧ ∀ k lk, lines !! k = Some lk → is_provenance lk = false).
Proof.
  induction lines as [|l rest IH]; intros skip.
  - cbn [skip_after]. split.
    + intros ->. right. split; [reflexivity|]. intros k lk H. discriminate.
    + intros [(j & lj & Hj & _) | [-> _]]; [discriminate | reflexivity].
  - cbn [skip_after]. destruct (matches mp l) eqn:Hm.
    + pose proof (matches_not_provenance _ _ Hm) as Hnp.
      rewrite IH. split.
      * intros [(j & lj & Hj & Hmj & Hno) | [_ Hno]]; left.
        -- exists (S j), lj. repeat split; [exact Hj | exact Hmj|].
           intros [|k] lk Hk Hlk; [lia|]. apply (Hno k); [lia | exact Hlk].
        -- exists 0%nat, l. repeat split; [exact Hm|].
           intros [|k] lk Hk Hlk; [lia|]. exact (Hno k lk Hlk).
      * intros [([|j] & lj & Hj & Hmj & Hno) | [_ Hno]].
        -- right. split; [reflexivity|]. intros k lk Hlk.
           apply (Hno (S k)); [lia | exact Hlk].
        -- left. exists j, lj. repeat split; [exact Hj | exact Hmj|].
           intros k lk Hk Hlk. apply (Hno (S k)); [lia | exact Hlk].
        -- right. split; [reflexivity|]. intros k lk Hlk.
           exact (Hno (S k) lk Hlk).
    + rewrite (pending_cons_unmatched mp l rest Hm).
      destruct (skip && is_provenance l) eqn:Hsp.
      * apply andb_true_iff in Hsp as [-> Hp]. rewrite IH. split.
        -- intros [H | [H _]]; [left; exact H | discriminate].
        -- intros [H | [_ Hno]]; [left; exact H|].
           specialize (Hno 0%nat l eq_refl). congruence.
      * rewrite IH. split.
        -- intros [H | [-> Hno]]; [left; exact H|]. right.
           split; [reflexivity|]. intros [|k] lk Hlk.
           ++ injection Hlk as <-. exact Hsp.
           ++ exact (Hno k lk Hlk).
        -- intros [H | [-> Hno]]; [left; exact H|]. right.
           split; [reflexivity|]. intros k lk Hlk. exact (Hno (S k) lk Hlk).
Qed.

Lemma skip_after_pending (mp : string) (lines : list string) :
  skip_after mp false lines = true ↔ pending mp lines.
Proof.
  rewrite skip_after_spec. split; [|auto].
  intros [H | [H _]]; [exact H | discriminate].
Qed.

(** The loop over the two lines that [add_mount] wrote, entered with the
    flag [skip]. *)
Lemma delete_loop_tail (now : datetime) (r mp t o : string) (skip : bool) :
  delete_loop mp skip [provenance_line now +:+ NL; fstab_line r mp t o +:+ NL]
  = ((if skip then [] else [provenance_line now +:+ NL])
     ++ (if is_comment (fstab_line r mp t o +:+ NL)
         then [fstab_line r mp t o +:+ NL] else []))%list.
Proof.
  set (P := provenance_line now +:+ NL). set (E := fstab_line r mp t o +:+ NL).
  assert (HP : is_comment P = true) by apply provenance_is_comment.
  assert (HPP : is_provenance P = true) by apply provenance_is_provenance.
  assert (HE : contains mp E = true) by apply fstab_line_contains.
  assert (Hlast : delete_loop mp false [E]
                  = if is_comment E then [E] else []).
  { cbn [delete_loop]. fold (is_comment E). rewrite HE.
    destruct (is_comment E); reflexivity. }
  cbn [delete_loop]. fold (is_comment P). fold (is_provenance P).
  fold (is_comment E). fold (is_provenance E).
  rewrite HP, HPP. cbn [negb]. rewrite andb_false_r, andb_true_r.
  destruct skip; cbn [app andb].
  - exact Hlast.
  - f_equal. exact Hlast.
Qed.

Lemma comment_line_spelled (now : datetime) :
  provenance_line now +:+ NL = comment_line now.
Proof.
  unfold provenance_line, comment_line, PROVENANCE, NL.
  rewrite !StrFacts.app_assoc. reflexivity.
Qed.

Lemma entry_line_spelled (r mp t o : string) :
  fstab_line r mp t o +:+ NL = entry_line r mp t o.
Proof.
  unfold fstab_line, entry_line, TAB, NL.
  rewrite !StrFacts.app_assoc. reflexivity.
Qed.

(** C2, as the code has it.  Let a successful [add_mount] of an entry whose
    remote, mountpoint, type and options, and the credentials directory,
    hold no line break be followed by a successful [delete_mount] of the
    entry's mountpoint.  Then the table before was valid text; [add_mount]
    appended a line feed, the provenance comment and the entry to it; and
    the table after the two calls is made of the lines of the first table,
    as text mode reads them once that line feed ends its last line, kept
    verbatim and in order except those that [delete_mount] omits by
    position (the non-comment lines that contain the mountpoint, and the
    provenance comments after such a line), followed by the provenance
    comment that [add_mount] wrote, unless a matching line of the table has
    no provenance comment after it, and by the entry itself only if its
    line is a comment.  When no line of the table contains the mountpoint,
    the table after the two calls is the first table with its line ends
    normalised, that line feed and the provenance comment. *)
Theorem add_then_delete_table (D : string) (now : datetime)
    (r mp t u p o msg1 msg2 : string) (fs fs1 fs2 : FS) :
  all_chars not_linebreak (r +:+ mp +:+ t +:+ o +:+ D) = true →
  add_mount D now r mp t u p o fs = (inr (true, msg1), fs1) →
  delete_mount mp fs1 = (inr (true, msg2), fs2) →
  ∃ (table options' table2 : string) (mask : list bool),
    files fs !! FSTAB = Some (Text table) ∧
    files fs1 !! FSTAB
    = Some (Text (table +:+ appended_text now r mp t options')) ∧
    files fs2 !! FSTAB = Some (Text table2) ∧
    length mask = length (readlines (table +:+ String LF "")) ∧
    (∀ i, mask !! i = Some false
          ↔ omitted mp (readlines (table +:+ String LF "")) i) ∧
    (pending mp (readlines (table +:+ String LF "")) →
     table2
     = join (select mask (readlines (table +:+ String LF "")))
       +:+ (if is_comment (entry_line r mp t options')
            then entry_line r mp t options' else "")) ∧
    (¬ pending mp (readlines (table +:+ String LF "")) →
     table2
     = join (select mask (readlines (table +:+ String LF "")))
       +:+ comment_line now
       +:+ (if is_comment (entry_line r mp t options')
            then entry_line r mp t options' else "")) ∧
    ((∀ line, line ∈ readlines (table +:+ String LF "") →
              contains mp line = false) →
     is_comment (entry_line r mp t options') = false →
     table2 = universal_newlines (table +:+ String LF "") +:+ comment_line now).
Proof.
  intros Hnl Hadd Hdel.
  rewrite !all_chars_app in Hnl.
  apply andb_true_iff in Hnl as [Hr Hnl].
  apply andb_true_iff in Hnl as [Hmp Hnl].
  apply andb_true_iff in Hnl as [Ht Hnl].
  apply andb_true_iff in Hnl as [Ho HD].
  apply add_mount_success_inv in Hadd as (c & _ & Hf & Hfiles1 & _).
  apply delete_mount_success_inv in Hdel as (c1 & Hf1 & Hfiles2).
  rewrite Hfiles1, lookup_insert_eq in Hf1.
  destruct c as [table|bad]; [|discriminate].
  injection Hf1 as <-.
  set (o' := with_defaults (with_credentials D mp u p o)) in *.
  assert (Hline : all_chars not_linebreak (fstab_line r mp t o') = true).
  { apply fstab_line_not_linebreak; try assumption.
    now apply final_options_not_linebreak. }
  rewrite (readlines_appended now r mp t o' table Hline) in Hfiles2.
  rewrite delete_loop_app, delete_loop_tail, !join_app in Hfiles2.
  rewrite comment_line_spelled, entry_line_spelled in Hfiles2.
  change NL with (String LF "") in Hfiles2.
  set (L0 := readlines (table +:+ String LF "")) in *.
  destruct (delete_loop_mask mp L0 false) as (mask & Hlen & Hloop & Hmask).
  rewrite Hloop in Hfiles2.
  assert (Htail : join (if is_comment (entry_line r mp t o')
                        then [entry_line r mp t o'] else [])
                  = if is_comment (entry_line r mp t o')
                    then entry_line r mp t o' else "").
  { destruct (is_comment _); [apply StrFacts.app_nil_r | reflexivity]. }
  rewrite Htail in Hfiles2.
  pose proof (skip_after_pending mp L0) as Hpend.
  eexists table, o', _, mask.
  split; [exact Hf|].
  split; [rewrite Hfiles1, lookup_insert_eq; cbn [Os.extended];
          now rewrite entry_text_spelled|].
  split; [rewrite Hfiles2; apply lookup_insert_eq|].
  split; [exact Hlen|].
  split; [intros i; rewrite Hmask; apply omitted_from_false|].
  split; [|split].
  - intros Hp. apply Hpend in Hp. rewrite Hp. reflexivity.
  - intros Hp. destruct (skip_after mp false L0) eqn:Hs.
    + destruct Hp. now apply (skip_after_pending mp L0).
    + cbn [join]. rewrite StrFacts.app_nil_r. reflexivity.
  - intros Habsent Hc. fold L0 in Habsent.
    assert (Hs : skip_after mp false L0 = false).
    { destruct (skip_after mp false L0) eqn:Hs; [|reflexivity].
      apply (skip_after_pending mp L0) in Hs as (j & lj & Hj & Hm & _).
      apply list_elem_of_lookup_2 in Hj. apply Habsent in Hj.
      unfold matches in Hm. rewrite Hj in Hm. discriminate. }
    rewrite Hs, Hc, <- Hloop, (delete_loop_unmatched _ _ Habsent).
    cbn [join]. rewrite !StrFacts.app_nil_r.
    unfold L0. now rewrite join_readlines.
Qed.

Lemma add_then_delete_table_witness :
  ∃ (table options' table2 : string) (mask : list bool),
    files mounted_fs !! FSTAB = Some (Text table) ∧
    files (snd (add_mount "/etc/samba/credentials" example_now
                  "//srv/b" "/mnt/y" "cifs" "" "" "ro" mounted_fs)) !! FSTAB
    = Some (Text (table +:+ appended_text example_now "//srv/b" "/mnt/y"
                              "cifs" options')) ∧
    files (snd (delete_mount "/mnt/y"
                  (snd (add_mount "/etc/samba/credentials" example_now
                          "//srv/b" "/mnt/y" "cifs" "" "" "ro" mounted_fs))))
      !! FSTAB = Some (Text table2) ∧
    length mask = length (readlines (table +:+ String LF "")) ∧
    (∀ i, mask !! i = Some false
          ↔ omitted "/mnt/y" (readlines (table +:+ String LF "")) i) ∧
    (pending "/mnt/y" (readlines (table +:+ String LF "")) →
     table2
     = join (select mask (readlines (table +:+ String LF "")))
       +:+ (if is_comment (entry_line "//srv/b" "/mnt/y" "cifs" options')
            then entry_line "//srv/b" "/mnt/y" "cifs" options' else "")) ∧
    (¬ pending "/mnt/y" (readlines (table +:+ String LF "")) →
     table2
     = join (select mask (readlines (table +:+ String LF "")))
       +:+ comment_line example_now
       +:+ (if is_comment (entry_line "//srv/b" "/mnt/y" "cifs" options')
            then entry_line "//srv/b" "/mnt/y" "cifs" options' else "")) ∧
    ((∀ line, line ∈ readlines (table +:+ String LF "") →
              contains "/mnt/y" line = false) →
     is_comment (entry_line "//srv/b" "/mnt/y" "cifs" options') = false →
     table2
     = universal_newlines (table +:+ String LF "")
       +:+ comment_line example_now).
Proof.
  apply (add_then_delete_table "/etc/samba/credentials" example_now
           "//srv/b" "/mnt/y" "cifs" "" "" "ro"
           "Mount added successfully" "Mount removed from fstab" mounted_fs).
  - reflexivity.
  - vm_compute; reflexivity.
  - vm_compute; reflexivity.
Defined.

(** C2 as stated fails: on the empty table, appending the entry for
    /mnt/x and deleting /mnt/x leaves two lines, a blank one and the
    provenance comment, neither of which contains the mountpoint and neither
    of which was in the table before. *)
Lemma add_then_delete_leaves_lines :
  let fs1 := snd (add_mount "/etc/samba/credentials" example_now
                    "//srv/share" "/mnt/x" "cifs" "" "" "" example_fs) in
  let fs2 := snd (delete_mount "/mnt/x" fs1) in
  fst (delete_mount "/mnt/x" fs1) = inr (true, "Mount removed from fstab") ∧
  files example_fs !! FSTAB = Some (Text "") ∧
  files fs2 !! FSTAB
    = Some (Text (NL +:+ "# Added by Samba Control Center - 2026-01-31 12:00:05.000123"
                  +:+ NL)) ∧
  List.filter (lacks "/mnt/x")
    (readlines (Os.text_of (default (Text "") (files fs2 !! FSTAB))))
  ≠ List.filter (lacks "/mnt/x")
      (readlines (Os.text_of (default (Text "") (files example_fs !! FSTAB)))).
Proof.
  repeat split; try (vm_compute; reflexivity).
  vm_compute. discriminate.
Qed.

End AddDelete.

(** ** [delete_mount] on the whole file *)

Module DeleteClaims.
Import Str TextIO MountManager MountSpec StrFacts TextFacts DeleteMount
  DeleteSpec.

Lemma delete_mount_undecodable_table (mp : string) (u : undecodable)
    (fs : FS) :
  files fs !! FSTAB = Some (Undecodable u) →
  ∃ fs' : FS,
    delete_mount mp fs
    = (inr (false, "Error removing mount: " +:+ reason u), fs') ∧
    files fs' !! FSTAB = Some (Undecodable u) ∧
    files fs' !! FSTAB_BAK = Some (Undecodable u).
Proof.
  intros Hf.
  destruct (delete_mount_undecodable mp u fs Hf) as (fs' & Hrun & Hfiles).
  exists fs'. split; [exact Hrun|]. rewrite Hfiles. split.
  - now rewrite lookup_insert_ne by discriminate.
  - apply lookup_insert_eq.
Qed.

(** C3, as the code has it.  On every mount table that is valid text,
    [delete_mount] succeeds and rewrites it from the lines that text mode
    delivers (line ends normalised to a line feed), keeping them verbatim
    and in order except those omitted: the non-comment lines that contain
    the mountpoint, and every provenance comment that has such a line
    somewhere before it with no other provenance comment in between.  On a
    table whose bytes are no valid text, the strict read raises after the
    backup was made: the call returns False with the message of the codec
    and the table stays as it is. *)
Theorem delete_mount_omits_by_position (mp : string) (fs : FS) :
  (∀ table : string,
     files fs !! FSTAB = Some (Text table) →
     ∃ (fs' : FS) (mask : list bool),
       delete_mount mp fs = (inr (true, "Mount removed from fstab"), fs') ∧
       length mask = length (readlines table) ∧
       files fs' !! FSTAB
       = Some (Text (join (select mask (readlines table)))) ∧
       ∀ i, mask !! i = Some false ↔ omitted mp (readlines table) i) ∧
  (∀ u : undecodable,
     files fs !! FSTAB = Some (Undecodable u) →
     ∃ fs' : FS,
       delete_mount mp fs
       = (inr (false, "Error removing mount: " +:+ reason u), fs') ∧
       files fs' !! FSTAB = Some (Undecodable u) ∧
       files fs' !! FSTAB_BAK = Some (Undecodable u)).
Proof.
  split; [|intros u Hu; exact (delete_mount_undecodable_table mp u fs Hu)].
  intros table Hf.
  destruct (delete_mount_run mp table fs Hf) as (fs' & Hrun & Hfiles).
  destruct (delete_loop_mask mp (readlines table) false)
    as (mask & Hlen & Hloop & Hmask).
  exists fs', mask. repeat split.
  - exact Hrun.
  - exact Hlen.
  - rewrite Hfiles, lookup_insert_eq, Hloop. reflexivity.
  - intros H. apply omitted_from_false, Hmask, H.
  - intros H. apply Hmask, omitted_from_false, H.
Qed.

Lemma delete_mount_omits_by_position_witness :
  ∃ (fs' : FS) (mask : list bool),
    delete_mount "/mnt/x" (mkFS {[ FSTAB := Text mixed_table ]} ∅)
    = (inr (true, "Mount removed from fstab"), fs') ∧
    length mask = length (readlines mixed_table) ∧
    files fs' !! FSTAB
    = Some (Text (join (select mask (readlines mixed_table)))) ∧
    ∀ i, mask !! i = Some false ↔ omitted "/mnt/x" (readlines mixed_table) i.
Proof.
  apply (proj1 (delete_mount_omits_by_position "/mnt/x"
                  (mkFS {[ FSTAB := Text mixed_table ]} ∅)) mixed_table).
  vm_compute; reflexivity.
Defined.

(** C3 as stated fails: deleting /mnt/x from [mixed_table] also removes the
    provenance comment of the entry for /mnt/y, two lines further down,
    which the rewrite described in words keeps. *)
Lemma delete_mount_drops_later_comment :
  let fs' :=
    snd (delete_mount "/mnt/x" (mkFS {[ FSTAB := Text mixed_table ]} ∅)) in
  files fs' !! FSTAB
  = Some (Text ("/dev/sda1 / ext4 defaults 0 1" +:+ NL +:+
                "//srv/b /mnt/y cifs ro 0 0" +:+ NL)) ∧
  join (delete_by_words "/mnt/x" false (readlines mixed_table))
  = "/dev/sda1 / ext4 defaults 0 1" +:+ NL +:+
    "# Added by Samba Control Center - 2026-01-31 12:00:05" +:+ NL +:+
    "//srv/b /mnt/y cifs ro 0 0" +:+ NL ∧
  files fs' !! FSTAB
  ≠ Some (Text (join (delete_by_words "/mnt/x" false
                        (readlines mixed_table)))).
Proof.
  repeat split; try (vm_compute; reflexivity).
  vm_compute. discriminate.
Qed.

(** C10, as the code has it.  When the mountpoint occurs in no line of a
    mount table that is valid text, [delete_mount] reports success and
    leaves the table as text mode reads it: every CR LF pair and every lone
    CR has become a line feed.  A table without carriage return is left
    identical.  On a table whose bytes are no valid text the call reports
    no success: it returns False with the message of the codec, and the
    table stays as it is. *)
Theorem delete_absent_mountpoint (mp : string) (fs : FS) :
  (∀ table : string,
     files fs !! FSTAB = Some (Text table) →
     (∀ line, line ∈ readlines table → contains mp line = false) →
     ∃ fs' : FS,
       delete_mount mp fs = (inr (true, "Mount removed from fstab"), fs') ∧
       files fs' !! FSTAB = Some (Text (universal_newlines table)) ∧
       (all_chars not_cr table = true →
        files fs' !! FSTAB = Some (Text table))) ∧
  (∀ u : undecodable,
     files fs !! FSTAB = Some (Undecodable u) →
     ∃ fs' : FS,
       delete_mount mp fs
       = (inr (false, "Error removing mount: " +:+ reason u), fs') ∧
       files fs' !! FSTAB = Some (Undecodable u) ∧
       files fs' !! FSTAB_BAK = Some (Undecodable u)).
Proof.
  split; [|intros u Hu; exact (delete_mount_undecodable_table mp u fs Hu)].
  intros table Hf Habsent.
  destruct (delete_mount_run mp table fs Hf) as (fs' & Hrun & Hfiles).
  exists fs'. split; [exact Hrun|].
  assert (H : files fs' !! FSTAB = Some (Text (universal_newlines table))).
  { rewrite Hfiles, lookup_insert_eq, (delete_loop_unmatched _ _ Habsent).
    now rewrite join_readlines. }
  split; [exact H|]. intros Hcr. now rewrite H, universal_newlines_id.
Qed.

Lemma delete_absent_mountpoint_witness :
  ∃ fs' : FS,
    delete_mount "/mnt/x" (mkFS {[ FSTAB := Text crlf_table ]} ∅)
    = (inr (true, "Mount removed from fstab"), fs') ∧
    files fs' !! FSTAB = Some (Text (universal_newlines crlf_table)) ∧
    (all_chars not_cr crlf_table = true →
     files fs' !! FSTAB = Some (Text crlf_table)).
Proof.
  apply (proj1 (delete_absent_mountpoint "/mnt/x"
                  (mkFS {[ FSTAB := Text crlf_table ]} ∅)) crlf_table);
    [vm_compute; reflexivity|].
  intros line Hl. vm_compute in Hl.
  apply list_elem_of_singleton in Hl. subst line. reflexivity.
Defined.

(** C10 as stated fails: /mnt/x occurs in no line of [crlf_table], the call
    succeeds, and the file is not what it was, its line now ending in a
    bare line feed. *)
Lemma delete_absent_changes_crlf :
  let fs := mkFS {[ FSTAB := Text crlf_table ]} ∅ in
  contains "/mnt/x" crlf_table = false ∧
  fst (delete_mount "/mnt/x" fs) = inr (true, "Mount removed from fstab") ∧
  files (snd (delete_mount "/mnt/x" fs)) !! FSTAB
  = Some (Text ("/dev/sda1 / ext4 defaults 0 1" +:+ NL)) ∧
  files (snd (delete_mount "/mnt/x" fs)) !! FSTAB ≠ files fs !! FSTAB.
Proof.
  repeat split; try (vm_compute; reflexivity).
  vm_compute. discriminate.
Qed.

End DeleteClaims.

(** ** The default options of [add_mount] *)

Module DefaultOptions.
Import Str TextIO MountManager MountSpec StrFacts TextFacts DeleteMount
  LineFacts AddMount AddDelete MountStatus.

#[local] Arguments String.append !s1 s2 : simpl nomatch.

Lemma with_defaults_cases (x : string) :
  contains "_netdev" (with_defaults x) = true ∧
  (contains "_netdev" x = false → contains "_netdev,nofail" (with_defaults x) = true) ∧
  (contains "_netdev" x = true → with_defaults x = x).
Proof.
  unfold with_defaults. destruct (String.eqb x "") eqn:Hx.
  - apply String.eqb_eq in Hx. subst x. repeat split; try reflexivity.
    discriminate.
  - destruct (contains "_netdev" x) eqn:Hc; cbn [negb].
    + repeat split; [exact Hc | discriminate].
    + repeat split; try discriminate.
      * apply contains_app_l, (contains_app_l _ ","), contains_here. reflexivity.
      * intros _. apply contains_app_l, (contains_app_l _ ","), contains_here.
        reflexivity.
Qed.

Lemma parse_blank (active : gset string) : parse_fstab_line active NL = None.
Proof. reflexivity. Qed.

Lemma parse_provenance (active : gset string) (now : datetime) :
  parse_fstab_line active (provenance_line now +:+ NL) = None.
Proof.
  unfold parse_fstab_line.
  pose proof (provenance_is_comment now) as H. unfold is_comment in H.
  rewrite H. now rewrite orb_true_r.
Qed.

Lemma parse_scenario_entry (active : gset string) :
  parse_fstab_line active
    (fstab_line "//srv/share" "/mnt/x" "cifs" "_netdev,nofail" +:+ NL)
  = Some (mkCifsMount "//srv/share" "/mnt/x" "cifs" "_netdev,nofail" None
            (bool_decide ("/mnt/x" ∈ active))).
Proof. reflexivity. Qed.

Lemma with_credentials_spelled (D mp u p o : string) :
  with_credentials D mp u p o = options_with_reference D mp u p o.
Proof.
  unfold with_credentials, options_with_reference.
  destruct (_ && _); [|reflexivity]. now destruct (String.eqb o "").
Qed.

Lemma scenario_empty_table (D : string) (now : datetime) (fs : FS) :
  files fs !! FSTAB = Some (Text "") → creatable "/mnt/x" fs →
  ∃ (fs' : FS) (m : CifsMount),
    add_mount D now "//srv/share" "/mnt/x" "cifs" "" "" "" fs
    = (inr (true, "Mount added successfully"), fs') ∧
    get_fstab_mounts fs' = (inr [m], fs') ∧
    remote m = "//srv/share" ∧ mountpoint m = "/mnt/x" ∧ fstype m = "cifs" ∧
    options m = "_netdev,nofail" ∧ credentials_file m = None.
Proof.
  intros Hf Hmp.
  destruct (add_mount_succeeds D now "//srv/share" "/mnt/x" "cifs" "" "" ""
              (Text "") fs Hmp Hf) as (fs' & Hrun).
  pose proof (add_mount_success_inv _ _ _ _ _ _ _ _ _ _ _ Hrun)
    as (c & _ & Hf' & Hfiles & _).
  rewrite Hf in Hf'. injection Hf' as <-.
  destruct (get_active_mounts_spec fs') as (active & Hact & _).
  exists fs'. eexists. split; [exact Hrun|].
  unfold get_fstab_mounts, bind. rewrite Hact.
  unfold try_except, bind, Os.read_replace, ret.
  rewrite Hfiles, lookup_insert_eq.
  change (with_defaults (with_credentials D "/mnt/x" "" "" ""))
    with "_netdev,nofail".
  cbn [Os.extended Os.text_of].
  rewrite (readlines_app "" _ (or_introl eq_refl))
    by (now apply entry_text_no_cr).
  rewrite entry_text_lines by reflexivity.
  cbn [readlines universal_newlines lines_of app mounts_of_lines omap
       list_omap].
  rewrite parse_blank, parse_provenance, parse_scenario_entry.
  repeat split.
Qed.

(** C5, as the code has it.  A successful [add_mount] appends the line
    feed, the provenance comment and the entry to the mount table.  The
    options of that entry always contain [_netdev]; they are
    [_netdev,nofail] when the option string, as extended by the reference
    to the credentials file, is empty; they are that string followed by
    [,_netdev,nofail] when [_netdev] does not occur in it; and they are
    that string unchanged when [_netdev] occurs in it, with or without
    [nofail].  On an empty mount table, when the mount point /mnt/x can be
    made, [add_mount] with empty username, password and options succeeds
    and [get_fstab_mounts] then returns exactly one entry, with the options
    [_netdev,nofail] and no credentials file. *)
Theorem default_options_applied (D : string) (now : datetime) :
  (∀ (r mp t u p o msg : string) (fs fs' : FS),
     add_mount D now r mp t u p o fs = (inr (true, msg), fs') →
     ∃ (before after : content) (options' : string),
       files fs !! FSTAB = Some before ∧
       files fs' !! FSTAB = Some after ∧
       Os.text_of after
       = Os.text_of before +:+ appended_text now r mp t options' ∧
       contains "_netdev" options' = true ∧
       (options_with_reference D mp u p o = "" →
        options' = "_netdev,nofail") ∧
       (options_with_reference D mp u p o ≠ "" →
        contains "_netdev" (options_with_reference D mp u p o) = false →
        options' = options_with_reference D mp u p o +:+ ",_netdev,nofail") ∧
       (contains "_netdev" (options_with_reference D mp u p o) = true →
        options' = options_with_reference D mp u p o)) ∧
  (∀ fs : FS,
     files fs !! FSTAB = Some (Text "") → creatable "/mnt/x" fs →
     ∃ (fs' : FS) (m : CifsMount),
       add_mount D now "//srv/share" "/mnt/x" "cifs" "" "" "" fs
       = (inr (true, "Mount added successfully"), fs') ∧
       get_fstab_mounts fs' = (inr [m], fs') ∧
       remote m = "//srv/share" ∧ mountpoint m = "/mnt/x" ∧
       fstype m = "cifs" ∧
       options m = "_netdev,nofail" ∧ credentials_file m = None).
Proof.
  split.
  - intros r mp t u p o msg fs fs' Hrun.
    apply add_mount_success_inv in Hrun as (c & _ & Hf & Hfiles & _).
    eexists c, _, (with_defaults (with_credentials D mp u p o)).
    split; [exact Hf|]. split; [rewrite Hfiles; apply lookup_insert_eq|].
    split; [now rewrite text_of_extended, entry_text_spelled|].
    rewrite <- with_credentials_spelled.
    destruct (with_defaults_cases (with_credentials D mp u p o))
      as (H1 & _ & H3).
    split; [exact H1|]. split; [|split; [|exact H3]].
    + intros ->. reflexivity.
    + intros Hne Hc. unfold with_defaults.
      apply String.eqb_neq in Hne. now rewrite Hne, Hc.
  - apply scenario_empty_table.
Qed.

Lemma default_options_applied_witness :
  (∃ (before after : content) (options' : string),
     files mounted_fs !! FSTAB = Some before ∧
     files (snd (add_mount "/etc/samba/credentials" example_now "//srv/share"
                   "/mnt/z" "cifs" "" "" "ro" mounted_fs)) !! FSTAB
     = Some after ∧
     Os.text_of after
     = Os.text_of before
       +:+ appended_text example_now "//srv/share" "/mnt/z" "cifs" options' ∧
     contains "_netdev" options' = true ∧
     (options_with_reference "/etc/samba/credentials" "/mnt/z" "" "" "ro" = "" →
      options' = "_netdev,nofail") ∧
     (options_with_reference "/etc/samba/credentials" "/mnt/z" "" "" "ro" ≠ "" →
      contains "_netdev"
        (options_with_reference "/etc/samba/credentials" "/mnt/z" "" "" "ro")
      = false →
      options'
      = options_with_reference "/etc/samba/credentials" "/mnt/z" "" "" "ro"
        +:+ ",_netdev,nofail") ∧
     (contains "_netdev"
        (options_with_reference "/etc/samba/credentials" "/mnt/z" "" "" "ro")
      = true →
      options'
      = options_with_reference "/etc/samba/credentials" "/mnt/z" "" "" "ro")) ∧
  (∃ (fs' : FS) (m : CifsMount),
     add_mount "/etc/samba/credentials" example_now
       "//srv/share" "/mnt/x" "cifs" "" "" "" example_fs
     = (inr (true, "Mount added successfully"), fs') ∧
     get_fstab_mounts fs' = (inr [m], fs') ∧
     remote m = "//srv/share" ∧ mountpoint m = "/mnt/x" ∧
     fstype m = "cifs" ∧
     options m = "_netdev,nofail" ∧ credentials_file m = None).
Proof.
  split.
  - apply (proj1 (default_options_applied "/etc/samba/credentials" example_now)
             "//srv/share" "/mnt/z" "cifs" "" "" "ro" "Mount added successfully"
             mounted_fs).
    vm_compute; reflexivity.
  - apply (proj2 (default_options_applied "/etc/samba/credentials" example_now)
             example_fs); [vm_compute; reflexivity|].
    split; [vm_compute; reflexivity|].
    intros a Ha. vm_compute in Ha.
    apply list_elem_of_singleton in Ha. subst a. vm_compute; reflexivity.
Defined.

(** C5 as stated fails: with the option string [_netdev], which lacks
    [nofail], the entry is appended with options [_netdev] alone. *)
Lemma nofail_not_added :
  let fs := mkFS {[ FSTAB := Text "" ]} ∅ in
  let run := add_mount "/etc/samba/credentials" example_now
               "//srv/share" "/mnt/x" "cifs" "" "" "_netdev" fs in
  fst run = inr (true, "Mount added successfully") ∧
  contains "_netdev,nofail" "_netdev" = false ∧
  contains "nofail" "_netdev" = false ∧
  fst (get_fstab_mounts (snd run))
  = inr [mkCifsMount "//srv/share" "/mnt/x" "cifs" "_netdev" None false].
Proof. repeat split; vm_compute; reflexivity. Qed.

End DefaultOptions.

(** ** Reasoning about computations *)

Module MonadFacts.
Import Str ConfigParser SambaConfig ConfigSpec.

Lemma bind_inr_inv {S A B} (m : M S A) (k : A → M S B) (s s' : S) (b : B) :
  bind m k s = (inr b, s') →
  ∃ a s1, m s = (inr a, s1) ∧ k a s1 = (inr b, s').
Proof.
  unfold bind. destruct (m s) as [[e|a] s1]; [discriminate|].
  intros H. now exists a, s1.
Qed.

Lemma preserves_ret {A} (I : world → Prop) (a : A) : preserves I (ret a).
Proof. intros w r w' HI [= _ <-]. exact HI. Qed.

Lemma preserves_raise {A} (I : world → Prop) (e : exn) :
  preserves I (@raise world A e).
Proof. intros w r w' HI [= _ <-]. exact HI. Qed.

Lemma preserves_bind {A B} (I : world → Prop) (m : M world A)
    (k : A → M world B) :
  preserves I m → (∀ a, preserves I (k a)) → preserves I (bind m k).
Proof.
  intros Hm Hk w r w' HI. unfold bind.
  destruct (m w) as [[e|a] w1] eqn:E.
  - intros [= _ <-]. exact (Hm _ _ _ HI E).
  - apply Hk. exact (Hm _ _ _ HI E).
Qed.

Lemma preserves_try {A} (I : world → Prop) (body : M world A)
    (handler : exn → M world A) :
  preserves I body → (∀ e, preserves I (handler e)) →
  preserves I (try_except body handler).
Proof.
  intros Hb Hh w r w' HI. unfold try_except.
  destruct (body w) as [[e|a] w1] eqn:E.
  - apply Hh. exact (Hb _ _ _ HI E).
  - intros [= _ <-]. exact (Hb _ _ _ HI E).
Qed.

Lemma preserves_if {A} (I : world → Prop) (b : bool) (m1 m2 : M world A) :
  preserves I m1 → preserves I m2 → preserves I (if b then m1 else m2).
Proof. destruct b; auto. Qed.

Lemma preserves_io {A} (I : world → Prop) (m : IO A) :
  parser_property I → preserves I (io m).
Proof.
  intros HP w r w' HI. unfold io. destruct (m (fs w)) as [r1 fs1].
  intros [= _ <-]. now apply (HP w).
Qed.

Lemma preserves_get_self (I : world → Prop) : preserves I get_self.
Proof. intros w r w' HI [= _ <-]. exact HI. Qed.

Lemma preserves_set_error (I : world → Prop) (msg : string) :
  parser_property I → preserves I (set_error msg).
Proof. intros HP w r w' HI [= _ <-]. now apply (HP w). Qed.

Lemma preserves_query {A} (I : world → Prop) (attr : string)
    (f : ConfigParser.t → A) :
  preserves I (query attr f).
Proof.
  intros w r w' HI. unfold query.
  destruct (parser (self w)); intros [= _ <-]; exact HI.
Qed.

End MonadFacts.

(** ** Section names stay distinct *)

Module Unique.
Import Str ConfigParser SambaConfig ConfigSpec MonadFacts.

Lemma mem_true_iff (x : string) (xs : list string) : mem x xs = true ↔ x ∈ xs.
Proof.
  unfold mem. rewrite existsb_exists. split.
  - intros (y & Hy & E). apply String.eqb_eq in E. subst y.
    now apply list_elem_of_In.
  - intros H. exists x. split; [now apply list_elem_of_In | apply String.eqb_refl].
Qed.

Lemma dict_set_keys {V} (k : string) (v v0 : V) (d : list (string * V)) :
  dict_get k d = Some v0 → map fst (dict_set k v d) = map fst d.
Proof.
  induction d as [|[k' v'] d IH]; [discriminate|]. simpl.
  destruct (String.eqb k k'); [reflexivity|].
  intros H. simpl. now rewrite IH.
Qed.

Lemma dict_del_keys_sub {V} (k : string) (d : list (string * V)) :
  sublist (map fst (dict_del k d)) (map fst d).
Proof.
  induction d as [|[k' v'] d IH]; [constructor|]. simpl.
  destruct (String.eqb k k'); simpl.
  - now apply sublist_cons.
  - now apply sublist_skip.
Qed.

Lemma add_section_sections (section : string) (p p' : ConfigParser.t) :
  add_section section p = inr p' →
  sections p' = (sections p ++ [section])%list ∧ (section ∉ sections p) ∧
  defaults p' = defaults p.
Proof.
  unfold add_section. destruct (String.eqb section DEFAULTSECT); [discriminate|].
  destruct (has_section section p) eqn:Hs; [discriminate|].
  intros [= <-]. unfold sections. simpl. rewrite map_app. repeat split.
  intros Hin. apply mem_true_iff in Hin. unfold has_section, sections in Hs.
  congruence.
Qed.

Lemma set_sections (section key : string) (value : option string)
    (p p' : ConfigParser.t) :
  set section key value p = inr p' → sections p' = sections p.
Proof.
  unfold set. destruct (_ || _).
  - now intros [= <-].
  - destruct (dict_get section (sects p)) as [d|] eqn:Hd; [|discriminate].
    intros [= <-]. unfold sections. simpl. now apply (dict_set_keys _ _ d).
Qed.

Lemma remove_section_unique (section : string) (p : ConfigParser.t) :
  NoDup (sections p) → NoDup (sections (snd (remove_section section p))).
Proof.
  unfold sections. simpl. intros H.
  eapply sublist_NoDup; [exact H | apply dict_del_keys_sub].
Qed.

Lemma sections_unique_parser_property : parser_property sections_unique.
Proof. intros w w' E H p Hp. apply H. now rewrite <- E. Qed.

Lemma preserves_set_parser (p : ConfigParser.t) :
  NoDup (sections p) → preserves sections_unique (set_parser p).
Proof. intros Hp w r w' _ [= _ <-] q [= <-]. exact Hp. Qed.

Lemma preserves_mutate (attr : string)
    (f : ConfigParser.t → exn + ConfigParser.t) :
  (∀ p p', NoDup (sections p) → f p = inr p' → NoDup (sections p')) →
  preserves sections_unique (mutate attr f).
Proof.
  intros Hf w r w' HI. unfold mutate.
  destruct (parser (self w)) as [p|] eqn:Hp; [|intros [= _ <-]; exact HI].
  destruct (f p) as [e|p'] eqn:E; [intros [= _ <-]; exact HI|].
  apply preserves_set_parser; [|exact HI]. apply (Hf p); [|exact E].
  now apply HI.
Qed.

Lemma preserves_mutate_set (section key : string) (value : option string) :
  preserves sections_unique (mutate "set" (set section key value)).
Proof.
  apply preserves_mutate. intros p p' Hp E.
  now rewrite (set_sections _ _ _ _ _ E).
Qed.

Lemma preserves_mutate_add_section (section : string) :
  preserves sections_unique (mutate "add_section" (add_section section)).
Proof.
  apply preserves_mutate. intros p p' Hp E.
  apply add_section_sections in E as (-> & Hnew & _).
  apply NoDup_app. repeat split; [exact Hp | | apply NoDup_singleton].
  intros x Hx Hx'. apply list_elem_of_singleton in Hx'. now subst x.
Qed.

Create HintDb inv.
#[local] Hint Resolve preserves_ret preserves_raise preserves_get_self
  preserves_query preserves_mutate_set preserves_mutate_add_section
  preserves_io preserves_set_error sections_unique_parser_property : inv.

(** Walks through the structure of a computation, leaving the calls that no
    hint covers. *)
Ltac inv_steps :=
  repeat lazymatch goal with
    | |- preserves _ (bind _ _) => apply preserves_bind; [|intros ?]
    | |- preserves _ (try_except _ _) => apply preserves_try; [|intros ?]
    | |- preserves _ (if ?b then _ else _) => destruct b
    | |- preserves _ (match ?x with _ => _ end) => destruct x
    | |- _ => solve [auto with inv]
    end.

Lemma preserves_create_backup (now : datetime) :
  preserves sections_unique (create_backup now).
Proof. unfold create_backup. inv_steps. Qed.

Lemma preserves_save (now : datetime) : preserves sections_unique (save now).
Proof.
  unfold save. pose proof (preserves_create_backup now). inv_steps.
Qed.

Section WithParser.

Variable read_file : string → option exn * ConfigParser.t.

(** A parser holds its sections in a [dict]: no name twice. *)
Hypothesis read_file_unique : ∀ c, NoDup (sections (snd (read_file c))).

Lemma preserves_load : preserves sections_unique (load read_file).
Proof.
  unfold load.
  assert (He : preserves sections_unique (set_parser ConfigParser.empty))
    by (apply preserves_set_parser; constructor).
  assert (Hr : ∀ c, preserves sections_unique (set_parser (snd (read_file c))))
    by (intros c; apply preserves_set_parser, read_file_unique).
  inv_steps.
Qed.

Lemma preserves_ensure_loaded :
  preserves sections_unique (ensure_loaded read_file).
Proof. unfold ensure_loaded. pose proof preserves_load. inv_steps. Qed.

Lemma preserves_add_share (now : datetime) (share : SambaShare) :
  preserves sections_unique (add_share read_file now share).
Proof.
  unfold add_share.
  pose proof preserves_ensure_loaded. pose proof (preserves_save now).
  inv_steps.
Qed.

Lemma preserves_delete_share (now : datetime) (share_name : string) :
  preserves sections_unique (delete_share read_file now share_name).
Proof.
  unfold delete_share.
  pose proof preserves_ensure_loaded. pose proof (preserves_save now).
  assert (preserves sections_unique
            (mutate "remove_section"
               (fun p => inr (snd (remove_section share_name p))))).
  { apply preserves_mutate. intros p p' Hp [= <-].
    now apply remove_section_unique. }
  inv_steps.
Qed.

Lemma preserves_get_shares :
  preserves sections_unique (get_shares read_file).
Proof. unfold get_shares. pose proof preserves_ensure_loaded. inv_steps. Qed.

End WithParser.

End Unique.

(** ** The steps of [add_share] and [delete_share] *)

Module ConfigRuns.
Import Str ConfigParser SambaConfig ConfigSpec MonadFacts Unique StrFacts MountSpec.

#[local] Arguments String.append !s1 s2 : simpl nomatch.

Lemma backup_path_last (now : datetime) :
  last_char (backup_path now) = Some "k"%char.
Proof.
  assert (E : backup_path now
              = ("/etc/samba/backups/smb.conf." +:+ Datetime.strftime_stamp now)
                +:+ ".bak") by reflexivity.
  rewrite E. now rewrite last_char_app by discriminate.
Qed.

Lemma backup_path_not_smb_conf (now : datetime) : SMB_CONF ≠ backup_path now.
Proof.
  intros H. apply (f_equal last_char) in H.
  rewrite backup_path_last in H. discriminate.
Qed.

Lemma mutate_inv (attr : string) (f : ConfigParser.t → exn + ConfigParser.t)
    (w w' : world) (u : unit) :
  mutate attr f w = (inr u, w') →
  ∃ p p', parser (self w) = Some p ∧ f p = inr p' ∧
          w' = mkWorld (mk (config_path (self w)) (Some p') (error (self w)))
                 (fs w).
Proof.
  unfold mutate. destruct (parser (self w)) as [p|]; [|discriminate].
  destruct (f p) as [e|p'] eqn:E; [discriminate|].
  intros [= <-]. now exists p, p'.
Qed.

Lemma query_inv {A} (attr : string) (f : ConfigParser.t → A) (w w' : world)
    (a : A) :
  query attr f w = (inr a, w') →
  w' = w ∧ ∃ p, parser (self w) = Some p ∧ a = f p.
Proof.
  unfold query. destruct (parser (self w)) as [p|]; [|discriminate].
  intros [= <- <-]. split; [reflexivity|]. now exists p.
Qed.

Lemma try_except_true_inv (body : M world bool) (msg : exn → string)
    (w w' : world) :
  try_except body (fun e => set_error (msg e) ;;; ret false)%io w
  = (inr true, w') →
  body w = (inr true, w').
Proof.
  unfold try_except. destruct (body w) as [[e|b] w1]; [discriminate|].
  intros [= -> ->]. reflexivity.
Qed.

(** A successful [save]: the backup first, when the file is there, then the
    file written from the parser. *)
Lemma save_success_inv (now : datetime) (w w' : world) :
  save now w = (inr true, w') →
  ∃ p, parser (self w) = Some p ∧ self w' = self w ∧
       files (fs w')
       = <[config_path (self w) := Text (ConfigParser.write p)]>
           (with_backup now (config_path (self w)) (files (fs w))) ∧
       (is_Some (files (fs w) !! config_path (self w)) →
        config_path (self w) ≠ backup_path now).
Proof.
  intros H. apply try_except_true_inv in H.
  unfold bind, create_backup, bind, get_self, io, Os.isfile, Os.copy2, query,
    Os.write, ret, with_backup in *.
  destruct w as [[cp [p|] err] [fls mds]]; simpl in *.
  - destruct (fls !! cp) as [c|] eqn:Hc; simpl in H.
    + rewrite ?Hc in H.
      destruct (decide (cp = backup_path now)) as [E|E]; [discriminate|].
      simpl in H. injection H as <-. exists p. repeat split.
      intros _. exact E.
    + injection H as <-. exists p. repeat split.
      intros [? ?]; discriminate.
  - destruct (fls !! cp) as [c|] eqn:Hc; simpl in H.
    + rewrite ?Hc in H.
      destruct (decide (cp = backup_path now)); discriminate.
    + discriminate.
Qed.

Section WithParser.

Variable read_file : string → option exn * ConfigParser.t.

(** The guard [if not self.parser: self.load()] returns, leaves the files
    and the path alone, and leaves a parser. *)
Lemma ensure_loaded_spec (w : world) :
  ∃ w1 p, ensure_loaded read_file w = (inr tt, w1) ∧
          fs w1 = fs w ∧ config_path (self w1) = config_path (self w) ∧
          parser (self w1) = Some p ∧
          (∀ p0, parser (self w) = Some p0 → w1 = w).
Proof.
  unfold ensure_loaded, bind, get_self.
  destruct (parser (self w)) as [p0|] eqn:Hp.
  - exists w, p0. split_and!; auto.
  - unfold load, try_except, bind, set_parser, get_self, io, Os.isfile,
      Os.read_replace, set_error, ret, raise.
    cbn [self fs config_path].
    destruct (files (fs w) !! config_path (self w)) as [c|] eqn:Hc.
    + rewrite bool_decide_eq_true_2 by eauto. cbn [fst snd self fs config_path].
      rewrite Hc. cbn [fst snd self fs config_path parser error].
      destruct (fst (read_file (Os.text_of c))); cbn;
        eexists _, _; (split_and!; [reflexivity..|discriminate]).
    + rewrite bool_decide_eq_false_2 by (intros [? ?]; discriminate).
      cbn. eexists _, _. split_and!; [reflexivity..|discriminate].
Qed.

(** A name that is already a section: [add_share] stops before it touches
    the parser or the files. *)
Lemma add_share_existing (now : datetime) (share : SambaShare)
    (w w1 : world) (p : ConfigParser.t) :
  ensure_loaded read_file w = (inr tt, w1) →
  parser (self w1) = Some p →
  has_section (name share) p = true →
  add_share read_file now share w
  = (inr false,
     mkWorld (mk (config_path (self w1)) (Some p)
                (Some ("Share '" +:+ name share +:+ "' already exists")))
       (fs w1)).
Proof.
  intros Hl Hp Hs. unfold add_share, bind at 1. rewrite Hl.
  unfold try_except, bind at 1, query. rewrite Hp, Hs.
  unfold bind, set_error, ret. now rewrite Hp.
Qed.

End WithParser.

End ConfigRuns.

(** ** Successful runs of [add_share] and [delete_share] *)

Module ConfigSuccess.
Import Str ConfigParser SambaConfig ConfigSpec MonadFacts Unique StrFacts
  MountSpec ConfigRuns.

Lemma same_files_refl (w : world) : same_files w w.
Proof. split; reflexivity. Qed.

Lemma mutate_same_files (attr : string)
    (f : ConfigParser.t → exn + ConfigParser.t) (w0 w w' : world) (u : unit) :
  same_files w0 w → mutate attr f w = (inr u, w') → same_files w0 w'.
Proof.
  intros [Hf Hc] H. apply mutate_inv in H as (p & p' & _ & _ & ->).
  split; assumption.
Qed.

Lemma optional_mutate_same_files (b : bool) (attr : string)
    (f : ConfigParser.t → exn + ConfigParser.t) (w0 w w' : world) (u : unit) :
  same_files w0 w →
  (if b then mutate attr f else ret tt) w = (inr u, w') → same_files w0 w'.
Proof.
  intros Hs. destruct b.
  - now apply mutate_same_files.
  - unfold ret. intros H. injection H as _ <-. exact Hs.
Qed.

(** Peels the next step off a run that returned a value. *)
Ltac next_step H Hs :=
  let a := fresh "a" in let w2 := fresh "w" in let Hstep := fresh "Hstep" in
  apply bind_inr_inv in H as (a & w2 & Hstep & H);
  first [ apply (mutate_same_files _ _ _ _ _ _ Hs) in Hstep
        | apply (optional_mutate_same_files _ _ _ _ _ _ _ Hs) in Hstep ];
  clear Hs; rename Hstep into Hs.

Section WithParser.

Variable read_file : string → option exn * ConfigParser.t.

Lemma add_share_success_inv (now : datetime) (share : SambaShare)
    (w w' : world) :
  add_share read_file now share w = (inr true, w') →
  ∃ w2, same_files w w2 ∧ save now w2 = (inr true, w').
Proof.
  intros H. unfold add_share in H.
  apply bind_inr_inv in H as ([] & w1 & Hl & H).
  destruct (ensure_loaded_spec read_file w) as (w1' & p & Hl' & Hf & Hc & _).
  rewrite Hl in Hl'. injection Hl' as <-.
  assert (Hs : same_files w w1) by (split; assumption).
  apply try_except_true_inv in H.
  apply bind_inr_inv in H as (b & w2 & Hq & H).
  apply query_inv in Hq as [-> _].
  destruct b.
  - unfold bind, set_error, ret in H. discriminate.
  - do 9 next_step H Hs. eexists. split; eassumption.
Qed.

Lemma delete_share_success_inv (now : datetime) (share_name : string)
    (w w' : world) :
  delete_share read_file now share_name w = (inr true, w') →
  ∃ w2, same_files w w2 ∧ save now w2 = (inr true, w').
Proof.
  intros H. unfold delete_share in H.
  apply bind_inr_inv in H as ([] & w1 & Hl & H).
  destruct (ensure_loaded_spec read_file w) as (w1' & p & Hl' & Hf & Hc & _).
  rewrite Hl in Hl'. injection Hl' as <-.
  assert (Hs : same_files w w1) by (split; assumption).
  apply try_except_true_inv in H.
  apply bind_inr_inv in H as (b & w2 & Hq & H).
  apply query_inv in Hq as [-> _].
  destruct (negb b).
  - unfold bind, set_error, ret in H. discriminate.
  - next_step H Hs. eexists. split; eassumption.
Qed.

(** What a successful save does to the files, seen from the state before
    the call. *)
Lemma saved_files (now : datetime) (w w2 w' : world) :
  same_files w w2 → save now w2 = (inr true, w') →
  (∀ c, files (fs w) !! config_path (self w) = Some c →
        files (fs w') !! backup_path now = Some c) ∧
  (∀ path, path ≠ config_path (self w) → path ≠ backup_path now →
           files (fs w') !! path = files (fs w) !! path).
Proof.
  intros [Hf Hc] H.
  apply save_success_inv in H as (p & _ & _ & Hfiles & Hne).
  rewrite Hf, Hc in Hfiles, Hne. rewrite Hfiles. unfold with_backup. split.
  - intros c Hcur. rewrite Hcur.
    rewrite lookup_insert_ne by (apply Hne; rewrite Hcur; eauto).
    apply lookup_insert_eq.
  - intros path H1 H2. rewrite lookup_insert_ne by congruence.
    destruct (files (fs w) !! config_path (self w)); [|reflexivity].
    rewrite lookup_insert_ne by congruence. reflexivity.
Qed.

End WithParser.

End ConfigSuccess.

(** ** What [get_shares] returns *)

Module ListShares.
Import Str ConfigParser SambaConfig ConfigSpec MonadFacts Unique StrFacts
  MountSpec ConfigRuns ConfigSuccess.

Lemma dict_get_in_keys {V} (k : string) (d : list (string * V)) :
  k ∈ map fst d → ∃ v, dict_get k d = Some v.
Proof.
  induction d as [|[k' v'] d IH]; simpl; [intros H; inversion H|].
  intros H. destruct (String.eqb k k') eqn:E; [now eexists|].
  apply elem_of_cons in H as [-> | H]; [|now apply IH].
  now rewrite String.eqb_refl in E.
Qed.

Lemma get_text (section key dflt : string) (d : optdict) (p : ConfigParser.t) :
  dict_get section (sects p) = Some d → optionxform key = key →
  ConfigParser.get section key dflt p = text_field key dflt d p.
Proof.
  intros Hd Hk. unfold ConfigParser.get, text_field, given. rewrite Hd, Hk.
  destruct (dict_get key d); [reflexivity|].
  destruct (dict_get key (defaults p)); reflexivity.
Qed.

Lemma get_flag (section key fb : string) (dflt : bool) (d : optdict)
    (p : ConfigParser.t) :
  dict_get section (sects p) = Some d → optionxform key = key →
  given key d p ≠ Some None →
  String.eqb (lower fb) "yes" = dflt →
  is_yes (ConfigParser.get section key fb p) = inr (flag_field key dflt d p).
Proof.
  intros Hd Hk Hv Hfb. rewrite (get_text _ _ _ d) by assumption.
  unfold text_field, flag_field.
  destruct (given key d p) as [[v|]|]; [reflexivity | congruence |].
  simpl. now rewrite Hfb.
Qed.

Lemma share_of_section_documented (p : ConfigParser.t) (section : string) :
  section ∈ sections p → flags_valued section p →
  share_of_section p section = inr (documented_share p section).
Proof.
  intros Hin Hv. apply dict_get_in_keys in Hin as (d & Hd).
  unfold share_of_section, documented_share. rewrite Hd. cbn [default].
  rewrite (get_flag _ "writable" _ true d), (get_flag _ "browseable" _ true d),
    (get_flag _ "guest ok" _ false d);
    try reflexivity; try assumption;
    try (apply (Hv d); [exact Hd | set_solver]).
  now rewrite !(get_text _ _ _ d) by (assumption || reflexivity).
Qed.

Lemma shares_of_sections_documented (p : ConfigParser.t) (ss : list string) :
  (∀ s, s ∈ ss → s ∈ sections p) →
  (∀ s, s ∈ ss → non_global s = true → flags_valued s p) →
  shares_of_sections p ss
  = inr (map (documented_share p) (List.filter non_global ss)).
Proof.
  induction ss as [|s ss IH]; intros Hin Hv; [reflexivity|].
  cbn [shares_of_sections List.filter].
  fold (is_global_name s). fold (non_global s).
  rewrite IH by (intros; (apply Hin || apply Hv); try right; assumption).
  destruct (non_global s) eqn:Hg; [|reflexivity].
  rewrite share_of_section_documented
    by (apply Hin || apply Hv; try left; assumption).
  reflexivity.
Qed.

End ListShares.

(** ** The configuration store: claims *)

Module ConfigClaims.
Import Str ConfigParser SambaConfig ConfigSpec MonadFacts Unique StrFacts
  MountSpec ConfigRuns ConfigSuccess ListShares.

Lemma ensure_loaded_reads (read_file : string → option exn * ConfigParser.t)
    (cp : string) (c : content) (err : option string) (p : ConfigParser.t)
    (fs0 : FS) :
  files fs0 !! cp = Some c → read_file (Os.text_of c) = (None, p) →
  ensure_loaded read_file (mkWorld (mk cp None err) fs0)
  = (inr tt, mkWorld (mk cp (Some p) err) fs0).
Proof.
  intros Hf Hrf.
  unfold ensure_loaded, load, bind, try_except, get_self, set_parser, io,
    Os.isfile, Os.read_replace, ret.
  cbn [self fs parser config_path error].
  rewrite Hf, bool_decide_eq_true_2 by eauto.
  cbv beta iota. cbn [self fs parser config_path error].
  rewrite Hf. cbv beta iota. rewrite Hrf. reflexivity.
Qed.

Lemma save_existing (now : datetime) (c : content) (err : option string)
    (p : ConfigParser.t) (fs0 : FS) :
  files fs0 !! SMB_CONF = Some c →
  ∃ fs1, save now (mkWorld (mk SMB_CONF (Some p) err) fs0)
         = (inr true, mkWorld (mk SMB_CONF (Some p) err) fs1).
Proof.
  intros Hf.
  unfold save, create_backup, bind, try_except, get_self, io, Os.isfile,
    Os.copy2, query, Os.write, ret.
  cbn [self fs parser config_path error].
  rewrite Hf, bool_decide_eq_true_2 by eauto. cbn [negb].
  destruct (decide (SMB_CONF = backup_path now)) as [E|_].
  - now apply backup_path_not_smb_conf in E.
  - cbn. rewrite Hf. cbn. eexists. reflexivity.
Qed.

Lemma bind_run {S A B} (m : M S A) (k : A → M S B) (s s1 : S) (a : A) :
  m s = (inr a, s1) → bind m k s = k a s1.
Proof. intros H. unfold bind. now rewrite H. Qed.

Lemma mutate_run (attr : string) (f : ConfigParser.t → exn + ConfigParser.t)
    (cp : string) (p p' : ConfigParser.t) (err : option string) (fs0 : FS) :
  f p = inr p' →
  mutate attr f (mkWorld (mk cp (Some p) err) fs0)
  = (inr tt, mkWorld (mk cp (Some p') err) fs0).
Proof. intros H. unfold mutate. cbn [self parser]. now rewrite H. Qed.

(** Runs the next parser call of a chain on a concrete parser. *)
Ltac run_mutate :=
  erewrite bind_run by (apply mutate_run; vm_compute; reflexivity);
  cbv beta.

Lemma scenario_docs (read_file : string → option exn * ConfigParser.t)
    (now : datetime) (opts : optdict) (c : content) (fs0 : FS) :
  files fs0 !! SMB_CONF = Some c →
  read_file (Os.text_of c) = (None, only_global opts) →
  ∃ w' share,
    add_share read_file now (default_share "docs" "/srv/docs")
      (mkWorld (init SMB_CONF) fs0) = (inr true, w') ∧
    get_shares read_file w' = (inr [share], w') ∧
    name share = "docs" ∧ path share = Some "/srv/docs" ∧
    writable share = true ∧ create_mask share = Some "0664".
Proof.
  intros Hf Hrf.
  assert (Hrun : ∃ fs1 p2,
             add_share read_file now (default_share "docs" "/srv/docs")
               (mkWorld (init SMB_CONF) fs0)
             = (inr true, mkWorld (mk SMB_CONF (Some p2) None) fs1) ∧
             shares_of_sections p2 (sections p2)
             = inr [default_share "docs" "/srv/docs"]).
  { unfold add_share, init.
    rewrite (bind_run _ _ _ _ _ (ensure_loaded_reads read_file _ c None _ fs0 Hf Hrf)).
    unfold try_except.
    erewrite bind_run by reflexivity. cbv beta.
    change (has_section (name (default_share "docs" "/srv/docs"))
              (only_global opts)) with false. cbv iota.
    do 5 run_mutate.
    change (truthy (comment (default_share "docs" "/srv/docs"))) with false.
    change (truthy (valid_users (default_share "docs" "/srv/docs"))) with false.
    cbv iota.
    do 2 (erewrite bind_run by reflexivity; cbv beta).
    do 2 run_mutate.
    match goal with
    | |- context [save now (mkWorld (mk _ (Some ?P) _) _)] =>
        destruct (save_existing now c None P fs0 Hf) as (fs1 & Hsave);
        rewrite Hsave; exists fs1, P
    end.
    split; [reflexivity | vm_compute; reflexivity]. }
  destruct Hrun as (fs1 & p2 & Hrun & Hshares).
  eexists _, (default_share "docs" "/srv/docs"). split; [exact Hrun|].
  split; [|repeat split].
  unfold get_shares, ensure_loaded, bind, get_self, query, ret.
  cbn [self parser]. now rewrite Hshares.
Qed.

(** C7, as the code has it.  On a loaded configuration in which no share
    section gives [writable], [browseable] or [guest ok] without a value,
    [get_shares] returns, in order, exactly the sections whose lower-cased
    name is not [global], each mapped to a share definition; a field takes
    the value that the section, or else the DEFAULT section, gives its key,
    and where neither has the key it takes the documented default
    (writable yes, browseable yes, guest ok no, create mask 0664, directory
    mask 0775).  Adding the share docs with path /srv/docs to a
    configuration that holds only a global section makes [get_shares] return
    one definition, named docs, with that path, writable, and create mask
    0664. *)
Theorem get_shares_documented_defaults
    (read_file : string → option exn * ConfigParser.t) :
  (∀ (w : world) (p : ConfigParser.t),
     parser (self w) = Some p →
     (∀ s, s ∈ sections p → non_global s = true → flags_valued s p) →
     get_shares read_file w
     = (inr (map (documented_share p) (List.filter non_global (sections p))),
        w)) ∧
  (∀ (key dflt : string) (flag : bool) (d : optdict) (p : ConfigParser.t),
     missing key d p →
     text_field key dflt d p = Some dflt ∧ flag_field key flag d p = flag) ∧
  (∀ (now : datetime) (opts : optdict) (c : content) (fs0 : FS),
     files fs0 !! SMB_CONF = Some c →
     read_file (Os.text_of c) = (None, only_global opts) →
     ∃ w' share,
       add_share read_file now (default_share "docs" "/srv/docs")
         (mkWorld (init SMB_CONF) fs0) = (inr true, w') ∧
       get_shares read_file w' = (inr [share], w') ∧
       name share = "docs" ∧ path share = Some "/srv/docs" ∧
       writable share = true ∧ create_mask share = Some "0664").
Proof.
  split; [|split].
  - intros w p Hp Hv.
    unfold get_shares, ensure_loaded, bind, get_self, query, ret.
    rewrite Hp. cbn [self parser]. rewrite Hp.
    now rewrite shares_of_sections_documented.
  - intros key dflt flag d p [Hd Hdef].
    unfold text_field, flag_field, given. now rewrite Hd, Hdef.
  - apply scenario_docs.
Qed.

Lemma get_shares_documented_defaults_witness :
  get_shares example_read_file
    (mkWorld (mk SMB_CONF (Some inherited_parser) None) (mkFS ∅ ∅))
  = (inr (map (documented_share inherited_parser)
            (List.filter non_global (sections inherited_parser))),
     mkWorld (mk SMB_CONF (Some inherited_parser) None) (mkFS ∅ ∅)) ∧
  (text_field "create mask" "0664" [("path", Some "/srv/docs")]
     inherited_parser = Some "0664" ∧
   flag_field "create mask" true [("path", Some "/srv/docs")]
     inherited_parser = true) ∧
  (∃ w' share,
     add_share example_read_file example_now (default_share "docs" "/srv/docs")
       (mkWorld (init SMB_CONF) (fs example_world)) = (inr true, w') ∧
     get_shares example_read_file w' = (inr [share], w') ∧
     name share = "docs" ∧ path share = Some "/srv/docs" ∧
     writable share = true ∧ create_mask share = Some "0664").
Proof.
  pose proof (get_shares_documented_defaults example_read_file)
    as (H1 & H2 & H3).
  split; [|split].
  - apply H1; [reflexivity|].
    intros s Hs Hng d key Hd Hk.
    apply elem_of_cons in Hs as [-> | Hs]; [discriminate Hng|].
    apply list_elem_of_singleton in Hs. subst s.
    vm_compute in Hd. injection Hd as <-.
    apply elem_of_cons in Hk as [-> | Hk]; [discriminate|].
    apply elem_of_cons in Hk as [-> | Hk]; [discriminate|].
    apply list_elem_of_singleton in Hk. subst key. discriminate.
  - apply H2. split; reflexivity.
  - eapply H3; [vm_compute; reflexivity | reflexivity].
Defined.

(** C7 as stated fails: in [inherited_parser] the section docs has no
    [writable] key, and the share that [get_shares] returns for it is not
    writable, because the DEFAULT section of the file says so. *)
Lemma default_section_overrides_documented_default :
  dict_get "docs" (sects inherited_parser) = Some [("path", Some "/srv/docs")] ∧
  dict_get "writable" [("path", Some "/srv/docs") : string * option string]
  = None ∧
  fst (get_shares example_read_file
         (mkWorld (mk SMB_CONF (Some inherited_parser) None) (mkFS ∅ ∅)))
  = inr [mkSambaShare "docs" (Some "/srv/docs") (Some "") false true false
           (Some "") (Some "0664") (Some "0775")].
Proof. repeat split. Qed.

End ConfigClaims.

(** ** Conflicts, distinct names and backups *)

Module StoreClaims.
Import Str ConfigParser SambaConfig ConfigSpec MonadFacts Unique StrFacts
  MountSpec ConfigRuns ConfigSuccess MountManager AddMount DeleteMount.

(** *** The stamp of a backup path *)

Lemma digit_mod (a b : N) :
  Datetime.digit a = Datetime.digit b → (a mod 10 = b mod 10)%N.
Proof.
  unfold Datetime.digit. intros H. apply (f_equal N_of_ascii) in H.
  rewrite !N_ascii_embedding in H.
  - lia.
  - pose proof (N.mod_upper_bound b 10). lia.
  - pose proof (N.mod_upper_bound a 10). lia.
Qed.

Lemma two_digits (a b : N) :
  (a < 100)%N → (b < 100)%N →
  ((a / 10) mod 10 = (b / 10) mod 10)%N → (a mod 10 = b mod 10)%N → a = b.
Proof.
  intros Ha Hb H1 H2.
  rewrite (N.mod_small (a / 10)) in H1
    by (apply N.Div0.div_lt_upper_bound; lia).
  rewrite (N.mod_small (b / 10)) in H1
    by (apply N.Div0.div_lt_upper_bound; lia).
  rewrite (N.div_mod a 10), (N.div_mod b 10) by lia. now rewrite H1, H2.
Qed.

Lemma four_digits (a b : N) :
  (a / 100 = b / 100)%N →
  ((a / 10) mod 10 = (b / 10) mod 10)%N → (a mod 10 = b mod 10)%N → a = b.
Proof.
  intros H0 H1 H2.
  assert (E : (a / 10 = b / 10)%N).
  { rewrite (N.div_mod (a / 10) 10), (N.div_mod (b / 10) 10) by lia.
    rewrite !N.Div0.div_div. change (10 * 10)%N with 100%N.
    now rewrite H0, H1. }
  rewrite (N.div_mod a 10), (N.div_mod b 10) by lia. now rewrite E, H2.
Qed.

Lemma backup_path_spelled (now : datetime) :
  backup_path now
  = "/etc/samba/backups/smb.conf." +:+ Datetime.strftime_stamp now +:+ ".bak".
Proof. reflexivity. Qed.

(** Two readings of the clock give one backup path when, and only when,
    they agree to the second. *)
Lemma backup_path_inj (a b : datetime) :
  clock_reading a → clock_reading b →
  (backup_path a = backup_path b ↔ same_second a b).
Proof.
  intros (Hy & Hm & Hd & HH & HM & HS) (Hy' & Hm' & Hd' & HH' & HM' & HS').
  split.
  - rewrite !backup_path_spelled.
    cbv [Datetime.strftime_stamp Datetime.d4 Datetime.d2 String.append].
    intros H. injection H as Y1 Y2 Y3 Y4 M1 M2 D1 D2 h1 h2 m1 m2 s1 s2.
    apply digit_mod in Y1, Y2, Y3, Y4, M1, M2, D1, D2, h1, h2, m1, m2, s1, s2.
    unfold same_second. split_and!.
    + apply four_digits; [|assumption..].
      apply two_digits; [| |assumption..];
        apply N.Div0.div_lt_upper_bound; lia.
    + apply two_digits; [lia..|assumption|assumption].
    + apply two_digits; [lia..|assumption|assumption].
    + apply two_digits; [lia..|assumption|assumption].
    + apply two_digits; [lia..|assumption|assumption].
    + apply two_digits; [lia..|assumption|assumption].
  - intros (E1 & E2 & E3 & E4 & E5 & E6). rewrite !backup_path_spelled.
    unfold Datetime.strftime_stamp. now rewrite E1, E2, E3, E4, E5, E6.
Qed.

(** *** What [add_share] does with a name *)

Lemma has_sections_parser_property (names : list string) :
  parser_property (has_sections names).
Proof. intros w w' E (p & Hp & Hs). exists p. now rewrite E. Qed.

Lemma keeps_sections_set (names : list string) (section key : string)
    (value : option string) :
  preserves (has_sections names) (mutate "set" (set section key value)).
Proof.
  intros w r w' (p & Hp & Hs). unfold mutate. rewrite Hp.
  destruct (set section key value p) as [e|p'] eqn:E.
  - intros [= _ <-]. now exists p.
  - intros [= _ <-]. exists p'. split; [reflexivity|].
    now rewrite (set_sections _ _ _ _ _ E).
Qed.

Ltac keep_steps :=
  repeat lazymatch goal with
    | |- preserves _ (bind _ _) => apply preserves_bind; [|intros ?]
    | |- preserves _ (try_except _ _) => apply preserves_try; [|intros ?]
    | |- preserves _ (if ?b then _ else _) => destruct b
    | |- preserves _ (match ?x with _ => _ end) => destruct x
    | |- _ =>
        solve [auto using preserves_ret, preserves_raise, preserves_get_self,
                 preserves_query, preserves_io, preserves_set_error,
                 has_sections_parser_property, keeps_sections_set]
    end.

Lemma keeps_sections_save (names : list string) (now : datetime) :
  preserves (has_sections names) (save now).
Proof. unfold save, create_backup. keep_steps. Qed.

Section WithParser.

Variable read_file : string → option exn * ConfigParser.t.

(** The reserved name: the parser turns it down, and [add_share] leaves the
    parser as it was. *)
Lemma add_share_reserved (now : datetime) (share : SambaShare)
    (w w1 : world) (p : ConfigParser.t) :
  ensure_loaded read_file w = (inr tt, w1) →
  parser (self w1) = Some p →
  name share = DEFAULTSECT →
  ∃ w', add_share read_file now share w = (inr false, w') ∧
        parser (self w') = Some p.
Proof.
  intros Hl Hp Hn.
  destruct (has_section (name share) p) eqn:Hs.
  - rewrite (add_share_existing read_file now share w w1 p Hl Hp Hs).
    eexists. split; reflexivity.
  - unfold add_share, bind at 1. rewrite Hl. rewrite Hn in *.
    unfold try_except, bind at 1, query. rewrite Hp, Hs.
    unfold bind at 1, mutate. rewrite Hp.
    eexists. split; [reflexivity|]. cbn [self error parser fs]. now rewrite Hp.
Qed.

(** Any other name that is not yet a section becomes the last section,
    whatever the rest of the call does. *)
Lemma add_share_new (now : datetime) (share : SambaShare)
    (w w1 : world) (p : ConfigParser.t) :
  ensure_loaded read_file w = (inr tt, w1) →
  parser (self w1) = Some p →
  has_section (name share) p = false →
  name share ≠ DEFAULTSECT →
  ∃ r w', add_share read_file now share w = (inr r, w') ∧
          has_sections (sections p ++ [name share]) w'.
Proof.
  intros Hl Hp Hs Hn.
  assert (Hadd : add_section (name share) p
                 = inr (ConfigParser.mk (defaults p)
                          (sects p ++ [(name share, [])]))).
  { unfold add_section. apply String.eqb_neq in Hn. now rewrite Hn, Hs. }
  unfold add_share, bind at 1. rewrite Hl.
  unfold try_except, bind at 1, query. rewrite Hp, Hs.
  unfold bind at 1, mutate at 1. rewrite Hp, Hadd.
  unfold set_parser at 1. cbv beta iota.
  lazymatch goal with
  | |- context [match ?m ?x with _ => _ end] =>
      assert (Hk : preserves (has_sections (sections p ++ [name share])) m)
        by (pose proof (keeps_sections_save (sections p ++ [name share]) now);
            keep_steps);
      assert (H0 : has_sections (sections p ++ [name share]) x)
        by (eexists; split; [reflexivity|];
            unfold sections; cbn [sects]; now rewrite map_app);
      destruct (m x) as [[e|b] w2] eqn:E; specialize (Hk _ _ _ H0 E)
  end.
  - eexists _, _. split; [reflexivity|].
    destruct Hk as (q & Hq & Hsq). exists q. split; [exact Hq|exact Hsq].
  - eexists _, _. split; [reflexivity|]. exact Hk.
Qed.

End WithParser.

(** C4. When the configuration that [add_share] works on, after its
    [if not self.parser: self.load()], already has a section with the name
    of the share, [add_share] returns False with the error text
    "Share '<name>' already exists", and the file system, the configuration
    file included, is exactly as it was before the call. *)
Theorem add_share_conflict
    (read_file : string → option exn * ConfigParser.t) (now : datetime)
    (share : SambaShare) (w w1 : world) (p : ConfigParser.t) :
  ensure_loaded read_file w = (inr tt, w1) →
  parser (self w1) = Some p →
  has_section (name share) p = true →
  ∃ w', add_share read_file now share w = (inr false, w') ∧
        error (self w') = Some ("Share '" +:+ name share +:+ "' already exists") ∧
        parser (self w') = Some p ∧
        fs w' = fs w.
Proof.
  intros Hl Hp Hs.
  rewrite (add_share_existing read_file now share w w1 p Hl Hp Hs).
  eexists. split; [reflexivity|]. cbn [self fs error parser].
  split_and!; try reflexivity.
  destruct (ensure_loaded_spec read_file w) as (w1' & q & Hl' & Hf & _).
  rewrite Hl in Hl'. now injection Hl' as <-.
Qed.

Lemma add_share_conflict_witness :
  ∃ w', add_share example_read_file example_now
          (default_share "global" "/srv/g") example_world = (inr false, w') ∧
        error (self w') = Some ("Share '" +:+ "global" +:+ "' already exists") ∧
        parser (self w') = Some (only_global [("workgroup", Some "WORKGROUP")]) ∧
        fs w' = fs example_world.
Proof.
  eapply (add_share_conflict example_read_file example_now
            (default_share "global" "/srv/g") example_world);
    vm_compute; reflexivity.
Defined.

(** C9, as the code has it.  [add_share], [delete_share] and [get_shares]
    keep the section names of the loaded configuration pairwise distinct,
    compared exactly.  On the configuration that [add_share] works on, after
    its [if not self.parser: self.load()]: when a section of exactly the
    name of the share is there, or the name is DEFAULT, which the parser
    reserves, [add_share] returns False and the parser is as it was; for
    every other name, whatever its spelling, the name becomes the last
    section of the parser and the call returns what saving gave. *)
Theorem section_names_stay_distinct
    (read_file : string → option exn * ConfigParser.t) (now : datetime) :
  (∀ c, NoDup (sections (snd (read_file c)))) →
  (∀ share, preserves sections_unique (add_share read_file now share)) ∧
  (∀ share_name,
     preserves sections_unique (delete_share read_file now share_name)) ∧
  preserves sections_unique (get_shares read_file) ∧
  (∀ share w w1 p,
     ensure_loaded read_file w = (inr tt, w1) →
     parser (self w1) = Some p →
     (name share ∈ sections p ∨ name share = "DEFAULT" →
      ∃ w', add_share read_file now share w = (inr false, w') ∧
            parser (self w') = Some p) ∧
     (name share ∉ sections p → name share ≠ "DEFAULT" →
      ∃ r w' p', add_share read_file now share w = (inr r, w') ∧
                 parser (self w') = Some p' ∧
                 sections p' = (sections p ++ [name share])%list)).
Proof.
  intros Hrf. split_and!.
  - intros share. now apply preserves_add_share.
  - intros share_name. now apply preserves_delete_share.
  - now apply preserves_get_shares.
  - intros share w w1 p Hl Hp. split.
    + intros [Hin | Hn].
      * apply mem_true_iff in Hin.
        rewrite (add_share_existing read_file now share w w1 p Hl Hp Hin).
        eexists. split; reflexivity.
      * exact (add_share_reserved read_file now share w w1 p Hl Hp Hn).
    + intros Hnin Hn.
      assert (Hs : has_section (name share) p = false).
      { destruct (has_section (name share) p) eqn:Hs; [|reflexivity].
        apply mem_true_iff in Hs. contradiction. }
      destruct (add_share_new read_file now share w w1 p Hl Hp Hs Hn)
        as (r & w' & Hrun & p' & Hp' & Hsec).
      now exists r, w', p'.
Qed.

Lemma section_names_stay_distinct_witness :
  (∀ share, preserves sections_unique
              (add_share example_read_file example_now share)) ∧
  (∀ share_name,
     preserves sections_unique
       (delete_share example_read_file example_now share_name)) ∧
  preserves sections_unique (get_shares example_read_file) ∧
  (∀ share w w1 p,
     ensure_loaded example_read_file w = (inr tt, w1) →
     parser (self w1) = Some p →
     (name share ∈ sections p ∨ name share = "DEFAULT" →
      ∃ w', add_share example_read_file example_now share w = (inr false, w') ∧
            parser (self w') = Some p) ∧
     (name share ∉ sections p → name share ≠ "DEFAULT" →
      ∃ r w' p', add_share example_read_file example_now share w = (inr r, w') ∧
                 parser (self w') = Some p' ∧
                 sections p' = (sections p ++ [name share])%list)).
Proof.
  apply (section_names_stay_distinct example_read_file example_now).
  intros c. simpl. apply NoDup_singleton.
Defined.

(** C9 as stated fails: with a section [global] in the configuration,
    [add_share] accepts the name [Global], which [get_shares] treats as the
    global section; the configuration then holds both, and the new share is
    not listed. *)
Lemma add_share_accepts_global_spelling :
  let run := add_share example_read_file example_now
               (default_share "Global" "/srv/g") example_world in
  is_global_name "Global" = true ∧
  fst run = inr true ∧
  (sections <$> parser (self (snd run))) = Some ["global"; "Global"] ∧
  fst (get_shares example_read_file (snd run)) = inr [].
Proof. repeat split; vm_compute; reflexivity. Qed.

Lemma add_mount_backup (D : string) (now : datetime)
    (r mp t u p o msg : string) (fs fs' : FS) :
  add_mount D now r mp t u p o fs = (inr (true, msg), fs') →
  is_Some (files fs !! FSTAB) ∧
  files fs' !! FSTAB_BAK = files fs !! FSTAB ∧
  ∀ path, path ≠ FSTAB → path ≠ FSTAB_BAK → path ≠ creds_path D mp →
          files fs' !! path = files fs !! path.
Proof.
  intros H. apply add_mount_success_inv in H as (c & _ & Hf & Hfiles & _).
  rewrite Hfiles, Hf. split_and!; [eauto | |].
  - rewrite lookup_insert_ne by apply fstab_not_bak. apply lookup_insert_eq.
  - intros path H1 H2 H3. rewrite !lookup_insert_ne by congruence.
    unfold files_with_creds. destruct (has_credentials u p); [|reflexivity].
    now rewrite lookup_insert_ne by congruence.
Qed.

Lemma delete_mount_backup (mp msg : string) (fs fs' : FS) :
  delete_mount mp fs = (inr (true, msg), fs') →
  is_Some (files fs !! FSTAB) ∧
  files fs' !! FSTAB_BAK = files fs !! FSTAB ∧
  ∀ path, path ≠ FSTAB → path ≠ FSTAB_BAK →
          files fs' !! path = files fs !! path.
Proof.
  intros H. apply delete_mount_success_inv in H as (c & Hf & Hfiles).
  rewrite Hfiles, Hf. split_and!; [eauto | |].
  - rewrite lookup_insert_ne by apply fstab_not_bak. apply lookup_insert_eq.
  - intros path H1 H2. now rewrite !lookup_insert_ne by congruence.
Qed.

(** C1, as the code has it.  A successful [add_mount] or [delete_mount]
    first copies the mount table, as it was before the call, to the one
    fixed path /etc/fstab.bak; a successful [add_share] or [delete_share]
    first copies the configuration file, when there is one, as it was before
    the call, to the backup path
    /etc/samba/backups/smb.conf.<YYYYmmdd_HHMMSS>.bak of the clock reading.
    No call touches a file other than the live file, that backup path and,
    for [add_mount], the credentials file.  Two clock readings give the same
    backup path when, and only when, they agree to the second; so a backup
    of the configuration /etc/samba/smb.conf made at one reading is still
    there after a successful [add_share] or [delete_share] at a reading of
    another second. *)
Theorem backup_precedes_write (D : string)
    (read_file : string → option exn * ConfigParser.t) (now : datetime) :
  (∀ (r mp t u p o msg : string) (fs fs' : FS),
     add_mount D now r mp t u p o fs = (inr (true, msg), fs') →
     is_Some (files fs !! "/etc/fstab") ∧
     files fs' !! "/etc/fstab.bak" = files fs !! "/etc/fstab" ∧
     ∀ path, path ≠ "/etc/fstab" → path ≠ "/etc/fstab.bak" →
             path ≠ credentials_path D mp →
             files fs' !! path = files fs !! path) ∧
  (∀ (mp msg : string) (fs fs' : FS),
     delete_mount mp fs = (inr (true, msg), fs') →
     is_Some (files fs !! "/etc/fstab") ∧
     files fs' !! "/etc/fstab.bak" = files fs !! "/etc/fstab" ∧
     ∀ path, path ≠ "/etc/fstab" → path ≠ "/etc/fstab.bak" →
             files fs' !! path = files fs !! path) ∧
  (∀ (share : SambaShare) (w w' : world),
     add_share read_file now share w = (inr true, w') →
     (∀ c, files (fs w) !! config_path (self w) = Some c →
           files (fs w') !! backup_path now = Some c) ∧
     (∀ path, path ≠ config_path (self w) → path ≠ backup_path now →
              files (fs w') !! path = files (fs w) !! path)) ∧
  (∀ (share_name : string) (w w' : world),
     delete_share read_file now share_name w = (inr true, w') →
     (∀ c, files (fs w) !! config_path (self w) = Some c →
           files (fs w') !! backup_path now = Some c) ∧
     (∀ path, path ≠ config_path (self w) → path ≠ backup_path now →
              files (fs w') !! path = files (fs w) !! path)) ∧
  backup_path now
  = "/etc/samba/backups/smb.conf." +:+ Datetime.strftime_stamp now +:+ ".bak" ∧
  (∀ earlier : datetime,
     clock_reading earlier → clock_reading now →
     (backup_path earlier = backup_path now ↔ same_second earlier now) ∧
     (¬ same_second earlier now →
      ∀ (w w' : world),
        config_path (self w) = "/etc/samba/smb.conf" →
        (∀ share, add_share read_file now share w = (inr true, w') →
                  files (fs w') !! backup_path earlier
                  = files (fs w) !! backup_path earlier) ∧
        (∀ share_name,
           delete_share read_file now share_name w = (inr true, w') →
           files (fs w') !! backup_path earlier
           = files (fs w) !! backup_path earlier))).
Proof.
  assert (Hshare : ∀ share w w',
            add_share read_file now share w = (inr true, w') →
            (∀ c, files (fs w) !! config_path (self w) = Some c →
                  files (fs w') !! backup_path now = Some c) ∧
            (∀ path, path ≠ config_path (self w) → path ≠ backup_path now →
                     files (fs w') !! path = files (fs w) !! path)).
  { intros share w w' H.
    apply add_share_success_inv in H as (w2 & Hs & Hsave).
    exact (saved_files now w w2 w' Hs Hsave). }
  assert (Hdel : ∀ share_name w w',
            delete_share read_file now share_name w = (inr true, w') →
            (∀ c, files (fs w) !! config_path (self w) = Some c →
                  files (fs w') !! backup_path now = Some c) ∧
            (∀ path, path ≠ config_path (self w) → path ≠ backup_path now →
                     files (fs w') !! path = files (fs w) !! path)).
  { intros share_name w w' H.
    apply delete_share_success_inv in H as (w2 & Hs & Hsave).
    exact (saved_files now w w2 w' Hs Hsave). }
  split_and!.
  - intros r mp t u p o msg fs fs' H.
    rewrite <- creds_path_spelled. eapply add_mount_backup; eassumption.
  - intros. eapply delete_mount_backup; eassumption.
  - exact Hshare.
  - exact Hdel.
  - apply backup_path_spelled.
  - intros earlier He Hn. split; [now apply backup_path_inj|].
    intros Hdiff w w' Hcp.
    assert (H1 : backup_path earlier ≠ config_path (self w)).
    { rewrite Hcp. intros E. symmetry in E.
      exact (backup_path_not_smb_conf earlier E). }
    assert (H2 : backup_path earlier ≠ backup_path now).
    { intros E. now apply backup_path_inj in E. }
    split.
    + intros share H. now apply (Hshare share w w' H).
    + intros share_name H. now apply (Hdel share_name w w' H).
Qed.

Lemma backup_precedes_write_witness :
  let fs0 := mkFS {[ FSTAB := Text root_table ]} ∅ in
  let fs1 := snd (add_mount "/etc/samba/credentials" example_now
                    "//srv/share" "/mnt/x" "cifs" "u" "p" "" fs0) in
  let fs2 := snd (delete_mount "/mnt/x" fs1) in
  let w1 := snd (add_share example_read_file example_now
                   (default_share "docs" "/srv/docs") example_world) in
  let w2 := snd (delete_share example_read_file later_now "docs" w1) in
  (files fs1 !! FSTAB_BAK = files fs0 !! FSTAB) ∧
  (files fs2 !! FSTAB_BAK = files fs1 !! FSTAB) ∧
  (∀ c, files (fs example_world) !! config_path (self example_world) = Some c →
        files (fs w1) !! backup_path example_now = Some c) ∧
  (∀ c, files (fs w1) !! config_path (self w1) = Some c →
        files (fs w2) !! backup_path later_now = Some c) ∧
  backup_path example_now ≠ backup_path later_now ∧
  files (fs w2) !! backup_path example_now
  = files (fs w1) !! backup_path example_now.
Proof.
  intros fs0 fs1 fs2 w1 w2.
  pose proof (backup_precedes_write "/etc/samba/credentials"
                example_read_file example_now)
    as (Ha & Hd & Has & _ & _ & _).
  pose proof (backup_precedes_write "/etc/samba/credentials"
                example_read_file later_now)
    as (_ & _ & _ & Hds & _ & Hlater).
  assert (Hc1 : clock_reading example_now) by (vm_compute; repeat split; discriminate).
  assert (Hc2 : clock_reading later_now) by (vm_compute; repeat split; discriminate).
  assert (Hdiff : ¬ same_second example_now later_now).
  { intros (_ & _ & _ & _ & _ & E). discriminate E. }
  destruct (Hlater example_now Hc1 Hc2) as [Hiff Hkeep].
  split_and!.
  - eapply (Ha "//srv/share" "/mnt/x" "cifs" "u" "p" "" _ fs0 fs1).
    vm_compute; reflexivity.
  - eapply (Hd "/mnt/x" _ fs1 fs2). vm_compute; reflexivity.
  - eapply (Has (default_share "docs" "/srv/docs") example_world w1).
    vm_compute; reflexivity.
  - eapply (Hds "docs" w1 w2). vm_compute; reflexivity.
  - intros E. apply Hdiff. now apply Hiff.
  - assert (Hcp : config_path (self w1) = "/etc/samba/smb.conf")
      by (vm_compute; reflexivity).
    apply (proj2 (Hkeep Hdiff w1 w2 Hcp) "docs"). vm_compute; reflexivity.
Defined.

(** C1 as stated fails: the backup that a first mutation of the mount table
    made is overwritten by the second; after the two calls no file holds the
    table as it was at the start. *)
Lemma earlier_backup_overwritten :
  let fs0 := mkFS {[ FSTAB := Text root_table ]} ∅ in
  let run1 := add_mount "/etc/samba/credentials" example_now
                "//srv/share" "/mnt/x" "cifs" "" "" "" fs0 in
  let run2 := add_mount "/etc/samba/credentials" later_now
                "//srv/other" "/mnt/y" "cifs" "" "" "" (snd run1) in
  fst run1 = inr (true, "Mount added successfully") ∧
  fst run2 = inr (true, "Mount added successfully") ∧
  files (snd run1) !! FSTAB_BAK = Some (Text root_table) ∧
  files (snd run2) !! FSTAB_BAK ≠ Some (Text root_table) ∧
  Text root_table ∉ (snd <$> map_to_list (files (snd run2))).
Proof.
  split_and!; try (vm_compute; reflexivity).
  - vm_compute. discriminate.
  - intros H. vm_compute in H.
    repeat (apply elem_of_cons in H as [H | H]; [discriminate H|]).
    inversion H.
Qed.

End StoreClaims.

(** ** More facts about strings and lines *)

Module StrFacts2.
Import Str TextIO MountManager MountSpec MountSpec2 StrFacts TextFacts
  DeleteMount LineFacts AddDelete.

#[local] Arguments String.append !s1 s2 : simpl nomatch.

Lemma lines_of_body (body : string) :
  body ≠ "" → all_chars not_lf body = true → lines_of body = [body].
Proof.
  induction body as [|c body IH]; [contradiction|]. intros _ H.
  simpl in H. apply andb_true_iff in H as [Hc Hb].
  unfold not_lf in Hc. apply negb_true_iff in Hc.
  simpl. rewrite Hc. destruct body as [|d body]; [reflexivity|].
  now rewrite IH.
Qed.

Lemma file_lines_of (s : string) :
  all_chars not_cr s = true → file_lines (lines_of s).
Proof.
  induction s as [|c s IH]; intros Hs; [constructor|].
  simpl in Hs. apply andb_true_iff in Hs as [Hc Hs]. specialize (IH Hs).
  simpl. destruct (Ascii.eqb c LF) eqn:Hlf.
  - apply file_lines_cons; [|exact IH].
    exists "". apply Ascii.eqb_eq in Hlf. subst c. split; reflexivity.
  - assert (Hnb : not_linebreak c = true)
      by (unfold not_linebreak, not_lf; now rewrite Hlf, Hc).
    destruct (lines_of s) as [|l ls].
    + apply file_lines_last; [discriminate|]. simpl. now rewrite Hnb.
    + inversion IH as [|body Hne Hb|l' ls' (body & -> & Hb) Hls]; subst.
      * apply file_lines_last; [discriminate|]. simpl. now rewrite Hnb, Hb.
      * apply file_lines_cons; [|exact Hls].
        exists (String c body). split; [reflexivity|]. simpl. now rewrite Hnb, Hb.
Qed.

Lemma file_lines_readlines (c : string) : file_lines (readlines c).
Proof. apply file_lines_of, universal_newlines_no_cr. Qed.

Lemma file_lines_no_cr (ls : list string) :
  file_lines ls → all_chars not_cr (join ls) = true.
Proof.
  induction 1 as [|body _ Hb|l ls Hl _ IH]; [reflexivity| |].
  - simpl. rewrite app_nil_r. now apply not_linebreak_not_cr.
  - simpl. now rewrite all_chars_app, IH, (proper_line_no_cr l Hl).
Qed.

(** Reading back what was written from the lines of a file gives those
    lines. *)
Lemma readlines_join_file_lines (ls : list string) :
  file_lines ls → readlines (join ls) = ls.
Proof.
  intros H. unfold readlines.
  rewrite universal_newlines_id by now apply file_lines_no_cr.
  induction H as [|body Hne Hb|l ls (body & -> & Hb) _ IH]; [reflexivity| |].
  - simpl. rewrite app_nil_r. apply lines_of_body; [exact Hne|].
    now apply not_linebreak_not_lf.
  - simpl. rewrite app_assoc, lines_of_line, IH; [reflexivity|].
    now apply not_linebreak_not_lf.
Qed.

Lemma delete_loop_file_lines (mp : string) (skip : bool) (ls : list string) :
  file_lines ls → file_lines (delete_loop mp skip ls).
Proof.
  intros H. revert skip.
  induction H as [|body Hne Hb|l ls Hl _ IH]; intros skip.
  - constructor.
  - cbn [delete_loop]. destruct (_ && _); [constructor|].
    destruct (_ && _); [constructor|]. now apply file_lines_last.
  - cbn [delete_loop]. destruct (_ && _); [apply IH|].
    destruct (_ && _); [apply IH|]. apply file_lines_cons; [exact Hl | apply IH].
Qed.

(** The loop leaves no non-comment line that contains the mountpoint. *)
Lemma delete_loop_no_match (mp : string) (skip : bool) (ls : list string) :
  Forall (fun l => matches mp l = false) (delete_loop mp skip ls).
Proof.
  revert skip. induction ls as [|l ls IH]; intros skip; [constructor|].
  cbn [delete_loop]. fold (is_comment l). fold (matches mp l).
  destruct (matches mp l) eqn:Hm; [apply IH|].
  destruct (_ && _); [apply IH|]. constructor; [exact Hm | apply IH].
Qed.

(** Without a matching line the loop entered with a clear flag keeps
    everything. *)
Lemma delete_loop_fixed (mp : string) (ls : list string) :
  Forall (fun l => matches mp l = false) ls → delete_loop mp false ls = ls.
Proof.
  induction 1 as [|l ls Hl _ IH]; [reflexivity|].
  cbn [delete_loop]. fold (is_comment l). fold (matches mp l).
  rewrite Hl. cbn [andb]. now rewrite IH.
Qed.

Lemma delete_loop_sublist (mp : string) (skip : bool) (ls : list string) :
  sublist (delete_loop mp skip ls) ls.
Proof.
  revert skip. induction ls as [|l ls IH]; intros skip; [constructor|].
  cbn [delete_loop]. destruct (_ && _); [apply sublist_cons, IH|].
  destruct (_ && _); [apply sublist_cons, IH|]. apply sublist_skip, IH.
Qed.

End StrFacts2.

(** ** Fields of a line *)

Module SplitFacts.
Import Str TextIO MountManager MountSpec MountSpec2 StrFacts TextFacts
  DeleteMount LineFacts AddDelete StrFacts2.

#[local] Arguments String.append !s1 s2 : simpl nomatch.

Lemma contains_cons (needle : string) (c : ascii) (s : string) :
  contains needle s = true → contains needle (String c s) = true.
Proof. intros H. simpl. rewrite H. apply orb_true_r. Qed.

Lemma split_lstrip (s : string) : split (lstrip s) = split s.
Proof.
  induction s as [|c s IH]; [reflexivity|].
  cbn [lstrip]. destruct (isspace c) eqn:Hc; [|reflexivity].
  rewrite IH. simpl. now rewrite Hc.
Qed.

Lemma rstrip_empty_split (s : string) : rstrip s = "" → split s = [].
Proof.
  induction s as [|c s IH]; [reflexivity|]. simpl.
  destruct (rstrip s) eqn:E; [|discriminate].
  destruct (isspace c); [|discriminate]. intros _. now apply IH.
Qed.

Lemma rstrip_head (c : ascii) (s : string) (d : ascii) (r : string) :
  rstrip (String c s) = String d r → d = c.
Proof.
  simpl. destruct (rstrip s); [destruct (isspace c)|]; congruence.
Qed.

Lemma split_cons_cons (c b : ascii) (x : string) :
  split (String c (String b x))
  = if isspace c then split (String b x)
    else if isspace b then String c "" :: split (String b x)
    else match split (String b x) with
         | w :: ws => String c w :: ws
         | [] => [String c ""]
         end.
Proof. reflexivity. Qed.

Lemma split_rstrip (s : string) : split (rstrip s) = split s.
Proof.
  induction s as [|c s IH]; [reflexivity|].
  cbn [rstrip]. destruct (rstrip s) as [|d r] eqn:E.
  - pose proof (rstrip_empty_split s E) as Hs.
    destruct (isspace c) eqn:Hc; simpl; rewrite Hc; [now rewrite Hs|].
    destruct s as [|c' s']; [reflexivity|].
    destruct (isspace c') eqn:Hc'; [now rewrite Hs|].
    simpl in E. destruct (rstrip s'); [rewrite Hc' in E|]; discriminate.
  - destruct s as [|c' s']; [discriminate|].
    apply rstrip_head in E as Hd. subst d.
    rewrite !split_cons_cons, IH. reflexivity.
Qed.

Lemma split_strip (s : string) : split (strip s) = split s.
Proof. unfold strip. now rewrite split_rstrip, split_lstrip. Qed.

Lemma split_head_prefix (s w0 : string) (ws : list string) (c : ascii)
    (r : string) :
  s = String c r → isspace c = false → split s = w0 :: ws →
  startswith w0 s = true.
Proof.
  revert w0 ws c r. induction s as [|a s IH]; intros w0 ws c r; [discriminate|].
  intros [= <- <-] Hc. cbn [split]. rewrite Hc.
  destruct s as [|b s'].
  - intros [= <- <-]. simpl. now rewrite Ascii.eqb_refl.
  - destruct (isspace b) eqn:Hb.
    + intros [= <- <-]. simpl. now rewrite Ascii.eqb_refl.
    + destruct (split (String b s')) as [|w ws'] eqn:E.
      * intros [= <- <-]. simpl. now rewrite Ascii.eqb_refl.
      * intros [= <- <-]. simpl. rewrite Ascii.eqb_refl. simpl.
        exact (IH w ws' b s' eq_refl Hb eq_refl).
Qed.

(** Every field of a line occurs in the line. *)
Lemma split_elem_contains (s w : string) :
  w ∈ split s → contains w s = true.
Proof.
  induction s as [|c s IH]; [intros H; inversion H|].
  cbn [split]. destruct (isspace c) eqn:Hc.
  - intros H. apply contains_cons, IH, H.
  - destruct s as [|b s'].
    + intros H. apply list_elem_of_singleton in H. subst w.
      apply contains_here, startswith_refl.
    + destruct (isspace b) eqn:Hb.
      * intros H. apply elem_of_cons in H as [-> | H].
        -- apply contains_here. simpl. now rewrite Ascii.eqb_refl.
        -- apply contains_cons, IH, H.
      * destruct (split (String b s')) as [|w0 ws] eqn:E.
        -- intros H. apply list_elem_of_singleton in H. subst w.
           apply contains_here. simpl. now rewrite Ascii.eqb_refl.
        -- intros H. apply elem_of_cons in H as [-> | H].
           ++ apply contains_here. simpl. rewrite Ascii.eqb_refl. simpl.
              exact (split_head_prefix _ w0 ws b s' eq_refl Hb E).
           ++ apply contains_cons, IH. now right.
Qed.

(** A field followed by white space is the first field of the line. *)
Lemma split_field (w : string) (c : ascii) (rest : string) :
  field w → isspace c = true → split (w +:+ String c rest) = w :: split rest.
Proof.
  intros [Hne Hw] Hc. induction w as [|a w IH]; [contradiction|].
  simpl in Hw. apply andb_true_iff in Hw as [Ha Hw].
  unfold nonspace in Ha. apply negb_true_iff in Ha.
  destruct w as [|b w'].
  - simpl. now rewrite Ha, Hc.
  - specialize (IH ltac:(discriminate) Hw).
    simpl in Hw. apply andb_true_iff in Hw as [Hb _].
    unfold nonspace in Hb. apply negb_true_iff in Hb.
    change (split (String a (String b w' +:+ String c rest))
            = String a (String b w') :: split rest).
    cbn [split]. rewrite Ha.
    change (String b w' +:+ String c rest)
      with (String b (w' +:+ String c rest)) in *.
    cbv iota. rewrite Hb. now rewrite IH.
Qed.

Lemma field_not_linebreak (w : string) :
  all_chars nonspace w = true → all_chars not_linebreak w = true.
Proof.
  apply all_chars_weaken. intros c H.
  unfold nonspace in H. apply negb_true_iff in H.
  unfold not_linebreak, not_lf, not_cr.
  destruct (Ascii.eqb c LF) eqn:E1.
  { apply Ascii.eqb_eq in E1. subst c. discriminate H. }
  destruct (Ascii.eqb c CR) eqn:E2.
  { apply Ascii.eqb_eq in E2. subst c. discriminate H. }
  reflexivity.
Qed.

End SplitFacts.

(** ** Listing the mount table *)

Module Listing.
Import Str TextIO MountManager MountSpec MountSpec2 StrFacts TextFacts
  DeleteMount LineFacts AddDelete AddMount StrFacts2 SplitFacts.

#[local] Arguments String.append !s1 s2 : simpl nomatch.

Lemma get_active_mounts_run (fs : FS) :
  get_active_mounts fs = (inr (active_set fs), fs).
Proof.
  unfold get_active_mounts, try_except, bind, Os.iterate, ret, active_set,
    seen_lines.
  destruct (files fs !! PROC_MOUNTS) as [[c|u]|]; reflexivity.
Qed.

Lemma get_fstab_mounts_run (fs : FS) :
  get_fstab_mounts fs = (inr (listed fs), fs).
Proof.
  unfold get_fstab_mounts, bind. rewrite get_active_mounts_run.
  unfold try_except, bind, Os.read_replace, ret, listed, table_lines.
  destruct (files fs !! FSTAB); reflexivity.
Qed.

Lemma strip_nonempty_of_split (line : string) :
  split line ≠ [] → strip line ≠ "".
Proof.
  intros H E. apply H. rewrite <- split_strip, E. reflexivity.
Qed.

Lemma parse_fstab_line_some (active : gset string) (line : string)
    (m : CifsMount) :
  parse_fstab_line active line = Some m →
  is_comment line = false ∧
  mem (lower (fstype m)) NET_FS = true ∧
  is_mounted m = bool_decide (mountpoint m ∈ active) ∧
  ∃ rest, split line
          = remote m :: mountpoint m :: fstype m :: options m :: rest.
Proof.
  unfold parse_fstab_line. fold (is_comment line).
  destruct (String.eqb (strip line) "" || is_comment line) eqn:Hg;
    [discriminate|].
  apply orb_false_iff in Hg as [_ Hc]. rewrite split_strip.
  destruct (split line) as [|a [|b [|c [|d rest]]]]; try discriminate.
  cbn [length Nat.leb andb lookup_total list_lookup_total].
  destruct (mem (lower c) NET_FS) eqn:Ht; [|discriminate].
  intros [= <-]. cbn. repeat split; try assumption. now exists rest.
Qed.

Lemma parse_fstab_line_fields (active : gset string)
    (line r mp t o : string) (rest : list string) :
  is_comment line = false →
  split line = r :: mp :: t :: o :: rest →
  mem (lower t) NET_FS = true →
  ∃ m, parse_fstab_line active line = Some m ∧
       remote m = r ∧ mountpoint m = mp ∧ fstype m = t ∧ options m = o.
Proof.
  intros Hc Hs Ht. unfold parse_fstab_line. fold (is_comment line).
  rewrite Hc, orb_false_r.
  assert (Hne : strip line ≠ "")
    by (apply strip_nonempty_of_split; rewrite Hs; discriminate).
  apply String.eqb_neq in Hne. rewrite Hne, split_strip, Hs.
  cbn [length Nat.leb andb lookup_total list_lookup_total].
  rewrite Ht. eexists. split; [reflexivity|]. repeat split.
Qed.

(** X1. What [get_fstab_mounts] lists is exactly what the non-comment lines
    of the mount table with at least four fields and a network type in the
    third give: every listed entry has its four fields from such a line, and
    every such line has its entry in the list. *)
Theorem listed_entries_are_network_lines (fs : FS) :
  ∃ mounts : list CifsMount,
    get_fstab_mounts fs = (inr mounts, fs) ∧
    (∀ m, m ∈ mounts →
       mem (lower (fstype m)) NET_FS = true ∧
       ∃ line rest, line ∈ table_lines fs ∧ is_comment line = false ∧
         split line
         = remote m :: mountpoint m :: fstype m :: options m :: rest) ∧
    (∀ line r mp t o rest,
       line ∈ table_lines fs → is_comment line = false →
       split line = r :: mp :: t :: o :: rest →
       mem (lower t) NET_FS = true →
       ∃ m, m ∈ mounts ∧ remote m = r ∧ mountpoint m = mp ∧
            fstype m = t ∧ options m = o).
Proof.
  exists (listed fs). split; [apply get_fstab_mounts_run|]. split.
  - intros m Hm. apply list_elem_of_omap in Hm as (line & Hl & Hp).
    apply parse_fstab_line_some in Hp as (Hc & Ht & _ & rest & Hs).
    split; [exact Ht|]. now exists line, rest.
  - intros line r mp t o rest Hl Hc Hs Ht.
    destruct (parse_fstab_line_fields (active_set fs) line r mp t o rest
                Hc Hs Ht) as (m & Hp & Hm).
    exists m. split; [|exact Hm].
    apply list_elem_of_omap. now exists line.
Qed.

Lemma listed_entries_are_network_lines_witness :
  ∃ mounts : list CifsMount,
    get_fstab_mounts mounted_fs = (inr mounts, mounted_fs) ∧
    (∀ m, m ∈ mounts →
       mem (lower (fstype m)) NET_FS = true ∧
       ∃ line rest, line ∈ table_lines mounted_fs ∧ is_comment line = false ∧
         split line
         = remote m :: mountpoint m :: fstype m :: options m :: rest) ∧
    (∀ line r mp t o rest,
       line ∈ table_lines mounted_fs → is_comment line = false →
       split line = r :: mp :: t :: o :: rest →
       mem (lower t) NET_FS = true →
       ∃ m, m ∈ mounts ∧ remote m = r ∧ mountpoint m = mp ∧
            fstype m = t ∧ options m = o).
Proof. apply (listed_entries_are_network_lines mounted_fs). Defined.

End Listing.

(** ** Appending and listing *)

Module AddListing.
Import Str TextIO MountManager MountSpec MountSpec2 StrFacts TextFacts
  DeleteMount LineFacts AddDelete AddMount StrFacts2 SplitFacts Listing
  DefaultOptions.

#[local] Arguments String.append !s1 s2 : simpl nomatch.

Lemma fstab_line_split (r mp t o : string) :
  field r → field mp → field t → field o →
  split (fstab_line r mp t o +:+ NL) = [r; mp; t; o; "0"; "0"].
Proof.
  intros Hr Hm Ht Ho. unfold fstab_line, TAB.
  rewrite !app_assoc.
  change (String "009" "" +:+ ?x) with (String "009" x).
  assert (Hsp : isspace "009" = true) by reflexivity.
  cbn [String.append].
  rewrite (split_field r _ _ Hr Hsp), (split_field mp _ _ Hm Hsp),
    (split_field t _ _ Ht Hsp), (split_field o _ _ Ho Hsp).
  reflexivity.
Qed.

Lemma fstab_line_fields_not_linebreak (r mp t o : string) :
  field r → field mp → field t → field o →
  all_chars not_linebreak (fstab_line r mp t o) = true.
Proof.
  intros [_ Hr] [_ Hm] [_ Ht] [_ Ho]. unfold fstab_line.
  rewrite !all_chars_app.
  rewrite (field_not_linebreak r Hr), (field_not_linebreak mp Hm),
    (field_not_linebreak t Ht), (field_not_linebreak o Ho). reflexivity.
Qed.

Lemma fstab_line_not_comment (r mp t o : string) :
  field r → startswith "#" r = false →
  is_comment (fstab_line r mp t o +:+ NL) = false.
Proof.
  intros [Hne Hr] Hh. destruct r as [|c r]; [contradiction|].
  simpl in Hr. apply andb_true_iff in Hr as [Hc _].
  unfold nonspace in Hc. apply negb_true_iff in Hc.
  unfold is_comment, strip, fstab_line.
  change (String c r +:+ ?x) with (String c (r +:+ x)).
  cbn [String.append lstrip]. rewrite Hc.
  destruct (rstrip_cons c (r +:+ TAB +:+ mp +:+ TAB +:+ t +:+ TAB +:+ o
                             +:+ TAB +:+ "0 0" +:+ NL) Hc) as (x & Hx).
  rewrite !app_assoc in *. cbn [String.append] in *. rewrite Hx.
  cbn [startswith] in *. rewrite andb_true_r in *. exact Hh.
Qed.

Lemma add_mount_keeps_live_status (D : string) (now : datetime)
    (r mp t u p o msg : string) (fs fs' : FS) :
  add_mount D now r mp t u p o fs = (inr (true, msg), fs') →
  active_set fs' = active_set fs.
Proof.
  intros H. apply add_mount_success_inv in H as (c & _ & _ & Hfiles & _).
  unfold active_set, seen_lines. rewrite Hfiles.
  rewrite !lookup_insert_ne by discriminate.
  unfold files_with_creds. destruct (has_credentials u p); [|reflexivity].
  rewrite lookup_insert_ne; [reflexivity|].
  intros E. apply (f_equal last_char) in E.
  rewrite creds_path_last in E. discriminate.
Qed.

(** X2. On a mount table that is empty or ends with a line feed, a
    successful [add_mount] whose remote, mountpoint, type and final option
    string are non-empty and free of white space, with a network type and a
    remote that does not begin with the hash sign, makes [get_fstab_mounts]
    return what it returned before followed by one new entry with that
    remote, mountpoint, type and option string. *)
Theorem add_mount_then_listed (D : string) (now : datetime)
    (r mp t u p o msg : string) (table : content) (fs fs' : FS)
    (before : list CifsMount) :
  files fs !! FSTAB = Some table → ends_with_lf (Os.text_of table) →
  field r → field mp → field t →
  field (with_defaults (with_credentials D mp u p o)) →
  startswith "#" r = false →
  mem (lower t) NET_FS = true →
  get_fstab_mounts fs = (inr before, fs) →
  add_mount D now r mp t u p o fs = (inr (true, msg), fs') →
  ∃ m, get_fstab_mounts fs' = (inr (before ++ [m])%list, fs') ∧
       remote m = r ∧ mountpoint m = mp ∧ fstype m = t ∧
       options m = with_defaults (with_credentials D mp u p o).
Proof.
  intros Hf He Hr Hm Ht Ho Hh Hnet Hbefore Hrun.
  rewrite get_fstab_mounts_run in Hbefore. injection Hbefore as <-.
  pose proof (add_mount_keeps_live_status _ _ _ _ _ _ _ _ _ _ _ Hrun) as Hact.
  pose proof (add_mount_success_inv _ _ _ _ _ _ _ _ _ _ _ Hrun)
    as (c & _ & Hf' & Hfiles & _).
  rewrite Hf in Hf'. injection Hf' as <-.
  set (o' := with_defaults (with_credentials D mp u p o)) in *.
  pose proof (fstab_line_fields_not_linebreak r mp t o' Hr Hm Ht Ho) as Hlb.
  destruct (parse_fstab_line_fields (active_set fs)
              (fstab_line r mp t o' +:+ NL) r mp t o' ["0"; "0"])
    as (m & Hp & Hfields).
  { now apply fstab_line_not_comment. }
  { now apply fstab_line_split. }
  { exact Hnet. }
  exists m. split; [|exact Hfields].
  rewrite get_fstab_mounts_run. f_equal. f_equal.
  unfold listed, table_lines. rewrite Hact, Hfiles, lookup_insert_eq, Hf.
  rewrite text_of_extended.
  rewrite readlines_app by (try exact He; now apply entry_text_no_cr).
  rewrite (entry_text_lines _ _ _ _ _ Hlb).
  unfold mounts_of_lines. rewrite omap_app. f_equal.
  cbn [omap list_omap]. rewrite parse_blank, parse_provenance, Hp.
  reflexivity.
Qed.

Lemma add_mount_then_listed_witness :
  ∃ m, get_fstab_mounts
         (snd (add_mount "/etc/samba/credentials" example_now "//srv/b"
                 "/mnt/y" "cifs" "" "" "ro" mounted_fs))
       = (inr (listed mounted_fs ++ [m])%list,
          snd (add_mount "/etc/samba/credentials" example_now "//srv/b"
                 "/mnt/y" "cifs" "" "" "ro" mounted_fs)) ∧
       remote m = "//srv/b" ∧ mountpoint m = "/mnt/y" ∧ fstype m = "cifs" ∧
       options m
       = with_defaults
           (with_credentials "/etc/samba/credentials" "/mnt/y" "" "" "ro").
Proof.
  apply (add_mount_then_listed "/etc/samba/credentials" example_now
           "//srv/b" "/mnt/y" "cifs" "" "" "ro" "Mount added successfully"
           (Text ("//srv/a /mnt/x cifs ro 0 0" +:+ NL)) mounted_fs _
           (listed mounted_fs));
    try (vm_compute; reflexivity);
    try (split; [discriminate | reflexivity]).
  right. reflexivity.
Defined.

End AddListing.

(** ** Deleting and listing *)

Module DeleteListing.
Import Str TextIO MountManager MountSpec MountSpec2 StrFacts TextFacts
  DeleteMount LineFacts AddDelete AddMount StrFacts2 SplitFacts Listing.

#[local] Arguments String.append !s1 s2 : simpl nomatch.

Lemma startswith_inv (p s : string) :
  startswith p s = true → ∃ y, s = p +:+ y.
Proof.
  revert s. induction p as [|a p IH]; intros s H; [now exists s|].
  destruct s as [|b s]; [discriminate|]. simpl in H.
  apply andb_true_iff in H as [Hab H]. apply Ascii.eqb_eq in Hab. subst b.
  destruct (IH s H) as (y & ->). now exists y.
Qed.

Lemma contains_trans (a b c : string) :
  contains a b = true → contains b c = true → contains a c = true.
Proof.
  intros Hab. induction c as [|d c IH]; intros H.
  - destruct b; [exact Hab | discriminate].
  - cbn [contains] in H. apply orb_true_iff in H as [H | H].
    + apply startswith_inv in H as (y & E). rewrite E.
      now apply contains_app_r.
    + apply contains_cons, IH, H.
Qed.

Lemma omap_sublist {A B} (f : A → option B) (l1 l2 : list A) :
  sublist l1 l2 → sublist (omap f l1) (omap f l2).
Proof.
  induction 1 as [|x l1 l2 _ IH|x l1 l2 _ IH]; cbn [omap list_omap].
  - constructor.
  - destruct (f x); [now apply sublist_skip | exact IH].
  - destruct (f x); [now apply sublist_cons | exact IH].
Qed.

Lemma parse_comment (active : gset string) (line : string) :
  is_comment line = true → parse_fstab_line active line = None.
Proof.
  intros H. unfold parse_fstab_line. unfold is_comment in H.
  now rewrite H, orb_true_r.
Qed.

Lemma mounts_of_comments (active : gset string) (ls : list string) :
  (∀ line, line ∈ ls → is_comment line = true) →
  mounts_of_lines active ls = [].
Proof.
  unfold mounts_of_lines. induction ls as [|l ls IH]; intros H; [reflexivity|].
  cbn [omap list_omap]. rewrite parse_comment by (apply H; left).
  apply IH. intros line Hl. apply H. now right.
Qed.

(** The table after a successful [delete_mount], line by line. *)
Lemma delete_mount_table_lines (mp msg : string) (fs fs' : FS) :
  delete_mount mp fs = (inr (true, msg), fs') →
  table_lines fs' = delete_loop mp false (table_lines fs) ∧
  active_set fs' = active_set fs.
Proof.
  intros H. apply delete_mount_success_inv in H as (c & Hf & Hfiles).
  unfold table_lines, active_set, seen_lines. rewrite Hfiles, Hf.
  rewrite lookup_insert_eq, !lookup_insert_ne by discriminate.
  split; [|reflexivity]. cbn [Os.text_of].
  apply readlines_join_file_lines, delete_loop_file_lines,
    file_lines_readlines.
Qed.



(** X4. Deleting the same mountpoint a second time changes nothing more:
    after a successful [delete_mount], another one for that mountpoint
    succeeds and writes the table that is already there. *)
Theorem delete_mount_twice (mp msg : string) (fs fs1 : FS) :
  delete_mount mp fs = (inr (true, msg), fs1) →
  ∃ fs2, delete_mount mp fs1 = (inr (true, "Mount removed from fstab"), fs2) ∧
         files fs2 !! FSTAB = files fs1 !! FSTAB.
Proof.
  intros H.
  pose proof (delete_mount_table_lines _ _ _ _ H) as [Hlines _].
  apply delete_mount_success_inv in H as (c & Hf & Hfiles).
  assert (Hf1 : files fs1 !! FSTAB
                = Some (Text (join (delete_loop mp false (readlines c)))))
    by (rewrite Hfiles; apply lookup_insert_eq).
  destruct (delete_mount_run mp _ fs1 Hf1) as (fs2 & Hrun & Hfiles2).
  exists fs2. split; [exact Hrun|].
  rewrite Hfiles2, lookup_insert_eq, Hf1. f_equal. f_equal. f_equal.
  unfold table_lines in Hlines. rewrite Hf1, Hf in Hlines.
  cbn [Os.text_of] in Hlines. rewrite Hlines.
  apply delete_loop_fixed, delete_loop_no_match.
Qed.

Lemma delete_mount_twice_witness :
  ∃ fs2,
    delete_mount "/mnt/x"
      (snd (delete_mount "/mnt/x" (mkFS {[ FSTAB := Text mixed_table ]} ∅)))
    = (inr (true, "Mount removed from fstab"), fs2) ∧
    files fs2 !! FSTAB
    = files (snd (delete_mount "/mnt/x" (mkFS {[ FSTAB := Text mixed_table ]} ∅)))
        !! FSTAB.
Proof.
  apply (delete_mount_twice "/mnt/x" "Mount removed from fstab"
           (mkFS {[ FSTAB := Text mixed_table ]} ∅)).
  vm_compute; reflexivity.
Defined.

(** X5. After a successful [delete_mount], [get_fstab_mounts] lists only
    entries that it listed before, in their order, and none whose mountpoint
    contains the deleted mountpoint string. *)
Theorem deleted_mountpoint_not_listed (mp msg : string) (fs fs' : FS)
    (before : list CifsMount) :
  delete_mount mp fs = (inr (true, msg), fs') →
  get_fstab_mounts fs = (inr before, fs) →
  ∃ after, get_fstab_mounts fs' = (inr after, fs') ∧
           sublist after before ∧
           ∀ m, m ∈ after → contains mp (mountpoint m) = false.
Proof.
  intros Hdel Hbefore.
  rewrite get_fstab_mounts_run in Hbefore. injection Hbefore as <-.
  destruct (delete_mount_table_lines _ _ _ _ Hdel) as [Hlines Hact].
  exists (listed fs'). split; [apply get_fstab_mounts_run|].
  unfold listed. rewrite Hlines, Hact. split.
  - apply omap_sublist, delete_loop_sublist.
  - intros m Hm. apply list_elem_of_omap in Hm as (line & Hl & Hp).
    apply parse_fstab_line_some in Hp as (Hc & _ & _ & rest & Hs).
    pose proof (delete_loop_no_match mp false (table_lines fs)) as Hno.
    rewrite Forall_forall in Hno. specialize (Hno line Hl).
    unfold matches in Hno. rewrite Hc, andb_true_r in Hno.
    destruct (contains mp (mountpoint m)) eqn:E; [|reflexivity].
    assert (Hin : contains mp line = true); [|congruence].
    apply (contains_trans _ (mountpoint m)); [exact E|].
    apply split_elem_contains. rewrite Hs. right. left.
Qed.

Lemma deleted_mountpoint_not_listed_witness :
  ∃ after,
    get_fstab_mounts
      (snd (delete_mount "/mnt/x" (mkFS {[ FSTAB := Text mixed_table ]} ∅)))
    = (inr after,
       snd (delete_mount "/mnt/x" (mkFS {[ FSTAB := Text mixed_table ]} ∅))) ∧
    sublist after (listed (mkFS {[ FSTAB := Text mixed_table ]} ∅)) ∧
    ∀ m, m ∈ after → contains "/mnt/x" (mountpoint m) = false.
Proof.
  apply (deleted_mountpoint_not_listed "/mnt/x" "Mount removed from fstab"
           (mkFS {[ FSTAB := Text mixed_table ]} ∅)).
  - vm_compute; reflexivity.
  - apply get_fstab_mounts_run.
Defined.

Lemma delete_empty_lines (msg : string) (fs fs' : FS) :
  delete_mount "" fs = (inr (true, msg), fs') →
  ∀ line, line ∈ table_lines fs' → is_comment line = true.
Proof.
  intros Hdel.
  destruct (delete_mount_table_lines _ _ _ _ Hdel) as [Hlines _].
  intros line Hl. rewrite Hlines in Hl.
  pose proof (delete_loop_no_match "" false (table_lines fs)) as Hno.
  rewrite Forall_forall in Hno. specialize (Hno line Hl).
  unfold matches in Hno.
  assert (Hin : contains "" line = true) by (destruct line; reflexivity).
  rewrite Hin in Hno. now apply negb_false_iff in Hno.
Qed.

(** X6. [delete_mount] with the empty mountpoint, which is in every line,
    removes every line that is not a comment: what is left of the table are
    comment lines, and [get_fstab_mounts] lists nothing. *)
Theorem delete_empty_mountpoint (msg : string) (fs fs' : FS) :
  delete_mount "" fs = (inr (true, msg), fs') →
  (∀ line, line ∈ table_lines fs' → is_comment line = true) ∧
  get_fstab_mounts fs' = (inr [], fs').
Proof.
  intros Hdel.
  pose proof (delete_empty_lines msg fs fs' Hdel) as Hall.
  split; [exact Hall|].
  rewrite get_fstab_mounts_run. f_equal. f_equal.
  unfold listed. now apply mounts_of_comments.
Qed.

Lemma delete_empty_mountpoint_witness :
  (∀ line,
     line ∈ table_lines
              (snd (delete_mount "" (mkFS {[ FSTAB := Text mixed_table ]} ∅))) →
     is_comment line = true) ∧
  get_fstab_mounts (snd (delete_mount "" (mkFS {[ FSTAB := Text mixed_table ]} ∅)))
  = (inr [], snd (delete_mount "" (mkFS {[ FSTAB := Text mixed_table ]} ∅))).
Proof.
  apply (delete_empty_mountpoint "Mount removed from fstab"
           (mkFS {[ FSTAB := Text mixed_table ]} ∅)).
  vm_compute; reflexivity.
Defined.

End DeleteListing.

(** ** The parser after [add_share] and [delete_share] *)

Module ParserFacts.
Import Str ConfigParser SambaConfig ConfigSpec ConfigSpec2 MonadFacts Unique
  ConfigRuns ConfigSuccess ListShares.

Lemma dict_get_set {V} (k k' : string) (v : V) (d : list (string * V)) :
  dict_get k (dict_set k' v d)
  = if String.eqb k k' then Some v else dict_get k d.
Proof.
  induction d as [|[k0 v0] d IH]; simpl.
  - destruct (String.eqb k k'); reflexivity.
  - destruct (String.eqb k' k0) eqn:E; simpl.
    + apply String.eqb_eq in E. subst k0.
      destruct (String.eqb k k'); reflexivity.
    + rewrite IH. destruct (String.eqb k k0) eqn:E0; [|reflexivity].
      apply String.eqb_eq in E0. subst k0.
      rewrite String.eqb_sym in E. now rewrite E.
Qed.

Lemma dict_get_app_old {V} (k : string) (d1 d2 : list (string * V)) :
  k ∈ map fst d1 → dict_get k (d1 ++ d2) = dict_get k d1.
Proof.
  induction d1 as [|[k0 v0] d1 IH]; simpl; [intros H; inversion H|].
  intros H. destruct (String.eqb k k0) eqn:E; [reflexivity|].
  apply IH. apply elem_of_cons in H as [-> | H]; [|exact H].
  now rewrite String.eqb_refl in E.
Qed.

Lemma dict_get_app_new {V} (k : string) (v : V) (d1 : list (string * V)) :
  k ∉ map fst d1 → dict_get k (d1 ++ [(k, v)]) = Some v.
Proof.
  induction d1 as [|[k0 v0] d1 IH]; simpl; intros H.
  - now rewrite String.eqb_refl.
  - destruct (String.eqb k k0) eqn:E.
    + apply String.eqb_eq in E. subst k0. exfalso. apply H. left.
    + apply IH. intros Hin. apply H. now right.
Qed.

Lemma dict_set_app_new {V} (k : string) (v v' : V) (d1 : list (string * V)) :
  k ∉ map fst d1 →
  dict_set k v' (d1 ++ [(k, v)]) = (d1 ++ [(k, v')])%list.
Proof.
  induction d1 as [|[k0 v0] d1 IH]; simpl; intros H.
  - now rewrite String.eqb_refl.
  - destruct (String.eqb k k0) eqn:E.
    + apply String.eqb_eq in E. subst k0. exfalso. apply H. left.
    + rewrite IH; [reflexivity|]. intros Hin. apply H. now right.
Qed.

Lemma dict_get_del {V} (k n : string) (d : list (string * V)) :
  k ≠ n → dict_get k (dict_del n d) = dict_get k d.
Proof.
  intros Hk. induction d as [|[k0 v0] d IH]; simpl; [reflexivity|].
  destruct (String.eqb n k0) eqn:E; simpl.
  - apply String.eqb_eq in E. subst k0.
    apply String.eqb_neq in Hk. now rewrite Hk.
  - now rewrite IH.
Qed.

Lemma dict_del_keys {V} (n : string) (d : list (string * V)) :
  NoDup (map fst d) →
  map fst (dict_del n d)
  = List.filter (fun s => negb (String.eqb s n)) (map fst d).
Proof.
  induction d as [|[k0 v0] d IH]; simpl; [reflexivity|].
  intros H. apply NoDup_cons in H as [Hk0 Hd].
  destruct (String.eqb n k0) eqn:E.
  - apply String.eqb_eq in E. subst k0. rewrite String.eqb_refl. simpl.
    symmetry. apply forallb_filter_id. apply forallb_forall.
    intros s Hs. apply negb_true_iff, String.eqb_neq. intros ->.
    apply Hk0. now apply list_elem_of_In.
  - rewrite String.eqb_sym, E. simpl. now rewrite IH.
Qed.

(** Setting a key of the section that was added last. *)
Lemma set_last (section key : string) (value : option string)
    (df : optdict) (ss : list (string * optdict)) (d : optdict) :
  section ≠ "" → section ≠ DEFAULTSECT → section ∉ map fst ss →
  set section key value (ConfigParser.mk df (ss ++ [(section, d)]))
  = inr (ConfigParser.mk df
           (ss ++ [(section, dict_set (optionxform key) value d)])).
Proof.
  intros H1 H2 H3. unfold set. cbn [sects defaults].
  apply String.eqb_neq in H1, H2. rewrite H1, H2. cbn [orb].
  now rewrite dict_get_app_new, dict_set_app_new.
Qed.

End ParserFacts.

(** ** Adding a share and listing *)

Module AddShareListing.
Import Str ConfigParser SambaConfig ConfigSpec ConfigSpec2 MonadFacts Unique
  ConfigRuns ConfigSuccess ListShares ParserFacts.

Lemma add_section_inr (section : string) (p p' : ConfigParser.t) :
  add_section section p = inr p' →
  section ≠ DEFAULTSECT ∧ (section ∉ sections p) ∧
  p' = ConfigParser.mk (defaults p) (sects p ++ [(section, [])]).
Proof.
  unfold add_section. destruct (String.eqb section DEFAULTSECT) eqn:E;
    [discriminate|].
  destruct (has_section section p) eqn:Hs; [discriminate|].
  intros [= <-]. split_and!; [now apply String.eqb_neq | | reflexivity].
  intros Hin. apply mem_true_iff in Hin. unfold has_section in Hs. congruence.
Qed.

(** Peels a [set] on the new section off a run that returned a value. *)
Ltac set_step H :=
  let Hs := fresh "Hs" in let Hp := fresh "Hp" in let Hf := fresh "Hf" in
  apply bind_inr_inv in H as ([] & ? & Hs & H);
  apply mutate_inv in Hs as (? & ? & Hp & Hf & ->);
  cbn [self parser] in Hp; injection Hp as <-;
  rewrite set_last in Hf by assumption; injection Hf as <-;
  cbn [self fs config_path error parser] in H.

Lemma get_old (s key fb : string) (p : ConfigParser.t)
    (x : list (string * optdict)) :
  s ∈ sections p →
  ConfigParser.get s key fb (ConfigParser.mk (defaults p) (sects p ++ x))
  = ConfigParser.get s key fb p.
Proof.
  intros Hs. unfold ConfigParser.get. cbn [sects defaults].
  now rewrite dict_get_app_old.
Qed.

Lemma share_of_section_old (s : string) (p : ConfigParser.t)
    (x : list (string * optdict)) :
  s ∈ sections p →
  share_of_section (ConfigParser.mk (defaults p) (sects p ++ x)) s
  = share_of_section p s.
Proof.
  intros Hs. unfold share_of_section. now rewrite !get_old.
Qed.

Lemma shares_of_sections_ext (p p' : ConfigParser.t) (l : list string) :
  (∀ s, s ∈ l → share_of_section p' s = share_of_section p s) →
  shares_of_sections p' l = shares_of_sections p l.
Proof.
  induction l as [|s l IH]; intros H; [reflexivity|].
  cbn [shares_of_sections]. rewrite IH by (intros; apply H; now right).
  now rewrite (H s) by left.
Qed.

Lemma shares_of_sections_app (p : ConfigParser.t) (l1 l2 : list string)
    (a b : list SambaShare) :
  shares_of_sections p l1 = inr a → shares_of_sections p l2 = inr b →
  shares_of_sections p (l1 ++ l2) = inr (a ++ b)%list.
Proof.
  revert a. induction l1 as [|s l1 IH]; intros a Ha Hb.
  - injection Ha as <-. exact Hb.
  - cbn [shares_of_sections app] in *.
    destruct (negb (String.eqb (lower s) "global")).
    + destruct (share_of_section p s) as [e|sh]; [discriminate|].
      destruct (shares_of_sections p l1) as [e|a'] eqn:E; [discriminate|].
      injection Ha as <-. now rewrite (IH a' eq_refl Hb).
    + now apply IH.
Qed.

Lemma is_yes_yes_no (b : bool) : is_yes (yes_no b) = inr b.
Proof. destruct b; reflexivity. Qed.

(** The new section read back by [get_shares]. *)
Lemma share_of_new_section (share : SambaShare) (df : optdict)
    (ss : list (string * optdict)) :
  name share ∉ map fst ss →
  ∃ s, share_of_section
         (ConfigParser.mk df (ss ++ [(name share, share_options share)]))
         (name share) = inr s ∧
       name s = name share ∧ path s = path share ∧
       writable s = writable share ∧ browseable s = browseable share ∧
       guest_ok s = guest_ok share ∧
       create_mask s = create_mask share ∧
       directory_mask s = directory_mask share ∧
       (truthy (comment share) = true → comment s = comment share) ∧
       (truthy (valid_users share) = true →
        valid_users s = valid_users share).
Proof.
  intros Hnew. unfold share_of_section, ConfigParser.get. cbn [sects defaults].
  rewrite dict_get_app_new by exact Hnew.
  unfold share_options, share_options_onto.
  destruct (truthy (comment share)) eqn:Hc;
    destruct (truthy (valid_users share)) eqn:Hv;
    cbv zeta;
    rewrite !dict_get_set; cbn [dict_get];
    repeat match goal with
      | |- context [String.eqb (optionxform ?a) (optionxform ?b)] =>
          let v := eval vm_compute in (String.eqb (optionxform a) (optionxform b)) in
          change (String.eqb (optionxform a) (optionxform b)) with v
      end;
    cbv iota; rewrite !is_yes_yes_no;
    eexists; (split; [reflexivity|]); cbn;
    split_and!; try reflexivity; try discriminate; intros _; reflexivity.
Qed.

Section WithParser.

Variable read_file : string → option exn * ConfigParser.t.

(** The parser after a successful [add_share]: the sections as they were,
    then the new one with its keys. *)
Lemma add_share_success_parser (now : datetime) (share : SambaShare)
    (w w' : world) :
  add_share read_file now share w = (inr true, w') → name share ≠ "" →
  ∃ w1 p, ensure_loaded read_file w = (inr tt, w1) ∧
          parser (self w1) = Some p ∧
          (name share ∉ sections p) ∧ name share ≠ DEFAULTSECT ∧
          parser (self w')
          = Some (ConfigParser.mk (defaults p)
                    (sects p ++ [(name share, share_options share)])).
Proof.
  intros H Hne. unfold add_share in H.
  apply bind_inr_inv in H as ([] & w1 & Hl & H).
  destruct (ensure_loaded_spec read_file w) as (w1' & p & Hl' & _ & _ & Hp & _).
  rewrite Hl in Hl'. injection Hl' as <-.
  exists w1, p. split; [exact Hl|]. split; [exact Hp|].
  apply try_except_true_inv in H.
  apply bind_inr_inv in H as (b & w2 & Hq & H).
  apply query_inv in Hq as [-> _].
  destruct b; [unfold bind, set_error, ret in H; discriminate|].
  apply bind_inr_inv in H as ([] & w3 & Hs & H).
  apply mutate_inv in Hs as (p0 & p1 & Hp0 & Hf & ->).
  rewrite Hp in Hp0. injection Hp0 as <-.
  apply add_section_inr in Hf as (Hd & Hnew & ->).
  split; [exact Hnew|]. split; [exact Hd|].
  cbn [self fs config_path error parser] in H.
  unfold sections in Hnew.
  do 4 set_step H.
  unfold share_options, share_options_onto.
  destruct (truthy (comment share)); destruct (truthy (valid_users share)).
  - do 4 set_step H.
    apply save_success_inv in H as (q & Hq & Hself & _).
    rewrite Hself. reflexivity.
  - set_step H. apply bind_inr_inv in H as ([] & ? & [= <-] & H).
    do 2 set_step H.
    apply save_success_inv in H as (q & Hq & Hself & _).
    rewrite Hself. reflexivity.
  - apply bind_inr_inv in H as ([] & ? & [= <-] & H).
    do 3 set_step H.
    apply save_success_inv in H as (q & Hq & Hself & _).
    rewrite Hself. reflexivity.
  - apply bind_inr_inv in H as ([] & ? & [= <-] & H).
    apply bind_inr_inv in H as ([] & ? & [= <-] & H).
    do 2 set_step H.
    apply save_success_inv in H as (q & Hq & Hself & _).
    rewrite Hself. reflexivity.
Qed.

Lemma get_shares_inv (w w1 : world) (before : list SambaShare) :
  get_shares read_file w = (inr before, w1) →
  ensure_loaded read_file w = (inr tt, w1) ∧
  ∃ p, parser (self w1) = Some p ∧
       shares_of_sections p (sections p) = inr before.
Proof.
  intros H. unfold get_shares in H.
  apply bind_inr_inv in H as ([] & w2 & Hl & H).
  apply bind_inr_inv in H as (r & w3 & Hq & H).
  apply query_inv in Hq as [-> (p & Hp & ->)].
  destruct (shares_of_sections p (sections p)) as [e|l] eqn:E; [discriminate|].
  injection H as <- <-. split; [exact Hl|]. now exists p.
Qed.

Lemma get_shares_loaded (w : world) (p : ConfigParser.t)
    (l : list SambaShare) :
  parser (self w) = Some p → shares_of_sections p (sections p) = inr l →
  get_shares read_file w = (inr l, w).
Proof.
  intros Hp Hl.
  unfold get_shares, ensure_loaded, bind, get_self, query, ret.
  rewrite Hp. cbn [self parser]. now rewrite Hp, Hl.
Qed.

(** X7. After a successful [add_share] of a share with a non-empty name,
    [get_shares] returns what it returned before followed by the new share,
    with the name, path, flags and masks that were given, and the comment
    and valid users when they are not empty; when the name is one that
    [get_shares] takes for the global section, it returns what it returned
    before, without the new share. *)
Theorem add_share_then_listed (now : datetime) (share : SambaShare)
    (w w1 w' : world) (before : list SambaShare) :
  name share ≠ "" →
  get_shares read_file w = (inr before, w1) →
  add_share read_file now share w = (inr true, w') →
  (non_global (name share) = false →
   get_shares read_file w' = (inr before, w')) ∧
  (non_global (name share) = true →
   ∃ s, get_shares read_file w' = (inr (before ++ [s])%list, w') ∧
        name s = name share ∧ path s = path share ∧
        writable s = writable share ∧ browseable s = browseable share ∧
        guest_ok s = guest_ok share ∧
        create_mask s = create_mask share ∧
        directory_mask s = directory_mask share ∧
        (truthy (comment share) = true → comment s = comment share) ∧
        (truthy (valid_users share) = true →
         valid_users s = valid_users share)).
Proof.
  intros Hne Hbefore Hadd.
  apply get_shares_inv in Hbefore as (Hl & p & Hp & Hold).
  destruct (add_share_success_parser now share w w' Hadd Hne)
    as (w1' & p' & Hl' & Hp' & Hnew & _ & Hafter).
  rewrite Hl in Hl'. injection Hl' as <-.
  rewrite Hp in Hp'. injection Hp' as <-.
  set (p2 := ConfigParser.mk (defaults p)
               (sects p ++ [(name share, share_options share)])) in *.
  assert (Hsec : sections p2 = (sections p ++ [name share])%list)
    by (unfold sections, p2; cbn [sects]; now rewrite map_app).
  assert (Hold2 : shares_of_sections p2 (sections p) = inr before).
  { rewrite <- Hold. apply shares_of_sections_ext.
    intros s Hs. now apply share_of_section_old. }
  destruct (share_of_new_section share (defaults p) (sects p) Hnew)
    as (s & Hs & Hfields).
  fold p2 in Hs. split.
  - intros Hg. apply (get_shares_loaded w' p2); [exact Hafter|].
    rewrite Hsec.
    rewrite (shares_of_sections_app p2 _ [name share] before [] Hold2).
    + f_equal. apply List.app_nil_r.
    + cbn [shares_of_sections]. fold (is_global_name (name share)).
      fold (non_global (name share)). now rewrite Hg.
  - intros Hg. exists s. split; [|exact Hfields].
    apply (get_shares_loaded w' p2); [exact Hafter|].
    rewrite Hsec.
    apply (shares_of_sections_app p2 _ [name share] before [s] Hold2).
    cbn [shares_of_sections]. fold (is_global_name (name share)).
    fold (non_global (name share)). now rewrite Hg, Hs.
Qed.

End WithParser.

Lemma add_share_then_listed_witness :
  (non_global (name (default_share "docs" "/srv/docs")) = false →
   get_shares example_read_file (snd (add_share example_read_file MountSpec.example_now (default_share "docs" "/srv/docs") example_world)) = (inr [], (snd (add_share example_read_file MountSpec.example_now (default_share "docs" "/srv/docs") example_world)))) ∧
  (non_global (name (default_share "docs" "/srv/docs")) = true →
   ∃ s, get_shares example_read_file (snd (add_share example_read_file MountSpec.example_now (default_share "docs" "/srv/docs") example_world)) = (inr ([] ++ [s])%list, (snd (add_share example_read_file MountSpec.example_now (default_share "docs" "/srv/docs") example_world))) ∧
        name s = name (default_share "docs" "/srv/docs") ∧ path s = path (default_share "docs" "/srv/docs") ∧
        writable s = writable (default_share "docs" "/srv/docs") ∧
        browseable s = browseable (default_share "docs" "/srv/docs") ∧
        guest_ok s = guest_ok (default_share "docs" "/srv/docs") ∧
        create_mask s = create_mask (default_share "docs" "/srv/docs") ∧
        directory_mask s = directory_mask (default_share "docs" "/srv/docs") ∧
        (truthy (comment (default_share "docs" "/srv/docs")) = true → comment s = comment (default_share "docs" "/srv/docs")) ∧
        (truthy (valid_users (default_share "docs" "/srv/docs")) = true →
         valid_users s = valid_users (default_share "docs" "/srv/docs"))).
Proof.
  apply (add_share_then_listed example_read_file MountSpec.example_now (default_share "docs" "/srv/docs") example_world
           (snd (get_shares example_read_file example_world))).
  - discriminate.
  - vm_compute; reflexivity.
  - vm_compute; reflexivity.
Defined.

End AddShareListing.

(** ** Deleting a share, reserved names and the backup *)

Module DeleteShareListing.
Import Str ConfigParser SambaConfig ConfigSpec ConfigSpec2 MonadFacts Unique
  ConfigRuns ConfigSuccess ListShares ParserFacts AddShareListing MountSpec
  ConfigClaims.

Lemma share_of_section_name (p : ConfigParser.t) (s : string)
    (sh : SambaShare) :
  share_of_section p s = inr sh → name sh = s.
Proof.
  unfold share_of_section.
  repeat (destruct (is_yes _); [discriminate|]). now intros [= <-].
Qed.

Lemma share_of_section_del (p : ConfigParser.t) (n s : string) :
  s ≠ n →
  share_of_section (ConfigParser.mk (defaults p) (dict_del n (sects p))) s
  = share_of_section p s.
Proof.
  intros Hs. unfold share_of_section, ConfigParser.get. cbn [sects defaults].
  now rewrite !dict_get_del.
Qed.

Lemma shares_of_sections_filter (p p' : ConfigParser.t) (n : string)
    (l : list string) (before : list SambaShare) :
  (∀ s, s ≠ n → share_of_section p' s = share_of_section p s) →
  shares_of_sections p l = inr before →
  shares_of_sections p' (List.filter (fun s => negb (String.eqb s n)) l)
  = inr (List.filter (other_than n) before).
Proof.
  intros Hext. revert before.
  induction l as [|s l IH]; intros before H.
  - injection H as <-. reflexivity.
  - cbn [shares_of_sections List.filter] in *.
    destruct (String.eqb s n) eqn:E; cbn [negb].
    + apply String.eqb_eq in E. subst s.
      destruct (negb (String.eqb (lower n) "global")).
      * destruct (share_of_section p n) as [e|sh] eqn:Hsh; [discriminate|].
        destruct (shares_of_sections p l) as [e|bs]; [discriminate|].
        injection H as <-. cbn [List.filter]. unfold other_than at 1.
        rewrite (share_of_section_name p n sh Hsh), String.eqb_refl.
        now apply IH.
      * now apply IH.
    + cbn [shares_of_sections].
      destruct (negb (String.eqb (lower s) "global")).
      * rewrite Hext by now apply String.eqb_neq.
        destruct (share_of_section p s) as [e|sh] eqn:Hsh; [discriminate|].
        destruct (shares_of_sections p l) as [e|bs]; [discriminate|].
        injection H as <-. cbn [List.filter]. unfold other_than at 1.
        rewrite (share_of_section_name p s sh Hsh), E. cbn [negb].
        now rewrite (IH bs eq_refl).
      * now apply IH.
Qed.

Section WithParser.

Variable read_file : string → option exn * ConfigParser.t.

Lemma delete_share_success_parser (now : datetime) (n : string)
    (w w' : world) :
  delete_share read_file now n w = (inr true, w') →
  ∃ w1 p, ensure_loaded read_file w = (inr tt, w1) ∧
          parser (self w1) = Some p ∧ has_section n p = true ∧
          parser (self w')
          = Some (ConfigParser.mk (defaults p) (dict_del n (sects p))).
Proof.
  intros H. unfold delete_share in H.
  apply bind_inr_inv in H as ([] & w1 & Hl & H).
  destruct (ensure_loaded_spec read_file w) as (w1' & p & Hl' & _ & _ & Hp & _).
  rewrite Hl in Hl'. injection Hl' as <-.
  exists w1, p. split; [exact Hl|]. split; [exact Hp|].
  apply try_except_true_inv in H.
  apply bind_inr_inv in H as (b & w2 & Hq & H).
  apply query_inv in Hq as [-> (p0 & Hp0 & ->)].
  rewrite Hp in Hp0. injection Hp0 as <-.
  destruct (has_section n p); [|unfold bind, set_error, ret in H; discriminate].
  split; [reflexivity|]. cbn [negb] in H.
  apply bind_inr_inv in H as ([] & w3 & Hs & H).
  apply mutate_inv in Hs as (p0 & p1 & Hp0 & Hf & ->).
  rewrite Hp in Hp0. injection Hp0 as <-. injection Hf as <-.
  apply save_success_inv in H as (q & Hq & Hself & _).
  rewrite Hself. reflexivity.
Qed.

(** X8. After a successful [delete_share] on a configuration with distinct
    section names, the section is gone, the other sections stay in their
    order, and [get_shares] returns what it returned before without the
    share of that name.  No name is exempt: the global section is deleted
    like any other. *)
Theorem delete_share_then_listed (now : datetime) (n : string)
    (w w1 w' : world) (p : ConfigParser.t) (before : list SambaShare) :
  get_shares read_file w = (inr before, w1) →
  parser (self w1) = Some p → NoDup (sections p) →
  delete_share read_file now n w = (inr true, w') →
  n ∈ sections p ∧
  (sections <$> parser (self w'))
  = Some (List.filter (fun s => negb (String.eqb s n)) (sections p)) ∧
  get_shares read_file w' = (inr (List.filter (other_than n) before), w').
Proof.
  intros Hbefore Hp Hnd Hdel.
  apply get_shares_inv in Hbefore as (Hl & p0 & Hp0 & Hold).
  rewrite Hp in Hp0. injection Hp0 as <-.
  destruct (delete_share_success_parser now n w w' Hdel)
    as (w1' & p' & Hl' & Hp' & Hhas & Hafter).
  rewrite Hl in Hl'. injection Hl' as <-.
  rewrite Hp in Hp'. injection Hp' as <-.
  set (p2 := ConfigParser.mk (defaults p) (dict_del n (sects p))) in *.
  assert (Hsec : sections p2
                 = List.filter (fun s => negb (String.eqb s n)) (sections p))
    by (unfold sections, p2; cbn [sects]; now apply dict_del_keys).
  split_and!.
  - now apply mem_true_iff.
  - rewrite Hafter. change (Some (sections p2) = Some (List.filter (fun s => negb (String.eqb s n)) (sections p))). now rewrite Hsec.
  - apply (get_shares_loaded read_file w' p2); [exact Hafter|].
    rewrite Hsec. apply (shares_of_sections_filter p); [|exact Hold].
    intros s Hs. now apply share_of_section_del.
Qed.

(** X9. [delete_share] of a name that is no section returns False with the
    error text "Share '<name>' not found" and leaves the parser and the file
    system as they were. *)
Theorem delete_share_missing (now : datetime) (n : string)
    (w w1 : world) (p : ConfigParser.t) :
  ensure_loaded read_file w = (inr tt, w1) →
  parser (self w1) = Some p →
  has_section n p = false →
  ∃ w', delete_share read_file now n w = (inr false, w') ∧
        error (self w') = Some ("Share '" +:+ n +:+ "' not found") ∧
        parser (self w') = Some p ∧ fs w' = fs w.
Proof.
  intros Hl Hp Hs.
  destruct (ensure_loaded_spec read_file w) as (w1' & q & Hl' & Hf & _).
  rewrite Hl in Hl'. injection Hl' as <-.
  unfold delete_share. rewrite (bind_run _ _ _ _ _ Hl).
  unfold try_except, bind, query, set_error, ret. rewrite Hp, Hs. cbn [negb].
  eexists. split; [reflexivity|]. cbn [self error parser fs]. now rewrite Hp.
Qed.

(** X10. [add_share] with the name DEFAULT, which the parser reserves, is
    turned down by the parser: the call returns False with the error text
    "Failed to add share: Invalid section name: 'DEFAULT'" and leaves the
    parser and the file system as they were. *)
Theorem add_share_default_name (now : datetime) (share : SambaShare)
    (w w1 : world) (p : ConfigParser.t) :
  ensure_loaded read_file w = (inr tt, w1) →
  parser (self w1) = Some p →
  has_section DEFAULTSECT p = false →
  name share = DEFAULTSECT →
  ∃ w', add_share read_file now share w = (inr false, w') ∧
        error (self w')
        = Some "Failed to add share: Invalid section name: 'DEFAULT'" ∧
        parser (self w') = Some p ∧ fs w' = fs w.
Proof.
  intros Hl Hp Hs Hn.
  destruct (ensure_loaded_spec read_file w) as (w1' & q & Hl' & Hf & _).
  rewrite Hl in Hl'. injection Hl' as <-.
  unfold add_share. rewrite (bind_run _ _ _ _ _ Hl). rewrite Hn.
  unfold try_except, bind at 1, query. rewrite Hp, Hs.
  unfold bind at 1, mutate. rewrite Hp.
  eexists. split; [reflexivity|]. cbn [self error parser fs]. now rewrite Hp.
Qed.

End WithParser.

Lemma delete_share_then_listed_witness :
  "docs" ∈ sections inherited_parser ∧
  (sections <$> parser (self (snd (delete_share example_read_file MountSpec.example_now "docs" (mkWorld (mk SMB_CONF (Some inherited_parser) None) (fs example_world))))))
  = Some (List.filter (fun s => negb (String.eqb s "docs"))
            (sections inherited_parser)) ∧
  get_shares example_read_file (snd (delete_share example_read_file MountSpec.example_now "docs" (mkWorld (mk SMB_CONF (Some inherited_parser) None) (fs example_world))))
  = (inr (List.filter (other_than "docs")
            (map (documented_share inherited_parser)
               (List.filter non_global (sections inherited_parser)))),
     (snd (delete_share example_read_file MountSpec.example_now "docs" (mkWorld (mk SMB_CONF (Some inherited_parser) None) (fs example_world))))).
Proof.
  apply (delete_share_then_listed example_read_file MountSpec.example_now "docs" (mkWorld (mk SMB_CONF (Some inherited_parser) None) (fs example_world)) (mkWorld (mk SMB_CONF (Some inherited_parser) None) (fs example_world))).
  - vm_compute; reflexivity.
  - reflexivity.
  - apply NoDup_cons. split; [|apply NoDup_singleton].
    intros H. apply list_elem_of_singleton in H. discriminate.
  - vm_compute; reflexivity.
Defined.

Lemma delete_share_missing_witness :
  ∃ w', delete_share example_read_file MountSpec.example_now "docs" example_world = (inr false, w') ∧
        error (self w') = Some ("Share '" +:+ "docs" +:+ "' not found") ∧
        parser (self w') = Some (only_global [("workgroup", Some "WORKGROUP")]) ∧
        fs w' = fs example_world.
Proof.
  apply (delete_share_missing example_read_file MountSpec.example_now "docs" example_world
           (snd (ensure_loaded example_read_file example_world))).
  - vm_compute; reflexivity.
  - reflexivity.
  - reflexivity.
Defined.

Lemma add_share_default_name_witness :
  ∃ w', add_share example_read_file MountSpec.example_now (default_share DEFAULTSECT "/srv/d") example_world = (inr false, w') ∧
        error (self w')
        = Some "Failed to add share: Invalid section name: 'DEFAULT'" ∧
        parser (self w') = Some (only_global [("workgroup", Some "WORKGROUP")]) ∧
        fs w' = fs example_world.
Proof.
  apply (add_share_default_name example_read_file MountSpec.example_now (default_share DEFAULTSECT "/srv/d") example_world
           (snd (ensure_loaded example_read_file example_world))).
  - vm_compute; reflexivity.
  - reflexivity.
  - reflexivity.
  - reflexivity.
Defined.

End DeleteShareListing.

(** ** A share without a name *)

Module EmptyName.
Import Str ConfigParser SambaConfig ConfigSpec ConfigSpec2 MonadFacts Unique
  ConfigRuns ConfigSuccess ListShares ParserFacts AddShareListing.

Lemma set_default_section (key : string) (value : option string)
    (p : ConfigParser.t) :
  set "" key value p
  = inr (ConfigParser.mk (dict_set (optionxform key) value (defaults p))
           (sects p)).
Proof. reflexivity. Qed.

(** Peels a [set] on the section without a name off a run that returned a
    value. *)
Ltac default_step H :=
  let Hs := fresh "Hs" in let Hp := fresh "Hp" in let Hf := fresh "Hf" in
  apply bind_inr_inv in H as ([] & ? & Hs & H);
  apply mutate_inv in Hs as (? & ? & Hp & Hf & ->);
  cbn [self parser] in Hp; injection Hp as <-;
  rewrite set_default_section in Hf; injection Hf as <-;
  cbn [self fs config_path error parser defaults sects] in H.

Lemma path_of_share_options (d0 : optdict) (share : SambaShare) :
  dict_get "path" (share_options_onto d0 share) = Some (path share).
Proof.
  unfold share_options_onto.
  destruct (truthy (comment share)); destruct (truthy (valid_users share));
    cbv zeta; rewrite !dict_get_set; reflexivity.
Qed.

Section WithParser.

Variable read_file : string → option exn * ConfigParser.t.

(** X11. A successful [add_share] of a share with the empty name makes an
    empty section and stores the keys of the share in the DEFAULT section:
    afterwards every section without a path key of its own reads the path
    of that share. *)
Theorem add_share_empty_name (now : datetime) (share : SambaShare)
    (w w' : world) :
  name share = "" →
  add_share read_file now share w = (inr true, w') →
  ∃ w1 p p',
    ensure_loaded read_file w = (inr tt, w1) ∧
    parser (self w1) = Some p ∧ parser (self w') = Some p' ∧
    sects p' = (sects p ++ [("", [])])%list ∧
    defaults p' = share_options_onto (defaults p) share ∧
    ∀ s d fb, dict_get s (sects p') = Some d → dict_get "path" d = None →
              ConfigParser.get s "path" fb p' = path share.
Proof.
  intros Hn H. unfold add_share in H. rewrite Hn in H.
  apply bind_inr_inv in H as ([] & w1 & Hl & H).
  destruct (ensure_loaded_spec read_file w) as (w1' & p & Hl' & _ & _ & Hp & _).
  rewrite Hl in Hl'. injection Hl' as <-.
  apply try_except_true_inv in H.
  apply bind_inr_inv in H as (b & w2 & Hq & H).
  apply query_inv in Hq as [-> _].
  destruct b; [unfold bind, set_error, ret in H; discriminate|].
  apply bind_inr_inv in H as ([] & w3 & Hs & H).
  apply mutate_inv in Hs as (p0 & p1 & Hp0 & Hf & ->).
  rewrite Hp in Hp0. injection Hp0 as <-.
  apply add_section_inr in Hf as (_ & _ & ->).
  cbn [self fs config_path error parser] in H.
  assert (Hres : parser (self w')
                 = Some (ConfigParser.mk (share_options_onto (defaults p) share)
                           (sects p ++ [("", [])]))).
  { do 4 default_step H.
    unfold share_options_onto.
    destruct (truthy (comment share)); destruct (truthy (valid_users share)).
    - do 4 default_step H.
      apply save_success_inv in H as (q & Hq & Hself & _).
      rewrite Hself. reflexivity.
    - default_step H. apply bind_inr_inv in H as ([] & ? & [= <-] & H).
      do 2 default_step H.
      apply save_success_inv in H as (q & Hq & Hself & _).
      rewrite Hself. reflexivity.
    - apply bind_inr_inv in H as ([] & ? & [= <-] & H).
      do 3 default_step H.
      apply save_success_inv in H as (q & Hq & Hself & _).
      rewrite Hself. reflexivity.
    - apply bind_inr_inv in H as ([] & ? & [= <-] & H).
      apply bind_inr_inv in H as ([] & ? & [= <-] & H).
      do 2 default_step H.
      apply save_success_inv in H as (q & Hq & Hself & _).
      rewrite Hself. reflexivity. }
  eexists w1, p, _. split_and!; [exact Hl | exact Hp | exact Hres | reflexivity..|].
  intros s d fb Hd Hnone. unfold ConfigParser.get. cbn [sects defaults].
  cbn [sects] in Hd. rewrite Hd.
  change (optionxform "path") with "path".
  now rewrite Hnone, path_of_share_options.
Qed.

End WithParser.

Lemma add_share_empty_name_witness :
  ∃ w1 p p',
    ensure_loaded example_read_file example_world = (inr tt, w1) ∧
    parser (self w1) = Some p ∧ parser (self (snd (add_share example_read_file MountSpec.example_now (default_share "" "/srv/docs") example_world))) = Some p' ∧
    sects p' = (sects p ++ [("", [])])%list ∧
    defaults p' = share_options_onto (defaults p) (default_share "" "/srv/docs") ∧
    ∀ s d fb, dict_get s (sects p') = Some d → dict_get "path" d = None →
              ConfigParser.get s "path" fb p' = path (default_share "" "/srv/docs").
Proof.
  apply (add_share_empty_name example_read_file MountSpec.example_now (default_share "" "/srv/docs") example_world).
  - reflexivity.
  - vm_compute; reflexivity.
Defined.

End EmptyName.

(** ** Listing the users *)

Module UserFacts.
Import Str Subprocess SambaUserManager MountSpec UserSpec StrFacts TextFacts.

#[local] Arguments String.append !s1 s2 : simpl nomatch.

Lemma split_on_line (l rest : string) :
  all_chars not_lf l = true →
  split_on LF (l +:+ String LF rest) = l :: split_on LF rest.
Proof.
  induction l as [|c l IH]; simpl.
  - reflexivity.
  - intros H. apply andb_true_iff in H as [Hc Hl].
    unfold not_lf in Hc. apply negb_true_iff in Hc. rewrite Hc.
    now rewrite IH.
Qed.

Lemma split_on_print_lines (lines : list string) :
  Forall (fun l => all_chars not_lf l = true) lines →
  split_on LF (print_lines lines) = (lines ++ [""])%list.
Proof.
  unfold print_lines. induction 1 as [|l ls Hl _ IH]; [reflexivity|].
  cbn [map join app]. rewrite app_assoc.
  change (String LF "" +:+ ?x) with (String LF x).
  now rewrite split_on_line, IH.
Qed.

Lemma users_of_plain (cur : option SambaUser) (ls rest : list string) :
  Forall other_line ls →
  users_of_verbose cur (ls ++ rest) = users_of_verbose cur rest.
Proof.
  induction 1 as [|l ls [_ Hl] _ IH]; [reflexivity|].
  cbn [app users_of_verbose]. unfold plain in Hl.
  apply andb_true_iff in Hl as [H1 H2].
  apply negb_true_iff in H1, H2. rewrite H1, H2.
  destruct cur; exact IH.
Qed.

Lemma users_of_block (cur : option SambaUser) (b : block)
    (rest : list string) :
  well_formed b →
  users_of_verbose cur (block_lines b ++ rest)
  = user_of_block b :: users_of_verbose None rest.
Proof.
  destruct b as [[[u between] f] after]. intros (_ & _ & Hb & Ha).
  cbn [block_lines app users_of_verbose].
  change (startswith "Unix username:" ("Unix username:" +:+ u)) with true.
  cbv iota. rewrite <- List.app_assoc.
  rewrite users_of_plain by exact Hb.
  cbn [app users_of_verbose].
  change (startswith "Unix username:" ("Account Flags:" +:+ f)) with false.
  change (startswith "Account Flags:" ("Account Flags:" +:+ f)) with true.
  cbv iota zeta. rewrite users_of_plain by exact Ha.
  reflexivity.
Qed.

Lemma users_of_blocks (blocks : list block) (tail : list string) :
  Forall well_formed blocks → Forall other_line tail →
  users_of_verbose None (concat (map block_lines blocks) ++ tail)
  = map user_of_block blocks.
Proof.
  intros Hb Ht. induction Hb as [|b bs Hwf _ IH].
  - cbn [map concat app]. rewrite <- (List.app_nil_r tail).
    now rewrite users_of_plain.
  - cbn [map concat]. rewrite <- List.app_assoc.
    now rewrite users_of_block, IH.
Qed.

Lemma block_lines_no_lf (b : block) :
  well_formed b →
  Forall (fun l => all_chars not_lf l = true) (block_lines b).
Proof.
  destruct b as [[[u between] f] after]. intros (Hu & Hf & Hb & Ha).
  cbn [block_lines]. constructor.
  - rewrite all_chars_app, Hu. reflexivity.
  - apply Forall_app. split.
    + eapply Forall_impl; [exact Hb | now intros l [H _]].
    + constructor.
      * rewrite all_chars_app, Hf. reflexivity.
      * eapply Forall_impl; [exact Ha | now intros l [H _]].
Qed.

(** X12. When [pdbedit -L -v] exits 0 and prints a listing of well-formed
    blocks, each a "Unix username:" line and further on an
    "Account Flags:" line among lines that start with neither, [get_users]
    runs that one command and returns one user per block, in order: the
    name is the stripped text after the first colon, and the user is
    enabled exactly when the flags hold no D. *)
Theorem get_users_of_verbose_listing (o : oracle) (history : list cmd)
    (head : list string) (blocks : list block) (err : string) :
  blocks ≠ [] → Forall other_line head → Forall well_formed blocks →
  o history PDBEDIT_VERBOSE
  = inr (mkCompletedProcess 0
           (print_lines (head ++ concat (map block_lines blocks))) err) →
  get_users o history
  = (inr (map user_of_block blocks), (history ++ [PDBEDIT_VERBOSE])%list).
Proof.
  intros Hne Hhead Hwf Ho.
  unfold get_users, try_except, bind, run. fold PDBEDIT_VERBOSE. rewrite Ho.
  cbn [returncode stdout Z.eqb andb].
  assert (Hout : String.eqb
                   (print_lines (head ++ concat (map block_lines blocks))) ""
                 = false).
  { destruct head as [|[|c h] hs]; [|reflexivity..].
    destruct blocks as [|[[[u between] f] after] bs]; [contradiction|].
    reflexivity. }
  rewrite Hout. cbn [negb]. unfold ret.
  rewrite split_on_print_lines.
  - rewrite <- List.app_assoc, users_of_plain by exact Hhead.
    rewrite users_of_blocks; [reflexivity | exact Hwf |].
    constructor; [split; reflexivity | constructor].
  - apply Forall_app. split.
    + eapply Forall_impl; [exact Hhead | now intros l [H _]].
    + apply Forall_concat, Forall_fmap. eapply Forall_impl; [exact Hwf|].
      intros b Hb. now apply block_lines_no_lf.
Qed.

Lemma get_users_of_verbose_listing_witness :
  get_users example_oracle []
  = (inr (map user_of_block example_blocks), ([] ++ [PDBEDIT_VERBOSE])%list).
Proof.
  apply (get_users_of_verbose_listing example_oracle [] example_head
           example_blocks "").
  - discriminate.
  - repeat constructor.
  - repeat constructor.
  - reflexivity.
Defined.

Lemma users_of_list_enabled (lines : list string) (user : SambaUser) :
  user ∈ users_of_list lines →
  is_enabled user = true ∧ username user ≠ "".
Proof.
  induction lines as [|l ls IH]; [intros H; inversion H|].
  cbn [users_of_list]. destruct (contains ":" l); [|exact IH].
  cbv zeta. destruct (String.eqb _ "") eqn:E; cbn [negb]; [exact IH|].
  intros H. apply elem_of_cons in H as [-> | H]; [|now apply IH].
  split; [reflexivity|]. now apply String.eqb_neq.
Qed.

(** X13. [get_users] always returns a list.  It runs [pdbedit -L -v] and,
    only when that did not exit 0 with some output, [pdbedit -L] after it;
    when the first command cannot be started the list is empty; and every
    user taken from the second command is enabled and has a non-empty
    name. *)
Theorem get_users_fallback (o : oracle) (history : list cmd) :
  ∃ users history',
    get_users o history = (inr users, history') ∧
    (history' = (history ++ [PDBEDIT_VERBOSE])%list ∨
     history' = (history ++ [PDBEDIT_VERBOSE; PDBEDIT_LIST])%list) ∧
    ((∃ e, o history PDBEDIT_VERBOSE = inl e) →
     users = [] ∧ history' = (history ++ [PDBEDIT_VERBOSE])%list) ∧
    (history' = (history ++ [PDBEDIT_VERBOSE; PDBEDIT_LIST])%list →
     (∃ r, o history PDBEDIT_VERBOSE = inr r ∧
           (returncode r ≠ 0%Z ∨ stdout r = "")) ∧
     ∀ user, user ∈ users → is_enabled user = true ∧ username user ≠ "").
Proof.
  unfold get_users, try_except, bind, run, ret.
  fold PDBEDIT_VERBOSE PDBEDIT_LIST.
  destruct (o history PDBEDIT_VERBOSE) as [e|r] eqn:Ho.
  - eexists _, _. split; [reflexivity|]. split; [now left|]. split; [easy|].
    intros H. apply app_inv_head in H. discriminate.
  - destruct ((returncode r =? 0)%Z && negb (String.eqb (stdout r) "")) eqn:Hg.
    + eexists _, _. split; [reflexivity|]. split; [now left|].
      split; [intros [e He]; discriminate|].
      intros H. apply app_inv_head in H. discriminate.
    + assert (Hr : returncode r ≠ 0%Z ∨ stdout r = "").
      { apply andb_false_iff in Hg as [Hg | Hg].
        - left. now apply Z.eqb_neq.
        - right. apply negb_false_iff in Hg. now apply String.eqb_eq. }
      rewrite <- List.app_assoc. cbn [app].
      destruct (o (history ++ [PDBEDIT_VERBOSE])%list PDBEDIT_LIST)
        as [e2|r2] eqn:Ho2.
      * eexists _, _. split; [reflexivity|]. split; [now right|].
        split; [intros [e He]; discriminate|].
        intros _. split; [now exists r|]. intros user Hu. inversion Hu.
      * destruct ((returncode r2 =? 0)%Z && negb (String.eqb (stdout r2) ""));
          (eexists _, _; split; [reflexivity|]; split; [now right|];
           split; [intros [e He]; discriminate|];
           intros _; split; [now exists r|]).
        -- intros user Hu. now apply users_of_list_enabled in Hu.
        -- intros user Hu. inversion Hu.
Qed.

Lemma add_to_samba_run (o : oracle) (user password : string)
    (h : list cmd) :
  ∃ r, add_to_samba o user password h
       = (r, (h ++ [SMBPASSWD user password])%list) ∧
       ∀ answer, r = inr answer → fst answer = true →
                 succeeds o h (SMBPASSWD user password).
Proof.
  unfold add_to_samba, bind, run, ret. fold (SMBPASSWD user password).
  destruct (o h (SMBPASSWD user password)) as [e|a] eqn:E.
  - eexists. split; [reflexivity|]. discriminate.
  - destruct (returncode a =? 0)%Z eqn:Hrc.
    + eexists. split; [reflexivity|]. intros answer _ _. exists a.
      split; [exact E|]. now apply Z.eqb_eq.
    + eexists. split; [reflexivity|]. intros answer [= <-]. discriminate.
Qed.

(** X14. [add_user] always returns an answer.  It reports success only
    when the [smbpasswd] command line was the last command run and exited
    0; it runs [useradd] only after [id] did not exit 0; and after a
    [useradd] that did not exit 0 it runs nothing more and reports
    failure. *)
Theorem add_user_commands (o : oracle) (history : list cmd)
    (user password : string) :
  ∃ answer new,
    add_user o user password history = (inr answer, (history ++ new)%list) ∧
    (fst answer = true →
     ∃ before, new = (before ++ [SMBPASSWD user password])%list ∧
               succeeds o (history ++ before) (SMBPASSWD user password)) ∧
    (USERADD user ∈ new → fails o history (ID user)) ∧
    (fails o history (ID user) →
     fails o (history ++ [ID user]) (USERADD user) →
     new = [ID user; USERADD user] ∧ fst answer = false).
Proof.
  unfold add_user, try_except, bind, run, ret.
  fold (ID user) (USERADD user).
  destruct (o history (ID user)) as [e|r1] eqn:Hid.
  - exists (false, "Error adding user: " +:+ str_exn e), [ID user].
    split; [reflexivity|]. split; [discriminate|]. split.
    + intros H. apply list_elem_of_singleton in H. discriminate.
    + intros (r & Hr & _). congruence.
  - destruct (returncode r1 =? 0)%Z eqn:Hrc1; cbn [negb].
    + destruct (add_to_samba_run o user password (history ++ [ID user]))
        as (r & Hrun & Hok).
      rewrite Hrun, <- List.app_assoc. cbn [app].
      assert (Hrest :
        (USERADD user ∈ [ID user; SMBPASSWD user password] →
         fails o history (ID user)) ∧
        (fails o history (ID user) →
         fails o (history ++ [ID user]) (USERADD user) →
         [ID user; SMBPASSWD user password] = [ID user; USERADD user] ∧
         False)).
      { split.
        - intros H. apply elem_of_cons in H as [H | H]; [discriminate|].
          apply list_elem_of_singleton in H. discriminate.
        - intros (r' & Hr & Hne). rewrite Hid in Hr. injection Hr as <-.
          apply Z.eqb_eq in Hrc1. contradiction. }
      destruct Hrest as [Hr1 Hr2].
      destruct r as [e|answer].
      * exists (false, "Error adding user: " +:+ str_exn e),
          [ID user; SMBPASSWD user password].
        split; [reflexivity|]. split; [discriminate|]. split; [exact Hr1|].
        intros H1 H2. now destruct (Hr2 H1 H2).
      * exists answer, [ID user; SMBPASSWD user password].
        split; [reflexivity|]. split; [|split; [exact Hr1|]].
        -- intros Ht. exists [ID user]. split; [reflexivity|].
           now apply (Hok answer).
        -- intros H1 H2. now destruct (Hr2 H1 H2).
    + assert (Hfail : fails o history (ID user))
        by (exists r1; split; [exact Hid | now apply Z.eqb_neq]).
      destruct (o (history ++ [ID user])%list (USERADD user)) as [e|r2] eqn:Hua.
      * exists (false, "Error adding user: " +:+ str_exn e),
          [ID user; USERADD user].
        rewrite <- List.app_assoc.
        split; [reflexivity|]. split; [discriminate|]. split; [easy|].
        intros _ (r & Hr & _). congruence.
      * destruct (returncode r2 =? 0)%Z eqn:Hrc2; cbn [negb].
        -- destruct (add_to_samba_run o user password
                       ((history ++ [ID user]) ++ [USERADD user]))
             as (r & Hrun & Hok).
           rewrite Hrun, <- !List.app_assoc. cbn [app].
           rewrite <- List.app_assoc in Hok. cbn [app] in Hok.
           assert (Hr2 : fails o (history ++ [ID user]) (USERADD user) → False).
           { intros (r' & Hr & Hne). rewrite Hua in Hr. injection Hr as <-.
             apply Z.eqb_eq in Hrc2. contradiction. }
           destruct r as [e|answer].
           ++ exists (false, "Error adding user: " +:+ str_exn e),
                [ID user; USERADD user; SMBPASSWD user password].
              split; [reflexivity|]. split; [discriminate|].
              split; [easy|]. intros _ H2. now destruct (Hr2 H2).
           ++ exists answer, [ID user; USERADD user; SMBPASSWD user password].
              split; [reflexivity|]. split; [|split; [easy|]].
              ** intros Ht. exists [ID user; USERADD user].
                 split; [reflexivity|]. now apply (Hok answer).
              ** intros _ H2. now destruct (Hr2 H2).
        -- exists (false, "Failed to create Unix user: " +:+ stderr r2),
             [ID user; USERADD user].
           rewrite <- List.app_assoc.
           split; [reflexivity|]. split; [discriminate|]. split; easy.
Qed.

Lemma get_users_fallback_witness :
  ∃ users history',
    get_users example_oracle [] = (inr users, history') ∧
    (history' = ([] ++ [PDBEDIT_VERBOSE])%list ∨
     history' = ([] ++ [PDBEDIT_VERBOSE; PDBEDIT_LIST])%list) ∧
    ((∃ e, example_oracle [] PDBEDIT_VERBOSE = inl e) →
     users = [] ∧ history' = ([] ++ [PDBEDIT_VERBOSE])%list) ∧
    (history' = ([] ++ [PDBEDIT_VERBOSE; PDBEDIT_LIST])%list →
     (∃ r, example_oracle [] PDBEDIT_VERBOSE = inr r ∧
           (returncode r ≠ 0%Z ∨ stdout r = "")) ∧
     ∀ user, user ∈ users → is_enabled user = true ∧ username user ≠ "").
Proof. apply (get_users_fallback example_oracle []). Defined.

Lemma add_user_commands_witness :
  ∃ answer new,
    add_user example_oracle "alice" "secret" [] = (inr answer, ([] ++ new)%list) ∧
    (fst answer = true →
     ∃ before, new = (before ++ [SMBPASSWD "alice" "secret"])%list ∧
               succeeds example_oracle ([] ++ before) (SMBPASSWD "alice" "secret")) ∧
    (USERADD "alice" ∈ new → fails example_oracle [] (ID "alice")) ∧
    (fails example_oracle [] (ID "alice") →
     fails example_oracle ([] ++ [ID "alice"]) (USERADD "alice") →
     new = [ID "alice"; USERADD "alice"] ∧ fst answer = false).
Proof. apply (add_user_commands example_oracle [] "alice" "secret"). Defined.

End UserFacts.

(** ** System information *)

Module SystemFacts.
Import Str Subprocess SystemManager UserSpec.

(** X15. [get_system_info] always returns: its time is the clock reading;
    its host name is other than localhost only when [hostname] exited 0,
    and it reports smbd as running only when
    [systemctl is-active smbd], run after [hostname], exited 0; when
    [hostname] cannot be started, [systemctl] is not run at all. *)
Theorem get_system_info_defaults (o : oracle) (now : datetime)
    (history : list cmd) :
  ∃ info history',
    get_system_info o now history = (inr info, history') ∧
    current_time info = strftime_seconds now ∧
    (hostname info ≠ "localhost" → succeeds o history ["hostname"]) ∧
    (smbd_running info = true →
     succeeds o (history ++ [["hostname"]])
       ["systemctl"; "is-active"; "smbd"]) ∧
    ((∃ e, o history ["hostname"] = inl e) →
     history' = (history ++ [["hostname"]])%list ∧
     smbd_running info = false).
Proof.
  unfold get_system_info, try_except, bind, run, ret. cbv zeta.
  destruct (o history ["hostname"]) as [e|r1] eqn:H1.
  - eexists _, _. split; [reflexivity|]. cbn [current_time hostname smbd_running].
    split; [reflexivity|]. split; [congruence|]. split; [discriminate|].
    intros _. split; reflexivity.
  - assert (Hh : (if (returncode r1 =? 0)%Z then strip (stdout r1)
                  else "localhost") ≠ "localhost" →
                 succeeds o history ["hostname"]).
    { destruct (returncode r1 =? 0)%Z eqn:E; [|congruence].
      intros _. exists r1. split; [exact H1 | now apply Z.eqb_eq]. }
    lazymatch goal with
    | |- context [o ?h ?c] => destruct (o h c) as [e|r2] eqn:H2
    end.
    + eexists _, _. split; [reflexivity|].
      cbn [current_time hostname smbd_running].
      split; [reflexivity|]. split; [exact Hh|]. split; [discriminate|].
      intros [e' He]. discriminate.
    + eexists _, _. split; [reflexivity|].
      cbn [current_time hostname smbd_running].
      split; [reflexivity|]. split; [exact Hh|]. split.
      * intros E. exists r2. split; [exact H2 | now apply Z.eqb_eq].
      * intros [e' He]. discriminate.
Qed.

Lemma get_system_info_defaults_witness :
  ∃ info history',
    get_system_info example_oracle MountSpec.example_now [] = (inr info, history') ∧
    current_time info = strftime_seconds MountSpec.example_now ∧
    (hostname info ≠ "localhost" → succeeds example_oracle [] ["hostname"]) ∧
    (smbd_running info = true →
     succeeds example_oracle ([] ++ [["hostname"]])
       ["systemctl"; "is-active"; "smbd"]) ∧
    ((∃ e, example_oracle [] ["hostname"] = inl e) →
     history' = ([] ++ [["hostname"]])%list ∧
     smbd_running info = false).
Proof.
  apply (get_system_info_defaults example_oracle MountSpec.example_now []).
Defined.

End SystemFacts.

(** ** Requests *)

Module Requests.
Import Str TextIO Subprocess UserSpec MountSpec MountSpec2 ConfigSpec AppSpec
  MonadFacts ConfigRuns ConfigClaims Listing DeleteListing.

Lemma keeps_ret {S A} (J : S → Prop) (a : A) : keeps J (ret a).
Proof. intros s r s' HJ [= _ <-]. exact HJ. Qed.

Lemma keeps_bind {S A B} (J : S → Prop) (m : M S A) (k : A → M S B) :
  keeps J m → (∀ a, keeps J (k a)) → keeps J (bind m k).
Proof.
  intros Hm Hk s r s' HJ. unfold bind.
  destruct (m s) as [[e|a] s1] eqn:E.
  - intros [= _ <-]. exact (Hm _ _ _ HJ E).
  - apply Hk. exact (Hm _ _ _ HJ E).
Qed.

Lemma keeps_try {S A} (J : S → Prop) (body : M S A) (handler : exn → M S A) :
  keeps J body → (∀ e, keeps J (handler e)) → keeps J (try_except body handler).
Proof.
  intros Hb Hh s r s' HJ. unfold try_except.
  destruct (body s) as [[e|a] s1] eqn:E.
  - apply Hh. exact (Hb _ _ _ HJ E).
  - intros [= _ <-]. exact (Hb _ _ _ HJ E).
Qed.

Lemma bind_keeps {S A B} (J : S → Prop) (m : M S A) (k : A → M S B)
    (s s' : S) (r : exn + B) :
  keeps J m → J s → bind m k s = (r, s') →
  (∃ e, r = inl e ∧ J s') ∨ (∃ x s1, J s1 ∧ k x s1 = (r, s')).
Proof.
  intros Hm HJ. unfold bind. destruct (m s) as [[e|x] s1] eqn:E.
  - intros [= <- <-]. left. exists e. split; [reflexivity|].
    exact (Hm _ _ _ HJ E).
  - intros H. right. exists x, s1. split; [exact (Hm _ _ _ HJ E) | exact H].
Qed.

(** Walks through the structure of a computation, leaving the calls that no
    hint covers. *)
Ltac keeps_steps :=
  repeat lazymatch goal with
    | |- keeps _ (bind _ _) => apply keeps_bind; [|intros ?]
    | |- keeps _ (try_except _ _) => apply keeps_try; [|intros ?]
    | |- keeps _ (ret _) => apply keeps_ret
    | |- keeps _ (if ?b then _ else _) => destruct b
    | |- keeps _ (match ?x with _ => _ end) => destruct x
    | |- _ => solve [auto]
    end.

(** *** From the parts of the state to the whole *)

Lemma keeps_on_config {A} (J : App.t → Prop) (m : M SambaConfig.world A) :
  ignores_config J →
  (∀ w r w', m w = (r, w') → SambaConfig.fs w' = SambaConfig.fs w) →
  keeps J (App.on_config m).
Proof.
  intros HJ Hm a r a' Ha. unfold App.on_config.
  destruct (m _) as [r1 w'] eqn:E. intros [= _ <-].
  apply Hm in E. cbn [SambaConfig.fs] in E. rewrite E.
  destruct a as [c [f h] fl]. exact (HJ _ (SambaConfig.self w') Ha).
Qed.

Lemma keeps_on_host {A} (J : App.t → Prop) (JH : Host → Prop) (m : M Host A) :
  (∀ a, J a → JH (App.host a)) →
  (∀ a h', J a → JH h' → J (App.mk (App.cfg a) h' (App.flashes a))) →
  keeps JH m → keeps J (App.on_host m).
Proof.
  intros H1 H2 Hm a r a' Ha. unfold App.on_host.
  destruct (m _) as [r1 h'] eqn:E. intros [= _ <-].
  apply H2; [exact Ha|]. exact (Hm _ _ _ (H1 _ Ha) E).
Qed.

Lemma keeps_on_commands {A} (JH : Host → Prop) (JC : list cmd → Prop)
    (m : M (list cmd) A) :
  (∀ h, JH h → JC (host_history h)) →
  (∀ h hist', JH h → JC hist' → JH (mkHost (host_fs h) hist')) →
  keeps JC m → keeps JH (on_commands m).
Proof.
  intros H1 H2 Hm h r h' Hh. unfold on_commands.
  destruct (m _) as [r1 hist'] eqn:E. intros [= _ <-].
  apply H2; [exact Hh|]. exact (Hm _ _ _ (H1 _ Hh) E).
Qed.

Lemma keeps_on_fs {A} (JH : Host → Prop) (m : IO A) :
  (∀ fs r fs', m fs = (r, fs') → fs' = fs) → keeps JH (on_fs m).
Proof.
  intros Hm h r h' Hh. unfold on_fs.
  destruct (m _) as [r1 fs'] eqn:E. intros [= _ <-].
  apply Hm in E. rewrite E. now destruct h.
Qed.

(** *** The calls that read *)

Section WithParser.

Variable read_file : string → option exn * ConfigParser.t.

(** [load] returns, leaves the files and the path alone, and leaves the
    parser that read the file when there is one. *)
Lemma load_run (w : SambaConfig.world) :
  ∃ b w1 p,
    SambaConfig.load read_file w = (inr b, w1) ∧
    SambaConfig.fs w1 = SambaConfig.fs w ∧
    SambaConfig.config_path (SambaConfig.self w1)
    = SambaConfig.config_path (SambaConfig.self w) ∧
    SambaConfig.parser (SambaConfig.self w1) = Some p ∧
    ∀ c, files (SambaConfig.fs w)
           !! SambaConfig.config_path (SambaConfig.self w) = Some c →
         p = snd (read_file (Os.text_of c)).
Proof.
  unfold SambaConfig.load, try_except, bind, SambaConfig.set_parser,
    SambaConfig.get_self, SambaConfig.io, Os.isfile, Os.read_replace,
    SambaConfig.set_error, ret, raise.
  cbn [SambaConfig.self SambaConfig.fs SambaConfig.config_path].
  destruct (files (SambaConfig.fs w)
              !! SambaConfig.config_path (SambaConfig.self w)) as [c|] eqn:Hc.
  - rewrite bool_decide_eq_true_2 by eauto.
    cbn [fst snd SambaConfig.self SambaConfig.fs SambaConfig.config_path].
    rewrite Hc.
    cbn [fst snd SambaConfig.self SambaConfig.fs SambaConfig.config_path
         SambaConfig.parser SambaConfig.error].
    destruct (fst (read_file (Os.text_of c))); cbn;
      eexists _, _, _; (split_and!; [reflexivity..|]);
      now intros c' [= <-].
  - rewrite bool_decide_eq_false_2 by (intros [? ?]; discriminate).
    cbn. eexists _, _, _. split_and!; [reflexivity..|discriminate].
Qed.

Lemma load_fs (w : SambaConfig.world) r (w' : SambaConfig.world) :
  SambaConfig.load read_file w = (r, w') →
  SambaConfig.fs w' = SambaConfig.fs w.
Proof.
  destruct (load_run w) as (b & w1 & p & Hrun & Hfs & _).
  rewrite Hrun. now intros [= _ <-].
Qed.

(** [get_shares] on a loaded configuration: the list, or the exception of
    the loop. *)
Lemma get_shares_run (w : SambaConfig.world) (p : ConfigParser.t) :
  SambaConfig.parser (SambaConfig.self w) = Some p →
  SambaConfig.get_shares read_file w
  = (SambaConfig.shares_of_sections p (ConfigParser.sections p), w).
Proof.
  intros Hp.
  unfold SambaConfig.get_shares, SambaConfig.ensure_loaded, bind,
    SambaConfig.get_self, SambaConfig.query, ret, raise.
  rewrite Hp. cbn [SambaConfig.self SambaConfig.parser]. rewrite Hp.
  now destruct (SambaConfig.shares_of_sections p (ConfigParser.sections p)).
Qed.

Lemma get_shares_fs (w : SambaConfig.world) r (w' : SambaConfig.world) :
  SambaConfig.get_shares read_file w = (r, w') →
  SambaConfig.fs w' = SambaConfig.fs w.
Proof.
  unfold SambaConfig.get_shares, bind.
  destruct (ensure_loaded_spec read_file w) as (w1 & p & Hl & Hfs & _).
  rewrite Hl. unfold SambaConfig.query, ret, raise.
  destruct (SambaConfig.parser (SambaConfig.self w1)); [|now intros [= _ <-]].
  destruct (SambaConfig.shares_of_sections _ _); now intros [= _ <-].
Qed.

End WithParser.

Lemma get_config_content_fs (w : SambaConfig.world) r
    (w' : SambaConfig.world) :
  App.get_config_content w = (r, w') →
  SambaConfig.fs w' = SambaConfig.fs w.
Proof.
  unfold App.get_config_content, bind, try_except, SambaConfig.get_self,
    SambaConfig.io, Os.read_replace, ret.
  cbn [SambaConfig.self SambaConfig.fs].
  destruct (files (SambaConfig.fs w) !! _); now intros [= _ <-].
Qed.

Lemma get_fstab_mounts_fs (fs : FS) r (fs' : FS) :
  MountManager.get_fstab_mounts fs = (r, fs') → fs' = fs.
Proof. rewrite get_fstab_mounts_run. now intros [= _ <-]. Qed.

Lemma mkdir_fs (path : string) (fs : FS) r (fs' : FS) :
  Os.mkdir path fs = (r, fs') → fs' = fs.
Proof.
  destruct (AddMount.mkdir_cases path fs) as [H | [H | H]]; rewrite H;
    now intros [= _ <-].
Qed.

(** *** The commands of the page *)

Lemma reads_since_refl (h0 : list cmd) : reads_since h0 h0.
Proof. exists []. split; [now rewrite List.app_nil_r | constructor]. Qed.

Lemma keeps_run_read (o : oracle) (h0 : list cmd) (c : cmd) :
  c ∈ READ_COMMANDS → keeps (reads_since h0) (run o c).
Proof.
  intros Hc h r h' (new & -> & Hnew). unfold run. intros [= _ <-].
  exists (new ++ [c])%list. split; [now rewrite List.app_assoc|].
  apply Forall_app. split; [exact Hnew|]. now constructor.
Qed.

Lemma keeps_get_users (o : oracle) (h0 : list cmd) :
  keeps (reads_since h0) (SambaUserManager.get_users o).
Proof.
  unfold SambaUserManager.get_users.
  assert (keeps (reads_since h0) (run o ["pdbedit"; "-L"; "-v"]))
    by (apply keeps_run_read; set_solver).
  assert (keeps (reads_since h0) (run o ["pdbedit"; "-L"]))
    by (apply keeps_run_read; set_solver).
  keeps_steps.
Qed.

Lemma keeps_get_system_info (o : oracle) (now : datetime) (h0 : list cmd) :
  keeps (reads_since h0) (SystemManager.get_system_info o now).
Proof.
  unfold SystemManager.get_system_info. cbv zeta.
  assert (keeps (reads_since h0) (run o ["hostname"]))
    by (apply keeps_run_read; set_solver).
  assert (keeps (reads_since h0) (run o ["systemctl"; "is-active"; "smbd"]))
    by (apply keeps_run_read; set_solver).
  keeps_steps.
Qed.

(** *** A request that is not a POST *)

Lemma read_only_ignores_config (a0 : App.t) : ignores_config (read_only a0).
Proof. intros a c H. exact H. Qed.

Lemma keeps_read_commands {A} (a0 : App.t) (m : M (list cmd) A) :
  keeps (reads_since (host_history (App.host a0))) m →
  keeps (read_only a0) (App.on_host (on_commands m)).
Proof.
  intros Hm.
  apply (keeps_on_host _ (host_read_only (App.host a0))).
  - now intros a [H _].
  - intros a h' [_ Hfl] Hh. split; assumption.
  - apply (keeps_on_commands _ (reads_since (host_history (App.host a0)))).
    + now intros h [_ H].
    + intros h hist' [Hfs _] Hh. split; assumption.
    + exact Hm.
Qed.

Lemma keeps_read_fs {A} (a0 : App.t) (m : IO A) :
  (∀ fs r fs', m fs = (r, fs') → fs' = fs) →
  keeps (read_only a0) (App.on_host (on_fs m)).
Proof.
  intros Hm.
  apply (keeps_on_host _ (host_read_only (App.host a0))).
  - now intros a [H _].
  - intros a h' [_ Hfl] Hh. split; assumption.
  - now apply keeps_on_fs.
Qed.

Section WithEnvironment.

Variable CREDENTIALS_DIR : string.
Variable read_file : string → option exn * ConfigParser.t.
Variable o : oracle.

(** X16. A request that is not a POST writes no file and flashes no
    message, and the commands it runs are among [pdbedit -L -v],
    [pdbedit -L], [hostname] and [systemctl is-active smbd], whatever the
    form holds and whether the page is made or the request fails. *)
Theorem get_request_reads_only (now_info now : datetime)
    (method : string) (form : gmap string string) (a : App.t)
    (r : exn + Response) (a' : App.t) :
  method ≠ "POST" →
  App.index CREDENTIALS_DIR read_file o now_info now method form a = (r, a') →
  host_fs (App.host a') = host_fs (App.host a) ∧
  App.flashes a' = App.flashes a ∧
  reads_since (host_history (App.host a)) (host_history (App.host a')).
Proof.
  intros Hm Hrun.
  assert (Hk : keeps (read_only a)
                 (App.index CREDENTIALS_DIR read_file o now_info now method
                    form)).
  { unfold App.index. apply String.eqb_neq in Hm. rewrite Hm.
    pose proof (read_only_ignores_config a) as Hi.
    pose proof (keeps_on_config _ _ Hi (load_fs read_file)).
    pose proof (keeps_on_config _ _ Hi (get_shares_fs read_file)).
    pose proof (keeps_on_config _ _ Hi get_config_content_fs).
    pose proof (keeps_read_commands a _ (keeps_get_users o _)).
    pose proof (keeps_read_commands a _ (keeps_get_system_info o now_info _)).
    pose proof (keeps_read_fs a _ get_fstab_mounts_fs).
    keeps_steps. }
  destruct (Hk a r a') as [[Hfs Hh] Hfl]; [|exact Hrun|auto].
  split; [split; [reflexivity | apply reads_since_refl] | reflexivity].
Qed.

(** *** Actions that write no file *)

Lemma keeps_files_flash (a0 : App.t) (message category : string) :
  keeps (files_kept a0) (App.flash message category).
Proof. intros a r a' Ha [= _ <-]. exact Ha. Qed.

Lemma keeps_files_flash_result (a0 : App.t) (r : bool * string) :
  keeps (files_kept a0) (App.flash_result r).
Proof. apply keeps_files_flash. Qed.

Lemma keeps_files_error_or (a0 : App.t) (fallback : string) :
  keeps (files_kept a0) (App.error_or fallback).
Proof. intros a r a' Ha [= _ <-]. exact Ha. Qed.

Lemma keeps_host_commands {A} (fs0 : FS) (m : M (list cmd) A) :
  keeps (fun h => host_fs h = fs0) (on_commands m).
Proof.
  intros h r h' Hh. unfold on_commands.
  destruct (m _) as [r1 hist']. now intros [= _ <-].
Qed.

Lemma keeps_files_on_host {A} (a0 : App.t) (m : M Host A) :
  keeps (fun h => host_fs h = host_fs (App.host a0)) m →
  keeps (files_kept a0) (App.on_host m).
Proof.
  intros Hm. apply (keeps_on_host _ _ _ (fun a H => H) (fun a h' _ H => H) Hm).
Qed.

Lemma keeps_files_commands {A} (a0 : App.t) (m : M (list cmd) A) :
  keeps (files_kept a0) (App.on_host (on_commands m)).
Proof. apply keeps_files_on_host, keeps_host_commands. Qed.

Lemma keeps_files_mount (a0 : App.t) (mountpoint : string) :
  keeps (files_kept a0) (App.on_host (MountCommands.mount o mountpoint)).
Proof.
  apply keeps_files_on_host. unfold MountCommands.mount.
  pose proof (keeps_on_fs (fun h => host_fs h = host_fs (App.host a0))
                _ (mkdir_fs mountpoint)).
  pose proof (keeps_host_commands (host_fs (App.host a0))
                (run o ["mount"; mountpoint])).
  keeps_steps.
Qed.

Lemma keeps_files_umount (a0 : App.t) (mountpoint : string) :
  keeps (files_kept a0) (App.on_host (MountCommands.umount o mountpoint)).
Proof.
  apply keeps_files_on_host. unfold MountCommands.umount.
  pose proof (keeps_host_commands (host_fs (App.host a0))
                (run o ["umount"; mountpoint])).
  keeps_steps.
Qed.

Lemma files_kept_ignores_config (a0 : App.t) : ignores_config (files_kept a0).
Proof. intros a c H. exact H. Qed.

Lemma keeps_files_action (a0 : App.t) (now : datetime)
    (form : gmap string string) :
  App.form_get form "action" "" ∉ FILE_ACTIONS →
  keeps (files_kept a0)
    (App.apply_action CREDENTIALS_DIR read_file o now form).
Proof.
  intros Hact. unfold App.apply_action. cbv zeta.
  assert (Hne : ∀ n, n ∈ FILE_ACTIONS →
                     String.eqb (App.form_get form "action" "") n = false).
  { intros n Hn. apply String.eqb_neq. intros E. apply Hact. now rewrite E. }
  rewrite (Hne "add_share"), (Hne "delete_share"), (Hne "add_mount"),
    (Hne "delete_mount"), (Hne "backup_config")
    by (unfold FILE_ACTIONS; set_solver).
  pose proof (keeps_files_flash a0).
  pose proof (keeps_files_flash_result a0).
  pose proof (@keeps_files_commands (bool * string) a0).
  pose proof (@keeps_files_commands CompletedProcess a0).
  pose proof (keeps_files_mount a0).
  pose proof (keeps_files_umount a0).
  keeps_steps.
Qed.

(** X17. Only the actions add_share, delete_share, add_mount, delete_mount
    and backup_config write files: in a request with any other action, or
    none, the handler itself leaves every file as it was, whatever the
    commands it starts answer (what those commands do to the machine is
    not part of the program). *)
Theorem other_actions_keep_files (now_info now : datetime)
    (method : string) (form : gmap string string) (a : App.t)
    (r : exn + Response) (a' : App.t) :
  App.form_get form "action" "" ∉ FILE_ACTIONS →
  App.index CREDENTIALS_DIR read_file o now_info now method form a = (r, a') →
  host_fs (App.host a') = host_fs (App.host a).
Proof.
  intros Hact Hrun.
  assert (Hk : keeps (files_kept a)
                 (App.index CREDENTIALS_DIR read_file o now_info now method
                    form)).
  { unfold App.index.
    pose proof (files_kept_ignores_config a) as Hi.
    pose proof (keeps_on_config _ _ Hi (load_fs read_file)).
    pose proof (keeps_on_config _ _ Hi (get_shares_fs read_file)).
    pose proof (keeps_on_config _ _ Hi get_config_content_fs).
    pose proof (@keeps_files_commands (list SambaUser) a).
    pose proof (@keeps_files_commands SystemInfo a).
    pose proof (keeps_files_on_host a _
                  (keeps_on_fs _ _ get_fstab_mounts_fs)).
    pose proof (keeps_files_action a now form Hact).
    keeps_steps. }
  exact (Hk a r a' eq_refl Hrun).
Qed.

(** *** A flag without a value *)

Lemma share_of_section_error (p : ConfigParser.t) (section : string)
    (e : exn) :
  SambaConfig.share_of_section p section = inl e →
  e = SambaConfig.NONE_HAS_NO "lower".
Proof.
  unfold SambaConfig.share_of_section, SambaConfig.is_yes.
  repeat (destruct (ConfigParser.get section _ _ p);
          [|now intros [= <-]]).
  discriminate.
Qed.

Lemma share_of_section_valueless (p : ConfigParser.t) (section key : string)
    (d : ConfigParser.optdict) :
  ConfigParser.dict_get section (ConfigParser.sects p) = Some d →
  key ∈ ["writable"; "browseable"; "guest ok"] →
  given key d p = Some None →
  SambaConfig.share_of_section p section
  = inl (SambaConfig.NONE_HAS_NO "lower").
Proof.
  intros Hd Hk Hg.
  assert (Hget : ∀ fb, ConfigParser.get section key fb p = None).
  { intros fb. unfold ConfigParser.get. rewrite Hd.
    assert (Hx : ConfigParser.optionxform key = key).
    { repeat (apply elem_of_cons in Hk as [-> | Hk]; [reflexivity|]).
      inversion Hk. }
    rewrite Hx. unfold given in Hg.
    destruct (ConfigParser.dict_get key d) as [v|]; [congruence|].
    rewrite Hg. reflexivity. }
  destruct (SambaConfig.share_of_section p section) as [e|share] eqn:E.
  - f_equal. now apply share_of_section_error in E.
  - exfalso. unfold SambaConfig.share_of_section in E.
    destruct (SambaConfig.is_yes (ConfigParser.get section "writable" "yes" p))
      as [|w] eqn:E1; [discriminate|].
    destruct (SambaConfig.is_yes
                (ConfigParser.get section "browseable" "yes" p))
      as [|b] eqn:E2; [discriminate|].
    destruct (SambaConfig.is_yes (ConfigParser.get section "guest ok" "no" p))
      as [|g] eqn:E3; [discriminate|].
    repeat (apply elem_of_cons in Hk as [-> | Hk];
            [rewrite Hget in *; discriminate|]).
    inversion Hk.
Qed.

Lemma dict_get_key {V} (k : string) (d : list (string * V)) (v : V) :
  ConfigParser.dict_get k d = Some v → k ∈ map fst d.
Proof.
  induction d as [|[k' v'] d IH]; simpl; [discriminate|].
  destruct (String.eqb k k') eqn:E.
  - intros _. apply String.eqb_eq in E. subst. now left.
  - intros H. right. now apply IH.
Qed.

Lemma shares_of_sections_valueless (p : ConfigParser.t)
    (sections : list string) (section key : string)
    (d : ConfigParser.optdict) :
  section ∈ sections → non_global section = true →
  ConfigParser.dict_get section (ConfigParser.sects p) = Some d →
  key ∈ ["writable"; "browseable"; "guest ok"] →
  given key d p = Some None →
  SambaConfig.shares_of_sections p sections
  = inl (SambaConfig.NONE_HAS_NO "lower").
Proof.
  intros Hin Hng Hd Hk Hg.
  induction sections as [|s ss IH]; [inversion Hin|].
  cbn [SambaConfig.shares_of_sections].
  fold (is_global_name s). fold (non_global s).
  apply elem_of_cons in Hin as [<- | Hin].
  - rewrite Hng.
    now rewrite (share_of_section_valueless p section key d).
  - rewrite (IH Hin). destruct (non_global s); [|reflexivity].
    destruct (SambaConfig.share_of_section p s) as [e|share] eqn:E;
      [|reflexivity].
    f_equal. now apply share_of_section_error in E.
Qed.

Lemma on_config_run {A} (m : M SambaConfig.world A) (a : App.t)
    (r : exn + A) (w' : SambaConfig.world) :
  m (SambaConfig.mkWorld (App.cfg a) (host_fs (App.host a))) = (r, w') →
  App.on_config m a
  = (r, App.mk (SambaConfig.self w')
          (mkHost (SambaConfig.fs w') (host_history (App.host a)))
          (App.flashes a)).
Proof. intros H. unfold App.on_config. now rewrite H. Qed.

(** X18. When a section that is not the global one has [writable],
    [browseable] or [guest ok] without a value, in the section or
    inherited from DEFAULT, every request fails with the AttributeError of
    [get_shares], whatever its method and form: no page is made, no action
    is carried out, no message is flashed, no command is run and no file
    is changed. *)
Theorem valueless_flag_fails_every_request (now_info now : datetime)
    (method : string) (form : gmap string string) (h : Host)
    (fl : list (string * string)) (c : content) (section key : string)
    (d : ConfigParser.optdict) :
  files (host_fs h) !! SMB_CONF = Some c →
  ConfigParser.dict_get section
    (ConfigParser.sects (snd (read_file (Os.text_of c))))
  = Some d →
  non_global section = true →
  key ∈ ["writable"; "browseable"; "guest ok"] →
  given key d (snd (read_file (Os.text_of c))) = Some None →
  ∃ a',
    App.index CREDENTIALS_DIR read_file o now_info now method form
      (App.request h fl)
    = (inl (AttributeError "'NoneType' object has no attribute 'lower'"), a') ∧
    App.host a' = h ∧ App.flashes a' = fl.
Proof.
  intros Hc Hd Hng Hk Hg. unfold App.index.
  destruct (load_run read_file
              (SambaConfig.mkWorld (SambaConfig.init SMB_CONF) (host_fs h)))
    as (b & w1 & p & Hload & Hfs & _ & Hp & Hread).
  specialize (Hread c Hc). subst p.
  rewrite (bind_run _ _ _ _ _ (on_config_run _ (App.request h fl) _ _ Hload)).
  pose proof (get_shares_run read_file w1 _ Hp) as Hshares.
  rewrite (shares_of_sections_valueless _ _ section key d) in Hshares;
    [|exact (dict_get_key _ _ _ Hd)|assumption..].
  destruct w1 as [s1 fs1]. cbn [SambaConfig.fs SambaConfig.self] in *.
  unfold bind at 1.
  erewrite on_config_run by exact Hshares.
  eexists. split; [reflexivity|].
  cbn [App.host App.flashes SambaConfig.fs App.request host_history].
  rewrite Hfs. now destruct h.
Qed.

(** *** A delete_mount without mountpoint *)

Lemma apply_action_delete_mount (now : datetime) (form : gmap string string) :
  App.form_get form "action" "" = "delete_mount" →
  App.apply_action CREDENTIALS_DIR read_file o now form
  = (r <- App.on_host (on_fs (MountManager.delete_mount
                                (strip (App.form_get form "mountpoint" "")))) ;;
     App.flash_result r).
Proof. intros H. unfold App.apply_action. rewrite H. reflexivity. Qed.

Lemma delete_mount_missing (mp : string) (fs : FS) :
  files fs !! FSTAB = None →
  MountManager.delete_mount mp fs
  = (inr (false, "Error removing mount: [Errno 2] No such file or directory: '/etc/fstab'"),
     fs).
Proof.
  intros Hf. unfold MountManager.delete_mount, try_except, bind, Os.copy2.
  now rewrite Hf.
Qed.

(** X19. The handler does not ask for a mountpoint before it deletes: a
    POST with the action delete_mount and no mountpoint, or a blank one,
    when it is answered, is answered with the redirect.  When the mount
    table is valid text, the success message has been flashed and every line
    of the table that is not a comment has been removed, so that
    [get_fstab_mounts] lists nothing.  When the table is not valid text, the
    error of the failed read has been flashed and the table is as it was;
    when there is no table, the error of the missing file has been flashed
    and no file has changed. *)
Theorem blank_delete_mount_clears_table (now_info now : datetime)
    (form : gmap string string) (h : Host) (fl : list (string * string))
    (resp : Response) (a' : App.t) :
  App.form_get form "action" "" = "delete_mount" →
  strip (App.form_get form "mountpoint" "") = "" →
  App.index CREDENTIALS_DIR read_file o now_info now "POST" form
    (App.request h fl) = (inr resp, a') →
  resp = Redirect ∧
  (∀ table, files (host_fs h) !! FSTAB = Some (Text table) →
     App.flashes a' = (fl ++ [("Mount removed from fstab", "success")])%list ∧
     (∀ line, line ∈ table_lines (host_fs (App.host a')) →
              is_comment line = true) ∧
     MountManager.get_fstab_mounts (host_fs (App.host a'))
     = (inr [], host_fs (App.host a'))) ∧
  (∀ u, files (host_fs h) !! FSTAB = Some (Undecodable u) →
     App.flashes a'
     = (fl ++ [("Error removing mount: " +:+ reason u, "danger")])%list ∧
     files (host_fs (App.host a')) !! FSTAB = Some (Undecodable u)) ∧
  (files (host_fs h) !! FSTAB = None →
     App.flashes a'
     = (fl ++ [("Error removing mount: [Errno 2] No such file or directory: '/etc/fstab'",
                "danger")])%list ∧
     host_fs (App.host a') = host_fs h).
Proof.
  intros Hact Hmp Hrun.
  set (a0 := App.request h fl) in *.
  pose proof (read_only_ignores_config a0) as Hi.
  assert (J0 : read_only a0 a0)
    by (split; [split; [reflexivity | apply reads_since_refl] | reflexivity]).
  unfold App.index in Hrun.
  apply bind_inr_inv in Hrun as (b & a1 & H1 & Hrun).
  pose proof (keeps_on_config _ _ Hi (load_fs read_file) _ _ _ J0 H1) as J1.
  apply bind_inr_inv in Hrun as (shares & a2 & H2 & Hrun).
  pose proof (keeps_on_config _ _ Hi (get_shares_fs read_file) _ _ _ J1 H2)
    as J2.
  apply bind_inr_inv in Hrun as (users & a3 & H3 & Hrun).
  pose proof (keeps_read_commands a0 _ (keeps_get_users o _) _ _ _ J2 H3)
    as J3.
  apply bind_inr_inv in Hrun as (mounts & a4 & H4 & Hrun).
  pose proof (keeps_read_fs a0 _ get_fstab_mounts_fs _ _ _ J3 H4) as J4.
  apply bind_inr_inv in Hrun as (info & a5 & H5 & Hrun).
  pose proof (keeps_read_commands a0 _ (keeps_get_system_info o now_info _)
                _ _ _ J4 H5) as [[Hfs _] Hfl].
  change (String.eqb "POST" "POST") with true in Hrun. cbv iota in Hrun.
  apply bind_inr_inv in Hrun as ([] & a6 & Hrun & [= <- <-]).
  rewrite (apply_action_delete_mount now form Hact), Hmp in Hrun.
  cbn [App.host App.request a0] in Hfs. cbn [App.flashes App.request a0] in Hfl.
  rewrite <- Hfs.
  split; [reflexivity|]. split_and!.
  - intros table Htable.
    destruct (DeleteMount.delete_mount_run "" table _ Htable)
      as (fs' & Hdel & _).
    unfold bind, App.on_host, on_fs in Hrun. rewrite Hdel in Hrun.
    unfold App.flash_result, App.flash in Hrun. cbn [fst snd] in Hrun.
    injection Hrun as <-. cbn [App.host App.flashes host_fs].
    split; [now rewrite Hfl|].
    pose proof (delete_empty_lines _ _ _ Hdel) as Hall.
    split; [exact Hall|].
    rewrite get_fstab_mounts_run. f_equal. f_equal.
    unfold listed. now apply mounts_of_comments.
  - intros u Hu.
    destruct (DeleteMount.delete_mount_undecodable "" u _ Hu)
      as (fs' & Hdel & Hfiles).
    unfold bind, App.on_host, on_fs in Hrun. rewrite Hdel in Hrun.
    unfold App.flash_result, App.flash in Hrun. cbn [fst snd] in Hrun.
    injection Hrun as <-. cbn [App.host App.flashes host_fs].
    split; [now rewrite Hfl|].
    rewrite Hfiles, lookup_insert_ne by discriminate. exact Hu.
  - intros Hnone.
    pose proof (delete_mount_missing "" _ Hnone) as Hdel.
    unfold bind, App.on_host, on_fs in Hrun. rewrite Hdel in Hrun.
    unfold App.flash_result, App.flash in Hrun. cbn [fst snd] in Hrun.
    injection Hrun as <-. cbn [App.host App.flashes host_fs].
    split; [now rewrite Hfl | reflexivity].
Qed.

(** *** Forms that are turned down *)

Lemma apply_action_rejected (now : datetime) (form : gmap string string)
    (msg : string) :
  rejected form msg →
  App.apply_action CREDENTIALS_DIR read_file o now form
  = App.flash msg "danger".
Proof.
  unfold blank.
  intros [Ha [Hb | Hb] | Ha [Hb | Hb] | Ha Hu Hp Hne | Ha [Hb | Hb]];
    unfold App.apply_action; rewrite Ha; cbv beta iota zeta;
    change (String.eqb "add_share" "add_share") with true;
    change (String.eqb "add_user" "add_share") with false;
    change (String.eqb "add_user" "delete_share") with false;
    change (String.eqb "add_user" "add_user") with true;
    change (String.eqb "add_mount" "add_share") with false;
    change (String.eqb "add_mount" "delete_share") with false;
    change (String.eqb "add_mount" "add_user") with false;
    change (String.eqb "add_mount" "delete_user") with false;
    change (String.eqb "add_mount" "add_mount") with true;
    cbv beta iota; cbn [name].
  - now rewrite Hb.
  - rewrite Hb. now rewrite orb_true_r.
  - now rewrite Hb.
  - rewrite Hb. now rewrite orb_true_r.
  - apply String.eqb_neq in Hu, Hp, Hne. now rewrite Hu, Hp, Hne.
  - now rewrite Hb.
  - rewrite Hb. now rewrite orb_true_r.
Qed.

(** X20. A POST whose form lacks a required field (share name or path for
    add_share, user name or password for add_user, remote or mountpoint for
    add_mount) or gives two different passwords is turned down before
    anything is called: no file is changed, no command beyond those of the
    page is run, and when the request is answered it is answered with the
    redirect after flashing exactly the one message of the guard, as
    danger. *)
Theorem rejected_form_changes_nothing (now_info now : datetime)
    (form : gmap string string) (msg : string) (a : App.t)
    (r : exn + Response) (a' : App.t) :
  rejected form msg →
  App.index CREDENTIALS_DIR read_file o now_info now "POST" form a = (r, a') →
  host_read_only (App.host a) (App.host a') ∧
  (∀ e, r = inl e → App.flashes a' = App.flashes a) ∧
  (∀ resp, r = inr resp →
     resp = Redirect ∧
     App.flashes a' = (App.flashes a ++ [(msg, "danger")])%list).
Proof.
  intros Hrej Hrun.
  pose proof (read_only_ignores_config a) as Hi.
  assert (J0 : read_only a a)
    by (split; [split; [reflexivity | apply reads_since_refl] | reflexivity]).
  assert (Hfail : ∀ a1, (∃ e, r = inl e ∧ read_only a a1) → a1 = a' →
    host_read_only (App.host a) (App.host a') ∧
    (∀ e, r = inl e → App.flashes a' = App.flashes a) ∧
    (∀ resp, r = inr resp →
       resp = Redirect ∧
       App.flashes a' = (App.flashes a ++ [(msg, "danger")])%list)).
  { intros a1 (e & -> & [Hh Hfl]) <-.
    split; [exact Hh|]. split; [intros; exact Hfl | discriminate]. }
  unfold App.index in Hrun.
  change (String.eqb "POST" "POST") with true in Hrun. cbv iota in Hrun.
  rewrite (apply_action_rejected now form msg Hrej) in Hrun.
  destruct (bind_keeps _ _ _ _ _ _
              (keeps_on_config _ _ Hi (load_fs read_file)) J0 Hrun)
    as [H | (b & a1 & J1 & Hrun1)]; [now apply (Hfail a')|].
  destruct (bind_keeps _ _ _ _ _ _
              (keeps_on_config _ _ Hi (get_shares_fs read_file)) J1 Hrun1)
    as [H | (shares & a2 & J2 & Hrun2)]; [now apply (Hfail a')|].
  destruct (bind_keeps _ _ _ _ _ _
              (keeps_read_commands a _ (keeps_get_users o _)) J2 Hrun2)
    as [H | (users & a3 & J3 & Hrun3)]; [now apply (Hfail a')|].
  destruct (bind_keeps _ _ _ _ _ _
              (keeps_read_fs a _ get_fstab_mounts_fs) J3 Hrun3)
    as [H | (mounts & a4 & J4 & Hrun4)]; [now apply (Hfail a')|].
  destruct (bind_keeps _ _ _ _ _ _
              (keeps_read_commands a _ (keeps_get_system_info o now_info _))
              J4 Hrun4)
    as [H | (info & a5 & [Hh Hfl] & Hrun5)]; [now apply (Hfail a')|].
  unfold bind, App.flash, ret in Hrun5. injection Hrun5 as <- <-.
  cbn [App.host App.flashes].
  split; [exact Hh|]. split; [discriminate|].
  intros resp [= <-]. split; [reflexivity | now rewrite Hfl].
Qed.

End WithEnvironment.

Lemma get_request_reads_only_witness :
  host_fs (App.host (snd (App.index "/etc/samba/credentials" example_read_file example_oracle example_now example_now "GET" ∅ (App.request example_host [])))) = host_fs (App.host (App.request example_host [])) ∧
  App.flashes (snd (App.index "/etc/samba/credentials" example_read_file example_oracle example_now example_now "GET" ∅ (App.request example_host []))) = App.flashes (App.request example_host []) ∧
  reads_since (host_history (App.host (App.request example_host [])))
    (host_history (App.host (snd (App.index "/etc/samba/credentials" example_read_file example_oracle example_now example_now "GET" ∅ (App.request example_host []))))).
Proof.
  apply (get_request_reads_only "/etc/samba/credentials" example_read_file example_oracle
           example_now example_now "GET" ∅ (App.request example_host []) (fst (App.index "/etc/samba/credentials" example_read_file example_oracle example_now example_now "GET" ∅ (App.request example_host [])))).
  - discriminate.
  - apply surjective_pairing.
Defined.

Lemma other_actions_keep_files_witness :
  host_fs (App.host (snd (App.index "/etc/samba/credentials" example_read_file example_oracle example_now example_now "POST" ({[ "action" := "restart_smbd" ]} : gmap string string) (App.request example_host [])))) = host_fs (App.host (App.request example_host [])).
Proof.
  apply (other_actions_keep_files "/etc/samba/credentials" example_read_file example_oracle
           example_now example_now "POST" ({[ "action" := "restart_smbd" ]} : gmap string string) (App.request example_host []) (fst (App.index "/etc/samba/credentials" example_read_file example_oracle example_now example_now "POST" ({[ "action" := "restart_smbd" ]} : gmap string string) (App.request example_host [])))).
  - vm_compute. intros H.
    repeat (apply elem_of_cons in H as [H | H]; [discriminate|]).
    inversion H.
  - apply surjective_pairing.
Defined.

Lemma valueless_flag_fails_every_request_witness :
  ∃ a',
    App.index "/etc/samba/credentials" valueless_read_file example_oracle example_now example_now "GET" ∅
      (App.request example_host [])
    = (inl (AttributeError "'NoneType' object has no attribute 'lower'"), a') ∧
    App.host a' = example_host ∧ App.flashes a' = [].
Proof.
  apply (valueless_flag_fails_every_request "/etc/samba/credentials" valueless_read_file
           example_oracle example_now example_now "GET" ∅ example_host []
           (Text ("[global]" +:+ String LF "workgroup = WORKGROUP" +:+ String LF "")) "docs" "writable"
           [("path", Some "/srv/docs"); ("writable", None)]).
  - vm_compute; reflexivity.
  - reflexivity.
  - reflexivity.
  - left.
  - reflexivity.
Defined.

Lemma blank_delete_mount_clears_table_witness :
  App.flashes (snd (App.index "/etc/samba/credentials" example_read_file example_oracle example_now example_now "POST" ({[ "action" := "delete_mount" ]} : gmap string string) (App.request example_host [])))
  = ([] ++ [("Mount removed from fstab", "success")])%list ∧
  (∀ line, line ∈ table_lines (host_fs (App.host (snd (App.index "/etc/samba/credentials" example_read_file example_oracle example_now example_now "POST" ({[ "action" := "delete_mount" ]} : gmap string string) (App.request example_host []))))) →
           is_comment line = true) ∧
  MountManager.get_fstab_mounts (host_fs (App.host (snd (App.index "/etc/samba/credentials" example_read_file example_oracle example_now example_now "POST" ({[ "action" := "delete_mount" ]} : gmap string string) (App.request example_host [])))))
  = (inr [], host_fs (App.host (snd (App.index "/etc/samba/credentials" example_read_file example_oracle example_now example_now "POST" ({[ "action" := "delete_mount" ]} : gmap string string) (App.request example_host []))))).
Proof.
  pose proof (blank_delete_mount_clears_table "/etc/samba/credentials" example_read_file
           example_oracle example_now example_now ({[ "action" := "delete_mount" ]} : gmap string string) example_host []
           Redirect (snd (App.index "/etc/samba/credentials" example_read_file example_oracle example_now example_now "POST" ({[ "action" := "delete_mount" ]} : gmap string string) (App.request example_host [])))) as H.
  specialize (H ltac:(vm_compute; reflexivity) ltac:(vm_compute; reflexivity)
                ltac:(vm_compute; reflexivity)).
  destruct H as (_ & Htext & _).
  apply (Htext mixed_table). vm_compute; reflexivity.
Defined.

Lemma rejected_form_changes_nothing_witness :
  host_read_only (App.host (App.request example_host [])) (App.host (snd (App.index "/etc/samba/credentials" example_read_file example_oracle example_now example_now "POST" ({[ "action" := "add_share" ]} : gmap string string) (App.request example_host [])))) ∧
  (∀ e, fst (App.index "/etc/samba/credentials" example_read_file example_oracle example_now example_now "POST" ({[ "action" := "add_share" ]} : gmap string string) (App.request example_host [])) = inl e →
        App.flashes (snd (App.index "/etc/samba/credentials" example_read_file example_oracle example_now example_now "POST" ({[ "action" := "add_share" ]} : gmap string string) (App.request example_host []))) = App.flashes (App.request example_host [])) ∧
  (∀ resp, fst (App.index "/etc/samba/credentials" example_read_file example_oracle example_now example_now "POST" ({[ "action" := "add_share" ]} : gmap string string) (App.request example_host [])) = inr resp →
     resp = Redirect ∧
     App.flashes (snd (App.index "/etc/samba/credentials" example_read_file example_oracle example_now example_now "POST" ({[ "action" := "add_share" ]} : gmap string string) (App.request example_host [])))
     = (App.flashes (App.request example_host [])
        ++ [("Share name and path are required", "danger")])%list).
Proof.
  apply (rejected_form_changes_nothing "/etc/samba/credentials" example_read_file
           example_oracle example_now example_now ({[ "action" := "add_share" ]} : gmap string string)
           "Share name and path are required" (App.request example_host [])).
  - apply rejected_share; [vm_compute; reflexivity|].
    left. vm_compute; reflexivity.
  - apply surjective_pairing.
Defined.

End Requests.
